(** * cf-feedback-agent: clustering, priority scoring and fix lifecycle

    A shallow embedding of the triage core of [src/index.ts]
    ([cosineSimilarity], [calculatePriorityScore], [isUserSpecificFeedback],
    [clusterFeedbacksWithEmbeddings] and the evaluation and assembly steps of
    [generateMorningDigest]) together with the properties the specification
    states about them.

    Numbers.  JavaScript numbers are IEEE-754 binary64 values.  The
    arithmetic the program uses is collected in the class [JsNumber]; every
    function of the program is written once, over that class, and is read

    - at [binary64], the primitive floats of the kernel, where it computes
      bit for bit what the program computes, and
    - at [exact], the real numbers, for what the specification states under
      exact arithmetic.

    What depends on the control flow only is proved for every instance of
    the class.

    Texts.  Strings are strings of 8-bit characters and the string functions
    are the JavaScript ones on ASCII text; the regular expressions of the
    program are terms of [Regex.regex], run by a backtracking matcher.

    State.  The database is a record of three tables, each a list of rows;
    the functions that write to it take it and return it.  The clusters of
    the working set are JavaScript objects held in one array and mutated in
    place: the array is a list, and a mutation replaces the element at the
    position of the object.  What comes from outside the program (the
    clock, the classification and embedding services, the identifier
    generator, the JSON codec) is a field of [Env]. *)

From Stdlib Require Import ZArith List String Ascii Bool Arith Lia.
From Stdlib Require Import Reals Lra Floats Permutation.
Import ListNotations.

Set Implicit Arguments.

(* ================================================================== *)
(** * Numbers *)
(* ================================================================== *)

Declare Scope js_scope.
Delimit Scope js_scope with js.

Class JsNumber (num : Type) := {
  jofZ   : Z -> num;            (* an integer literal *)
  jadd   : num -> num -> num;
  jsub   : num -> num -> num;
  jmul   : num -> num -> num;
  jdiv   : num -> num -> num;
  jsqrt  : num -> num;          (* Math.sqrt *)
  jmax   : num -> num -> num;   (* Math.max  *)
  jmin   : num -> num -> num;   (* Math.min  *)
  jeqb   : num -> num -> bool;  (* ===       *)
  jltb   : num -> num -> bool;  (* <         *)
  jleb   : num -> num -> bool;  (* <=        *)
  jisNaN : num -> bool;         (* isNaN     *)
  jisNaN_zero : jisNaN (jofZ 0) = false
}.

Infix "+" := jadd : js_scope.
Infix "-" := jsub : js_scope.
Infix "*" := jmul : js_scope.
Infix "/" := jdiv : js_scope.
Infix "===" := jeqb (at level 70, no associativity) : js_scope.
Notation "a !== b" := (negb (jeqb a b)) (at level 70, no associativity) : js_scope.
Infix "<?" := jltb : js_scope.
Infix "<=?" := jleb : js_scope.
Notation "a >? b" := (jltb b a) : js_scope.
Notation "a >=? b" := (jleb b a) : js_scope.

Section NumberHelpers.
Context {num : Type} `{JsNumber num}.

(** The decimal literal [n/d] (0.2 is [jdec 2 10]).  Both parts are small
    integers, so that the correctly rounded quotient is the binary64 value
    the literal denotes. *)
Definition jdec (n d : Z) : num := (jofZ n / jofZ d)%js.

(** Truthiness of a number: [0], [-0] and [NaN] are falsy. *)
Definition truthy (x : num) : bool := negb (jeqb x (jofZ 0)) && negb (jisNaN x).

(** [x || d] for an optional number ([undefined] and [null] are falsy). *)
Definition num_or (x : option num) (d : num) : num :=
  match x with
  | Some v => if truthy v then v else d
  | None => d
  end.

(** [arr.some(val => val !== 0)]. *)
Definition some_nonzero (v : list num) : bool :=
  existsb (fun val => (val !== jofZ 0)%js) v.
End NumberHelpers.

(** ** binary64 *)

Module Binary64.
Definition of_Z (z : Z) : float :=
  match z with
  | Z0 => PrimFloat.zero
  | Zpos _ => PrimFloat.of_uint63 (Uint63.of_Z z)
  | Zneg p => PrimFloat.opp (PrimFloat.of_uint63 (Uint63.of_Z (Zpos p)))
  end.

(** [Math.max]: [NaN] if an argument is [NaN]; [+0] is larger than [-0]. *)
Definition max (a b : float) : float :=
  if PrimFloat.is_nan a then a
  else if PrimFloat.is_nan b then b
  else if PrimFloat.ltb a b then b
  else if PrimFloat.ltb b a then a
  else if PrimFloat.eqb a PrimFloat.zero then PrimFloat.add a b
  else a.

Definition min (a b : float) : float :=
  if PrimFloat.is_nan a then a
  else if PrimFloat.is_nan b then b
  else if PrimFloat.ltb a b then a
  else if PrimFloat.ltb b a then b
  else if PrimFloat.eqb a PrimFloat.zero
       then PrimFloat.opp (PrimFloat.add (PrimFloat.opp a) (PrimFloat.opp b))
  else a.
End Binary64.

#[export] Instance binary64 : JsNumber float := {
  jofZ := Binary64.of_Z;
  jadd := PrimFloat.add;
  jsub := PrimFloat.sub;
  jmul := PrimFloat.mul;
  jdiv := PrimFloat.div;
  jsqrt := PrimFloat.sqrt;
  jmax := Binary64.max;
  jmin := Binary64.min;
  jeqb := PrimFloat.eqb;
  jltb := PrimFloat.ltb;
  jleb := PrimFloat.leb;
  jisNaN := PrimFloat.is_nan;
  jisNaN_zero := eq_refl
}.

(** ** Exact arithmetic *)

Module Exact.
Definition eqb (x y : R) : bool := if Req_dec_T x y then true else false.
Definition ltb (x y : R) : bool := if Rlt_dec x y then true else false.
Definition leb (x y : R) : bool := if Rle_dec x y then true else false.
End Exact.

#[export] Instance exact : JsNumber R := {
  jofZ := IZR;
  jadd := Rplus;
  jsub := Rminus;
  jmul := Rmult;
  jdiv := Rdiv;
  jsqrt := R_sqrt.sqrt;
  jmax := Rmax;
  jmin := Rmin;
  jeqb := Exact.eqb;
  jltb := Exact.ltb;
  jleb := Exact.leb;
  jisNaN := fun _ => false;
  jisNaN_zero := eq_refl
}.

(* ================================================================== *)
(** * Cosine similarity *)
(* ================================================================== *)

Section Cosine.
Context {num : Type} `{JsNumber num}.

(** The three accumulators of the loop of [cosineSimilarity]. *)
Record Sums := { dotProduct : num; normA : num; normB : num }.

(** [for (let i = 0; i < vecA.length; i++) { ... }], entered only when the
    two arrays have the same length. *)
Fixpoint cosine_loop (vecA vecB : list num) (acc : Sums) : Sums :=
  match vecA, vecB with
  | a :: vecA', b :: vecB' =>
      cosine_loop vecA' vecB'
        {| dotProduct := (dotProduct acc + a * b)%js;
           normA := (normA acc + a * a)%js;
           normB := (normB acc + b * b)%js |}
  | _, _ => acc
  end.

Definition cosine_sums (vecA vecB : list num) : Sums :=
  cosine_loop vecA vecB
    {| dotProduct := jofZ 0; normA := jofZ 0; normB := jofZ 0 |}.

Definition cosineSimilarity (vecA vecB : list num) : num :=
  if (List.length vecA =? 0)%nat || (List.length vecB =? 0)%nat then jofZ 0
  else if negb (List.length vecA =? List.length vecB)%nat then jofZ 0
  else
    let s := cosine_sums vecA vecB in
    if (normA s === jofZ 0)%js || (normB s === jofZ 0)%js then jofZ 0
    else
      let similarity := (dotProduct s / (jsqrt (normA s) * jsqrt (normB s)))%js in
      if jisNaN similarity then jofZ 0 else similarity.
End Cosine.

(* ================================================================== *)
(** * Strings and regular expressions *)
(* ================================================================== *)

(** Texts are strings of 8-bit characters; the functions below are the
    JavaScript ones on ASCII text. *)

Module Str.
Definition code (c : ascii) : nat := nat_of_ascii c.

Definition between (lo hi : nat) (c : ascii) : bool :=
  (lo <=? code c)%nat && (code c <=? hi)%nat.

Definition is_upper : ascii -> bool := between 65 90.
Definition is_lower : ascii -> bool := between 97 122.
Definition is_digit : ascii -> bool := between 48 57.

(** [\w] *)
Definition is_word (c : ascii) : bool :=
  is_upper c || is_lower c || is_digit c || (code c =? 95)%nat.

(** [\s]: tab, line feed, vertical tab, form feed, carriage return, space. *)
Definition is_space (c : ascii) : bool :=
  between 9 13 c || (code c =? 32)%nat.

(** [.] matches everything but a line terminator. *)
Definition is_dot (c : ascii) : bool :=
  negb ((code c =? 10)%nat || (code c =? 13)%nat).

Definition lower_char (c : ascii) : ascii :=
  if is_upper c then ascii_of_nat (code c + 32) else c.

Fixpoint toLowerCase (s : string) : string :=
  match s with
  | EmptyString => EmptyString
  | String c s' => String (lower_char c) (toLowerCase s')
  end.

Definition chars (s : string) : list ascii := list_ascii_of_string s.
Definition of_chars (l : list ascii) : string := string_of_list_ascii l.

Fixpoint starts_with (p s : list ascii) : bool :=
  match p, s with
  | [], _ => true
  | a :: p', b :: s' => Ascii.eqb a b && starts_with p' s'
  | _ :: _, [] => false
  end.

Fixpoint includes_chars (s p : list ascii) : bool :=
  starts_with p s ||
  match s with
  | [] => false
  | _ :: s' => includes_chars s' p
  end.

(** [s.includes(sub)] *)
Definition includes (s sub : string) : bool := includes_chars (chars s) (chars sub).

Fixpoint drop_spaces (l : list ascii) : list ascii :=
  match l with
  | c :: l' => if is_space c then drop_spaces l' else l
  | [] => []
  end.

(** [s.trim()] *)
Definition trim_chars (l : list ascii) : list ascii :=
  rev (drop_spaces (rev (drop_spaces l))).

Definition mem (s : string) (l : list string) : bool :=
  existsb (String.eqb s) l.

(** [set.add(s)] on a [Set] kept in insertion order. *)
Definition set_add (s : string) (l : list string) : list string :=
  if mem s l then l else l ++ [s].

(** [new Set(l)] *)
Definition to_set (l : list string) : list string :=
  fold_left (fun acc s => set_add s acc) l [].

(** [s.split(/\W+/)]: the maximal runs of word characters, with an empty
    string where the text starts or ends with a separator. *)
Fixpoint split_nonword (l : list ascii) (cur : list ascii) (in_sep : bool)
  : list (list ascii) :=
  match l with
  | [] => [rev cur]
  | c :: l' =>
      if is_word c then split_nonword l' (c :: cur) false
      else if in_sep then split_nonword l' cur true
      else rev cur :: split_nonword l' [] true
  end.

Definition split_W (s : string) : list string :=
  map of_chars (split_nonword (chars s) [] false).
End Str.

Module Regex.
Inductive regex : Type :=
| Empty                          (* the empty pattern *)
| Char (p : ascii -> bool)       (* one character of a class *)
| Seq (r1 r2 : regex)
| Alt (r1 r2 : regex)            (* r1|r2, r1 tried first *)
| Star (r : regex)               (* r*, greedy *)
| Boundary.                      (* \b *)

Definition word_before (prev : option ascii) : bool :=
  match prev with Some c => Str.is_word c | None => false end.

Definition word_after (s : list ascii) : bool :=
  match s with c :: _ => Str.is_word c | [] => false end.

(** The backtracking matcher, in continuation-passing style: [rmatch r prev
    s k] matches [r] at the head of [s] ([prev] is the character before it)
    and hands the rest of the text to [k]; the first success in the order
    in which a backtracking engine explores the alternatives is returned.
    An iteration of [r*] that consumes nothing is rejected, as in
    ECMAScript. *)
Fixpoint rmatch {A : Type} (r : regex) (prev : option ascii) (s : list ascii)
    (k : option ascii -> list ascii -> option A) {struct r} : option A :=
  match r with
  | Empty => k prev s
  | Char p =>
      match s with
      | c :: s' => if p c then k (Some c) s' else None
      | [] => None
      end
  | Seq r1 r2 => rmatch r1 prev s (fun prev' s' => rmatch r2 prev' s' k)
  | Alt r1 r2 =>
      match rmatch r1 prev s k with
      | Some x => Some x
      | None => rmatch r2 prev s k
      end
  | Star r' =>
      (fix loop (fuel : nat) (prev : option ascii) (s : list ascii) {struct fuel}
         : option A :=
         match fuel with
         | O => k prev s
         | S fuel' =>
             match rmatch r' prev s
                     (fun prev' s' =>
                        if (List.length s' <? List.length s)%nat
                        then loop fuel' prev' s' else None) with
             | Some x => Some x
             | None => k prev s
             end
         end) (List.length s) prev s
  | Boundary =>
      if xorb (word_before prev) (word_after s) then k prev s else None
  end.

(** The leftmost position at which [r] matches. *)
Fixpoint search {A : Type} (r : regex) (prev : option ascii) (s : list ascii)
    (k : option ascii -> list ascii -> option A) : option A :=
  match rmatch r prev s k with
  | Some x => Some x
  | None =>
      match s with
      | [] => None
      | c :: s' => search r (Some c) s' k
      end
  end.

(** [r.test(s)] for a pattern without the [g] flag. *)
Definition test (r : regex) (s : string) : bool :=
  match search r None (Str.chars s) (fun _ _ => Some tt) with
  | Some _ => true
  | None => false
  end.

(** [s.match(r)] for a pattern with the [g] flag: all the matches, from
    left to right, each search starting where the previous match ended
    (one character further after an empty match). *)
Fixpoint match_all_from (fuel : nat) (r : regex) (prev : option ascii)
    (s : list ascii) : list (list ascii) :=
  match fuel with
  | O => []
  | S fuel' =>
      match rmatch r prev s (fun _ s' => Some s') with
      | Some s' =>
          let m := firstn (List.length s - List.length s') s in
          match m, s with
          | [], [] => [ [] ]
          | [], c :: rest => [] :: match_all_from fuel' r (Some c) rest
          | _ :: _, _ => m :: match_all_from fuel' r (Some (last m "000"%char)) s'
          end
      | None =>
          match s with
          | [] => []
          | c :: rest => match_all_from fuel' r (Some c) rest
          end
      end
  end.

Definition match_all (r : regex) (s : string) : list string :=
  map Str.of_chars
    (match_all_from (S (String.length s)) r None (Str.chars s)).

(** ** Pattern combinators *)

Fixpoint lit_chars (l : list ascii) : regex :=
  match l with
  | [] => Empty
  | [c] => Char (Ascii.eqb c)
  | c :: l' => Seq (Char (Ascii.eqb c)) (lit_chars l')
  end.

(** A literal. *)
Definition lit (s : string) : regex := lit_chars (Str.chars s).

Fixpoint lit_i_chars (l : list ascii) : regex :=
  match l with
  | [] => Empty
  | c :: l' =>
      Seq (Char (fun x => Ascii.eqb (Str.lower_char x) (Str.lower_char c)))
          (lit_i_chars l')
  end.

(** A literal under the [i] flag. *)
Definition lit_i (s : string) : regex := lit_i_chars (Str.chars s).

Fixpoint seqs (l : list regex) : regex :=
  match l with
  | [] => Empty
  | [r] => r
  | r :: l' => Seq r (seqs l')
  end.

Fixpoint alts (l : list regex) : regex :=
  match l with
  | [] => Char (fun _ => false)
  | [r] => r
  | r :: l' => Alt r (alts l')
  end.

(** [(w1|w2|...)] *)
Definition words (l : list string) : regex := alts (map lit l).
Definition words_i (l : list string) : regex := alts (map lit_i l).

Definition plus (r : regex) : regex := Seq r (Star r).   (* r+ *)
Definition opt (r : regex) : regex := Alt r Empty.       (* r? *)

Definition s1 : regex := plus (Char Str.is_space).       (* \s+ *)
Definition s0 : regex := Star (Char Str.is_space).       (* \s* *)
Definition w1 : regex := plus (Char Str.is_word).        (* \w+ *)
Definition w0 : regex := Star (Char Str.is_word).        (* \w* *)
Definition d1 : regex := plus (Char Str.is_digit).       (* \d+ *)
Definition dots : regex := Star (Char Str.is_dot).       (* .*  *)
Definition b : regex := Boundary.                        (* \b  *)

(** [[:\-]] *)
Definition colon_or_dash : regex :=
  Char (fun c => Ascii.eqb c ":"%char || Ascii.eqb c "-"%char).
End Regex.

(* ================================================================== *)
(** * The user-specific predicate *)
(* ================================================================== *)

Module UserSpecific.
Import Regex.
Local Open Scope string_scope.

(** The patterns are tested against the lower-cased text, and a pattern
    without the [i] flag distinguishes case: [lit "I"] is the letter
    capital I. *)
Definition userSpecificPatterns : list regex := [
  (* /\bmy\s+(subscription|account|billing|payment|data|profile|settings)\b/ *)
  seqs [b; lit "my"; s1;
        words ["subscription"; "account"; "billing"; "payment"; "data";
               "profile"; "settings"]; b];
  (* /\bI\s+(am|was|have|had|see|saw|got|received|paid|charged)\b/ *)
  seqs [b; lit "I"; s1;
        words ["am"; "was"; "have"; "had"; "see"; "saw"; "got"; "received";
               "paid"; "charged"]; b];
  (* /\bmy\s+(user|account)\s+(id|number|email)\b/ *)
  seqs [b; lit "my"; s1; words ["user"; "account"]; s1;
        words ["id"; "number"; "email"]; b];
  (* /\b(account|subscription|order)\s+(id|number|#)\s*[:\-]?\s*\w+/i *)
  seqs [b; words_i ["account"; "subscription"; "order"]; s1;
        words_i ["id"; "number"; "#"]; s0; opt colon_or_dash; s0; w1];
  (* /\b(user|customer)\s+(id|number)\s*[:\-]?\s*\w+/i *)
  seqs [b; words_i ["user"; "customer"]; s1; words_i ["id"; "number"];
        s0; opt colon_or_dash; s0; w1];
  (* /\b(my|I)\s+(subscription|account)\s+(expired|cancelled|renewed|charged)/ *)
  seqs [b; words ["my"; "I"]; s1; words ["subscription"; "account"]; s1;
        words ["expired"; "cancelled"; "renewed"; "charged"]];
  (* /\bI\s+(can't|cannot|unable)\s+to\s+(access|see|view)\s+my/ *)
  seqs [b; lit "I"; s1; words ["can't"; "cannot"; "unable"]; s1; lit "to";
        s1; words ["access"; "see"; "view"]; s1; lit "my"];
  (* /\bmy\s+(subscription|account)\s+(got|was)\s+(cancelled|expired|charged)/ *)
  seqs [b; lit "my"; s1; words ["subscription"; "account"]; s1;
        words ["got"; "was"]; s1; words ["cancelled"; "expired"; "charged"]];
  (* /\b(seeing|showing|displaying)\s+(wrong|incorrect|different)\s+(data|information|details)/ *)
  seqs [b; words ["seeing"; "showing"; "displaying"]; s1;
        words ["wrong"; "incorrect"; "different"]; s1;
        words ["data"; "information"; "details"]];
  (* /\bmy\s+(data|information|details)\s+(is|are|shows|showing)/ *)
  seqs [b; lit "my"; s1; words ["data"; "information"; "details"]; s1;
        words ["is"; "are"; "shows"; "showing"]];
  (* /\bI\s+(was|got)\s+(charged|billed|refunded)\s+/ *)
  seqs [b; lit "I"; s1; words ["was"; "got"]; s1;
        words ["charged"; "billed"; "refunded"]; s1];
  (* /\bmy\s+(payment|charge|billing)\s+(failed|succeeded|processed)/ *)
  seqs [b; lit "my"; s1; words ["payment"; "charge"; "billing"]; s1;
        words ["failed"; "succeeded"; "processed"]]
].

Definition cumulativePatterns : list regex := [
  (* /\b(app|application|system)\s+(crashes|crash|crashing)/ *)
  seqs [b; words ["app"; "application"; "system"]; s1;
        words ["crashes"; "crash"; "crashing"]];
  (* /\b(when|while)\s+(going|switching|changing|opening|closing)/ *)
  seqs [b; words ["when"; "while"]; s1;
        words ["going"; "switching"; "changing"; "opening"; "closing"]];
  (* /\b(theme|dark\s+mode|feature)\s+(not\s+working|broken|doesn't\s+work)/ *)
  seqs [b; alts [lit "theme"; seqs [lit "dark"; s1; lit "mode"]; lit "feature"];
        s1;
        alts [seqs [lit "not"; s1; lit "working"]; lit "broken";
              seqs [lit "doesn't"; s1; lit "work"]]];
  (* /\b(all|every|many|users|people)\s+(are|can't|cannot)/ *)
  seqs [b; words ["all"; "every"; "many"; "users"; "people"]; s1;
        words ["are"; "can't"; "cannot"]];
  (* /\b(affecting|affects)\s+(all|every|many|users)/ *)
  seqs [b; words ["affecting"; "affects"]; s1;
        words ["all"; "every"; "many"; "users"]]
].

(* /\b(my|I)\s+.*\b(subscription|account|billing|payment|data)\b/ *)
Definition defaultPattern : regex :=
  seqs [b; words ["my"; "I"]; s1; dots; b;
        words ["subscription"; "account"; "billing"; "payment"; "data"]; b].

Definition isUserSpecificFeedback (content : string) : bool :=
  let lower := Str.toLowerCase content in
  if existsb (fun pattern => test pattern lower) userSpecificPatterns then true
  else if existsb (fun pattern => test pattern lower) cumulativePatterns then false
  else if test defaultPattern lower then true
  else false.
End UserSpecific.

(* ================================================================== *)
(** * Text heuristics of the matcher *)
(* ================================================================== *)

Module TextMatch.
Import Regex.
Local Open Scope string_scope.

(** The patterns of [extractKeyPhrases], all with the [g] flag. *)
Definition patterns : list regex := [
  seqs [lit "login"; s1; w1];                 (* /login\s+\w+/g *)
  seqs [lit "billing"; s1; w1];               (* /billing\s+\w+/g *)
  seqs [lit "payment"; s1; w1];               (* /payment\s+\w+/g *)
  seqs [lit "crash"; w0];                     (* /crash\w*/g *)
  seqs [lit "error"; s1; d1];                 (* /error\s+\d+/g *)
  seqs [b; words ["can't"; "cannot"; "won't"]; s1; w1];
                                              (* /\b(can't|cannot|won't)\s+\w+/g *)
  seqs [lit "dark"; s1; lit "mode"];          (* /dark\s+mode/g *)
  seqs [lit "rate"; s1; lit "limit"];         (* /rate\s+limit/g *)
  seqs [d1; s1; lit "error"];                 (* /\d+\s+error/g *)
  seqs [lit "login"; s1; lit "crash"];        (* /login\s+crash/g *)
  seqs [lit "login"; s1; lit "bug"];          (* /login\s+bug/g *)
  seqs [lit "billing"; s1; lit "page"];       (* /billing\s+page/g *)
  seqs [lit "payment"; s1; lit "failed"];     (* /payment\s+failed/g *)
  seqs [lit "theme"; s1; w1];                 (* /theme\s+\w+/g *)
  seqs [lit "toggle"; s1; w1];                (* /toggle\s+\w+/g *)
  seqs [lit "dark"; s1; lit "mode"; s1; w0];  (* /dark\s+mode\s+\w*/g *)
  seqs [lit "resume"; s1; lit "crash"];       (* /resume\s+crash/g *)
  seqs [lit "background"; s1; w1];            (* /background\s+\w+/g *)
  seqs [lit "foreground"; s1; w1];            (* /foreground\s+\w+/g *)
  seqs [lit "force"; s1; lit "close"];        (* /force\s+close/g *)
  seqs [lit "double"; s1; lit "login"];       (* /double\s+login/g *)
  seqs [lit "login"; s1; lit "twice"];        (* /login\s+twice/g *)
  seqs [lit "second"; s1; lit "login"];       (* /second\s+login/g *)
  seqs [lit "first"; s1; lit "login"];        (* /first\s+login/g *)
  seqs [lit "2"; s1; lit "attempts"]          (* /2\s+attempts/g *)
].

Definition trim (s : string) : string :=
  Str.of_chars (Str.trim_chars (Str.chars s)).

Definition extractKeyPhrases (text : string) : list string :=
  let lower := Str.toLowerCase text in
  let phrases :=
    fold_left
      (fun phrases pattern =>
         fold_left (fun phrases m => Str.set_add (trim m) phrases)
                   (match_all pattern lower) phrases)
      patterns [] in
  let phrases :=
    if Str.includes lower "theme" || Str.includes lower "dark mode"
       || Str.includes lower "toggle"
    then
      if Str.includes lower "broken" || Str.includes lower "not working"
         || Str.includes lower "doesn't" || Str.includes lower "fails"
         || Str.includes lower "no change"
      then Str.set_add "theme_bug" phrases
      else phrases
    else phrases in
  if (Str.includes lower "resume" || Str.includes lower "background"
      || Str.includes lower "foreground" || Str.includes lower "recents")
     && Str.includes lower "crash"
  then Str.set_add "resume_crash" phrases
  else phrases.

Definition stopWords : list string :=
  ["the"; "this"; "that"; "with"; "from"; "when"; "will"; "need"; "very";
   "can"; "cant"; "not"; "and"; "are"; "for"; "has"; "have"; "was"; "were";
   "all"; "but"; "get"; "got"].

(** [new Set(text.split(/\W+/).filter(w => w.length > 2 && !stopWords.has(w)))] *)
Definition significantWords (lower : string) : list string :=
  Str.to_set
    (filter (fun w => (2 <? String.length w)%nat && negb (Str.mem w stopWords))
            (Str.split_W lower)).

(** [[...xs].filter(x => ys.has(x))] *)
Definition common (xs ys : list string) : list string :=
  filter (fun x => Str.mem x ys) xs.
End TextMatch.

(* ================================================================== *)
(** * Data model *)
(* ================================================================== *)

(** [fix_status?: 'open' | 'fix_deployed' | 'resolved' | 'failed' | 'wont_fix'] *)
Inductive FixStatus : Type :=
| open | fix_deployed | resolved | failed | wont_fix.

Definition FixStatus_eqb (a b : FixStatus) : bool :=
  match a, b with
  | open, open | fix_deployed, fix_deployed | resolved, resolved
  | failed, failed | wont_fix, wont_fix => true
  | _, _ => false
  end.

(** [fix_status === s] for an optional status. *)
Definition status_is (x : option FixStatus) (s : FixStatus) : bool :=
  match x with
  | Some a => FixStatus_eqb a s
  | None => false
  end.

(** [x || d] on optional strings: [null], [undefined] and [''] are falsy. *)
Definition str_or (x : option string) (d : string) : string :=
  match x with
  | Some EmptyString | None => d
  | Some s => s
  end.

(** Truthiness of an optional string. *)
Definition str_truthy (x : option string) : bool :=
  match x with
  | Some (String _ _) => true
  | _ => false
  end.

(** The outcome of [JSON.parse] on a column that should hold an array. *)
Inductive Parsed (A : Type) : Type :=
| SyntaxError                 (* JSON.parse throws *)
| NotAnArray                  (* a value for which Array.isArray is false *)
| ParsedArray (l : list A).
Arguments SyntaxError {A}.
Arguments NotAnArray {A}.

Record ClassificationResult := {
  cr_severity : string;
  cr_category : string
}.

Section Model.
Context {num : Type} `{JsNumber num}.

Record Feedback := {
  id : string;
  content : string;
  source : string;
  timestamp : num
}.

Record Cluster := {
  cluster_id : string;
  category : string;
  severity : string;
  centroid : list num;
  count : num;
  first_seen : num;
  last_seen : num;
  representative_feedback_id : string;
  representative_feedback : string;
  summary : string;
  suggested_action : string;
  user_impact : string;
  priority_score : num;
  sentiment_score : num;
  top_sources : list string;
  fix_status : option FixStatus;
  fix_deployed_date : option num;
  fix_deployed_version : option string;
  rollout_period_days : option num;
  original_severity : option string;
  current_severity : option string;
  reports_before_fix : option num;
  reports_after_fix : option num;
  fix_notes : option string
}.

(** A row of the table [clusters]; a nullable column is an [option]. *)
Record ClusterRow := {
  row_cluster_id : string;
  row_title : string;
  row_representative_feedback_id : string;
  row_representative_feedback : string;
  row_count : num;
  row_top_sources : option string;            (* JSON text *)
  row_category : string;
  row_severity : string;
  row_centroid : option string;               (* JSON text *)
  row_first_seen : num;
  row_last_seen : num;
  row_summary : option string;
  row_suggested_action : option string;
  row_user_impact : option string;
  row_priority_score : option num;
  row_sentiment_score : option num;
  row_fix_status : option FixStatus;
  row_fix_deployed_date : option num;
  row_fix_deployed_version : option string;
  row_rollout_period_days : option num;
  row_original_severity : option string;
  row_current_severity : option string;
  row_reports_before_fix : option num;
  row_reports_after_fix : option num;
  row_fix_notes : option string
}.

(** A row of the table [feedback]. *)
Record FeedbackRow := {
  fb : Feedback;
  fb_processed : bool;
  fb_instant_alert_sent : bool
}.

(** The database: the three tables the triage core reads and writes.
    [cluster_members] holds (cluster_id, feedback_id) pairs. *)
Record DB := {
  feedback_tbl : list FeedbackRow;
  clusters_tbl : list ClusterRow;
  cluster_members : list (string * string)
}.

Record Summary := {
  sm_summary : string;
  sm_suggested_action : string;
  sm_user_impact : string
}.

(** What the pass obtains from outside the program: the clock, the
    classification and embedding services, the identifier generator and
    the JSON codec.  [now] is what [Date.now()] returns, the same instant
    throughout a pass.  [randomUUID n] is the [n]-th identifier drawn; the
    generator never returns an identifier already in use, so that an
    [INSERT] never meets an existing primary key.  [parse_numbers] is
    [JSON.parse] on the column [centroid], whose arrays hold numbers. *)
Record Env := {
  now : num;
  classifyFeedback : string -> ClassificationResult;
  generateEmbedding : string -> list num;
  summarizeCluster : Cluster -> Summary;
  randomUUID : nat -> string;
  parse_numbers : string -> Parsed num;
  parse_strings : string -> option (list string);
  stringify_numbers : list num -> string;
  stringify_strings : list string -> string;
  sendTelegramMessage : bool
}.

(** [config.ts] (the values of [config.example.ts] are [defaultConfig]). *)
Record Config := {
  similarityThreshold : num;
  clusterLookbackDays : num;
  severityWeight : num;
  frequencyWeight : num;
  recencyWeight : num;
  sentimentWeight : num;
  threshold_p0 : num;
  threshold_p1 : num;
  threshold_p2 : num;
  maxIssues : nat
}.

Definition defaultConfig : Config := {|
  similarityThreshold := jdec 86 100;
  clusterLookbackDays := jofZ 7;
  severityWeight := jdec 55 100;
  frequencyWeight := jdec 25 100;
  recencyWeight := jdec 10 100;
  sentimentWeight := jdec 10 100;
  threshold_p0 := jofZ 70;
  threshold_p1 := jofZ 50;
  threshold_p2 := jofZ 30;
  maxIssues := 15
|}.

(** ** Record updates *)

Definition set_matched (c : Cluster) (n : num) (ls : num) (ts : list string)
    (cen : list num) : Cluster :=
  {| cluster_id := cluster_id c; category := category c;
     severity := severity c; centroid := cen; count := n;
     first_seen := first_seen c; last_seen := ls;
     representative_feedback_id := representative_feedback_id c;
     representative_feedback := representative_feedback c;
     summary := summary c; suggested_action := suggested_action c;
     user_impact := user_impact c; priority_score := priority_score c;
     sentiment_score := sentiment_score c; top_sources := ts;
     fix_status := fix_status c; fix_deployed_date := fix_deployed_date c;
     fix_deployed_version := fix_deployed_version c;
     rollout_period_days := rollout_period_days c;
     original_severity := original_severity c;
     current_severity := current_severity c;
     reports_before_fix := reports_before_fix c;
     reports_after_fix := reports_after_fix c; fix_notes := fix_notes c |}.

Definition set_fix (c : Cluster) (st : option FixStatus)
    (cur : option string) (after : option num) : Cluster :=
  {| cluster_id := cluster_id c; category := category c;
     severity := severity c; centroid := centroid c; count := count c;
     first_seen := first_seen c; last_seen := last_seen c;
     representative_feedback_id := representative_feedback_id c;
     representative_feedback := representative_feedback c;
     summary := summary c; suggested_action := suggested_action c;
     user_impact := user_impact c; priority_score := priority_score c;
     sentiment_score := sentiment_score c; top_sources := top_sources c;
     fix_status := st; fix_deployed_date := fix_deployed_date c;
     fix_deployed_version := fix_deployed_version c;
     rollout_period_days := rollout_period_days c;
     original_severity := original_severity c;
     current_severity := cur;
     reports_before_fix := reports_before_fix c;
     reports_after_fix := after; fix_notes := fix_notes c |}.

Definition set_priority_score (c : Cluster) (p : num) : Cluster :=
  {| cluster_id := cluster_id c; category := category c;
     severity := severity c; centroid := centroid c; count := count c;
     first_seen := first_seen c; last_seen := last_seen c;
     representative_feedback_id := representative_feedback_id c;
     representative_feedback := representative_feedback c;
     summary := summary c; suggested_action := suggested_action c;
     user_impact := user_impact c; priority_score := p;
     sentiment_score := sentiment_score c; top_sources := top_sources c;
     fix_status := fix_status c; fix_deployed_date := fix_deployed_date c;
     fix_deployed_version := fix_deployed_version c;
     rollout_period_days := rollout_period_days c;
     original_severity := original_severity c;
     current_severity := current_severity c;
     reports_before_fix := reports_before_fix c;
     reports_after_fix := reports_after_fix c; fix_notes := fix_notes c |}.

Definition set_summary (c : Cluster) (s : Summary) : Cluster :=
  {| cluster_id := cluster_id c; category := category c;
     severity := severity c; centroid := centroid c; count := count c;
     first_seen := first_seen c; last_seen := last_seen c;
     representative_feedback_id := representative_feedback_id c;
     representative_feedback := representative_feedback c;
     summary := sm_summary s; suggested_action := sm_suggested_action s;
     user_impact := sm_user_impact s; priority_score := priority_score c;
     sentiment_score := sentiment_score c; top_sources := top_sources c;
     fix_status := fix_status c; fix_deployed_date := fix_deployed_date c;
     fix_deployed_version := fix_deployed_version c;
     rollout_period_days := rollout_period_days c;
     original_severity := original_severity c;
     current_severity := current_severity c;
     reports_before_fix := reports_before_fix c;
     reports_after_fix := reports_after_fix c; fix_notes := fix_notes c |}.

(** ** The tables *)

(** [UPDATE clusters SET ... WHERE cluster_id = ?] *)
Definition update_cluster_row (cid : string) (f : ClusterRow -> ClusterRow)
    (db : DB) : DB :=
  {| feedback_tbl := feedback_tbl db;
     clusters_tbl :=
       map (fun r => if String.eqb (row_cluster_id r) cid then f r else r)
           (clusters_tbl db);
     cluster_members := cluster_members db |}.

(** [INSERT INTO clusters ...] *)
Definition insert_cluster_row (r : ClusterRow) (db : DB) : DB :=
  {| feedback_tbl := feedback_tbl db;
     clusters_tbl := clusters_tbl db ++ [r];
     cluster_members := cluster_members db |}.

(** [INSERT INTO cluster_members (cluster_id, feedback_id) VALUES (?, ?)] *)
Definition insert_member (cid fid : string) (db : DB) : DB :=
  {| feedback_tbl := feedback_tbl db;
     clusters_tbl := clusters_tbl db;
     cluster_members := cluster_members db ++ [(cid, fid)] |}.

(** [SELECT 1 FROM cluster_members WHERE cluster_id = ? AND feedback_id = ?] *)
Definition member_exists (cid fid : string) (db : DB) : bool :=
  existsb (fun m => String.eqb (fst m) cid && String.eqb (snd m) fid)
          (cluster_members db).

(** A stable sort in descending order of [key]: the order that
    [ORDER BY key DESC] and [sort((a, b) => key(b) - key(a))] produce
    (elements with equal keys keep their order). *)
Fixpoint insert_desc {A : Type} (key : A -> num) (x : A) (l : list A) : list A :=
  match l with
  | [] => [x]
  | y :: l' =>
      if (key x <? key y)%js then y :: insert_desc key x l'
      else x :: l
  end.

Definition sort_desc {A : Type} (key : A -> num) (l : list A) : list A :=
  fold_right (insert_desc key) [] l.
End Model.

Arguments Feedback num : clear implicits.
Arguments Cluster num : clear implicits.
Arguments ClusterRow num : clear implicits.
Arguments FeedbackRow num : clear implicits.
Arguments DB num : clear implicits.
Arguments Env num : clear implicits.
Arguments Config num : clear implicits.

(* ================================================================== *)
(** * The clustering pass *)
(* ================================================================== *)

Section Clustering.
Context {num : Type} `{JsNumber num}.
Variable env : Env num.
Variable config : Config num.

Local Open Scope string_scope.

(** ** Loading the active clusters *)

(** [JSON.parse(row.centroid || '[]')] *)
Definition centroid_json (col : option string) : Parsed num :=
  match col with
  | None | Some EmptyString => ParsedArray []
  | Some s => parse_numbers env s
  end.

(** [JSON.parse(row.top_sources || '[]')]; [None] when it throws.  The
    column is written by the program only, as an array of strings. *)
Definition top_sources_json (col : option string) : option (list string) :=
  match col with
  | None | Some EmptyString => Some []
  | Some s => parse_strings env s
  end.

(** The body of the loop over the selected rows: [None] when the row is
    skipped, because [JSON.parse] threw on one of its two columns or
    because the centroid is not a non-empty array. *)
Definition parse_cluster_row (row : ClusterRow num) : option (Cluster num) :=
  match centroid_json (row_centroid row) with
  | SyntaxError => None
  | parsed_centroid =>
      match top_sources_json (row_top_sources row) with
      | None => None
      | Some sources =>
          match parsed_centroid with
          | ParsedArray (x :: xs) =>
              Some {|
                cluster_id := row_cluster_id row;
                category := row_category row;
                severity := str_or (row_current_severity row) (row_severity row);
                centroid := x :: xs;
                count := row_count row;
                first_seen := row_first_seen row;
                last_seen := row_last_seen row;
                representative_feedback_id := row_representative_feedback_id row;
                representative_feedback := row_representative_feedback row;
                summary := str_or (row_summary row) "";
                suggested_action := str_or (row_suggested_action row) "";
                user_impact := str_or (row_user_impact row) "";
                priority_score := num_or (row_priority_score row) (jofZ 0);
                sentiment_score := num_or (row_sentiment_score row) (jdec 5 10);
                top_sources := sources;
                fix_status :=
                  Some (match row_fix_status row with Some s => s | None => open end);
                fix_deployed_date := row_fix_deployed_date row;
                fix_deployed_version := row_fix_deployed_version row;
                rollout_period_days :=
                  Some (num_or (row_rollout_period_days row) (jofZ 7));
                original_severity :=
                  Some (str_or (row_original_severity row) (row_severity row));
                current_severity :=
                  Some (str_or (row_current_severity row) (row_severity row));
                reports_before_fix := row_reports_before_fix row;
                reports_after_fix := row_reports_after_fix row;
                fix_notes := row_fix_notes row
              |}
          | _ => None
          end
      end
  end.

Definition lookbackMs : num :=
  (clusterLookbackDays config * jofZ 24 * jofZ 3600000)%js.

(** [SELECT * FROM clusters WHERE last_seen > ? ORDER BY last_seen DESC] *)
Definition select_active_clusters (db : DB num) : list (ClusterRow num) :=
  sort_desc (row_last_seen (num := num))
    (filter (fun r => (row_last_seen r >? now env - lookbackMs)%js)
            (clusters_tbl db)).

Fixpoint filter_map {A B : Type} (f : A -> option B) (l : list A) : list B :=
  match l with
  | [] => []
  | x :: l' =>
      match f x with
      | Some y => y :: filter_map f l'
      | None => filter_map f l'
      end
  end.

Definition load_clusters (db : DB num) : list (Cluster num) :=
  filter_map parse_cluster_row (select_active_clusters db).

(** ** Matching *)

(** [cluster.count === 1 && isUserSpecificFeedback(cluster.representative_feedback)] *)
Definition is_user_specific_cluster (cluster : Cluster num) : bool :=
  (count cluster === jofZ 1)%js
  && UserSpecific.isUserSpecificFeedback (representative_feedback cluster).

(** The first element that satisfies [p], with its position: the element
    at which a [for ... of] loop ending in [break] stops. *)
Fixpoint find_first {A : Type} (p : A -> bool) (l : list A) : option (nat * A) :=
  match l with
  | [] => None
  | x :: l' =>
      if p x then Some (O, x)
      else match find_first p l' with
           | Some (i, y) => Some (S i, y)
           | None => None
           end
  end.

(** The test of one cluster in the embedding tier. *)
Definition embedding_hit (embedding : list num) (cluster : Cluster num) : bool :=
  if is_user_specific_cluster cluster then false
  else if some_nonzero (centroid cluster)
  then (cosineSimilarity embedding (centroid cluster) >? similarityThreshold config)%js
  else false.

Definition embeddingMatch (embedding : list num) (clusters : list (Cluster num))
  : option (nat * Cluster num) :=
  if some_nonzero embedding then find_first (embedding_hit embedding) clusters
  else None.

(** (a) of the text tier: the key phrases of the two texts intersect. *)
Definition phrase_hit (feedbackLower : string) (cluster : Cluster num) : bool :=
  let clusterLower := Str.toLowerCase (representative_feedback cluster) in
  let feedbackPhrases := TextMatch.extractKeyPhrases feedbackLower in
  let clusterPhrases := TextMatch.extractKeyPhrases clusterLower in
  (0 <? List.length (TextMatch.common feedbackPhrases clusterPhrases))%nat.

(** (b) of the text tier: same category and severity, and a significant
    word in common. *)
Definition keyword_hit (classification : ClassificationResult)
    (feedbackLower : string) (cluster : Cluster num) : bool :=
  let clusterLower := Str.toLowerCase (representative_feedback cluster) in
  if String.eqb (category cluster) (cr_category classification)
     && String.eqb (severity cluster) (cr_severity classification)
  then
    let feedbackWords := TextMatch.significantWords feedbackLower in
    let clusterWords := TextMatch.significantWords clusterLower in
    (1 <=? List.length (TextMatch.common feedbackWords clusterWords))%nat
  else false.

(** The test of one cluster in the text tier. *)
Definition text_hit (classification : ClassificationResult)
    (feedbackLower : string) (cluster : Cluster num) : bool :=
  if is_user_specific_cluster cluster then false
  else if phrase_hit feedbackLower cluster then true
  else keyword_hit classification feedbackLower cluster.

Definition textMatch (content : string) (clusters : list (Cluster num))
  : option (nat * Cluster num) :=
  let classification := classifyFeedback env content in
  let feedbackLower := Str.toLowerCase content in
  find_first (text_hit classification feedbackLower) clusters.

(** [matchedCluster], with its position in [clusters]. *)
Definition findMatch (content : string) (embedding : list num)
    (clusters : list (Cluster num)) : option (nat * Cluster num) :=
  match embeddingMatch embedding clusters with
  | Some m => Some m
  | None => textMatch content clusters
  end.

(** ** Updating and creating clusters *)

(** [matchedCluster.centroid.map((val, i) => (val * (count - 1) + embedding[i]) / count)],
    applied when the two arrays have the same length. *)
Fixpoint running_mean (n : num) (centroid embedding : list num) : list num :=
  match centroid, embedding with
  | val :: centroid', e :: embedding' =>
      ((val * (n - jofZ 1) + e) / n)%js :: running_mean n centroid' embedding'
  | _, _ => []
  end.

(** The mutation of the matched cluster. *)
Definition addToCluster (feedback : Feedback num) (embedding : list num)
    (matchedCluster : Cluster num) : Cluster num :=
  let n := (count matchedCluster + jofZ 1)%js in
  set_matched matchedCluster n
    (jmax (last_seen matchedCluster) (timestamp feedback))
    (if Str.mem (source feedback) (top_sources matchedCluster)
     then top_sources matchedCluster
     else top_sources matchedCluster ++ [source feedback])
    (if (List.length embedding =? List.length (centroid matchedCluster))%nat
     then running_mean n (centroid matchedCluster) embedding
     else centroid matchedCluster).

Definition newCluster (clusterId : string) (classification : ClassificationResult)
    (feedback : Feedback num) (embedding : list num) : Cluster num :=
  {| cluster_id := clusterId;
     category := cr_category classification;
     severity := cr_severity classification;
     centroid := embedding;
     count := jofZ 1;
     first_seen := timestamp feedback;
     last_seen := timestamp feedback;
     representative_feedback_id := id feedback;
     representative_feedback := content feedback;
     summary := "";
     suggested_action := "";
     user_impact := "";
     priority_score := jofZ 0;
     sentiment_score := jdec 5 10;
     top_sources := [source feedback];
     fix_status := None;
     fix_deployed_date := None;
     fix_deployed_version := None;
     rollout_period_days := None;
     original_severity := None;
     current_severity := None;
     reports_before_fix := None;
     reports_after_fix := None;
     fix_notes := None |}.

(** The row that [INSERT INTO clusters (cluster_id, title, category,
    severity, centroid, count, first_seen, last_seen,
    representative_feedback_id, representative_feedback, top_sources)]
    creates; the other columns take their defaults. *)
Definition newClusterRow (clusterId title : string)
    (classification : ClassificationResult) (feedback : Feedback num)
    (embedding : list num) : ClusterRow num :=
  {| row_cluster_id := clusterId;
     row_title := title;
     row_representative_feedback_id := id feedback;
     row_representative_feedback := content feedback;
     row_count := jofZ 1;
     row_top_sources := Some (stringify_strings env [source feedback]);
     row_category := cr_category classification;
     row_severity := cr_severity classification;
     row_centroid := Some (stringify_numbers env embedding);
     row_first_seen := timestamp feedback;
     row_last_seen := timestamp feedback;
     row_summary := None;
     row_suggested_action := None;
     row_user_impact := None;
     row_priority_score := None;
     row_sentiment_score := None;
     row_fix_status := Some open;
     row_fix_deployed_date := None;
     row_fix_deployed_version := None;
     row_rollout_period_days := Some (jofZ 7);
     row_original_severity := None;
     row_current_severity := None;
     row_reports_before_fix := None;
     row_reports_after_fix := None;
     row_fix_notes := None |}.

(** [UPDATE clusters SET count = ?, last_seen = ?, top_sources = ?,
    centroid = ? WHERE cluster_id = ?] *)
Definition store_matched (c : Cluster num) (r : ClusterRow num) : ClusterRow num :=
  {| row_cluster_id := row_cluster_id r;
     row_title := row_title r;
     row_representative_feedback_id := row_representative_feedback_id r;
     row_representative_feedback := row_representative_feedback r;
     row_count := count c;
     row_top_sources := Some (stringify_strings env (top_sources c));
     row_category := row_category r;
     row_severity := row_severity r;
     row_centroid := Some (stringify_numbers env (centroid c));
     row_first_seen := row_first_seen r;
     row_last_seen := last_seen c;
     row_summary := row_summary r;
     row_suggested_action := row_suggested_action r;
     row_user_impact := row_user_impact r;
     row_priority_score := row_priority_score r;
     row_sentiment_score := row_sentiment_score r;
     row_fix_status := row_fix_status r;
     row_fix_deployed_date := row_fix_deployed_date r;
     row_fix_deployed_version := row_fix_deployed_version r;
     row_rollout_period_days := row_rollout_period_days r;
     row_original_severity := row_original_severity r;
     row_current_severity := row_current_severity r;
     row_reports_before_fix := row_reports_before_fix r;
     row_reports_after_fix := row_reports_after_fix r;
     row_fix_notes := row_fix_notes r |}.

(** [category.charAt(0).toUpperCase() + category.slice(1) + ' Issue'] *)
Definition issue_title (category : string) : string :=
  match category with
  | EmptyString => " Issue"
  | String c rest =>
      String (if Str.is_lower c then ascii_of_nat (Str.code c - 32) else c)
             (rest ++ " Issue")
  end.

(** Assignment to [clusters[i]]: the matched cluster is an element of the
    array [clusters], mutated in place. *)
Fixpoint set_nth {A : Type} (i : nat) (x : A) (l : list A) : list A :=
  match l, i with
  | [], _ => []
  | _ :: l', O => x :: l'
  | y :: l', S i' => y :: set_nth i' x l'
  end.

(** ** The loop over the batch *)

Record PassState := {
  clusters : list (Cluster num);    (* the working set *)
  db : DB num;
  processed : list string;          (* the Set [processed] *)
  uuids : nat                       (* identifiers drawn so far *)
}.

(** One iteration of [for (const feedback of feedbacks)];
    [alreadyClustered] is read from [cluster_members] once, before the loop. *)
Definition cluster_step (alreadyClustered : list string) (st : PassState)
    (feedback : Feedback num) : PassState :=
  if Str.mem (id feedback) (processed st) then st
  else if Str.mem (id feedback) alreadyClustered then
    {| clusters := clusters st; db := db st;
       processed := Str.set_add (id feedback) (processed st);
       uuids := uuids st |}
  else if UserSpecific.isUserSpecificFeedback (content feedback) then
    let classification := classifyFeedback env (content feedback) in
    let embedding := generateEmbedding env (content feedback) in
    let clusterId := randomUUID env (uuids st) in
    let title := cr_category classification ++ " - Individual Support" in
    {| clusters :=
         clusters st ++ [newCluster clusterId classification feedback embedding];
       db :=
         insert_member clusterId (id feedback)
           (insert_cluster_row
              (newClusterRow clusterId title classification feedback embedding)
              (db st));
       processed := Str.set_add (id feedback) (processed st);
       uuids := S (uuids st) |}
  else
    let embedding := generateEmbedding env (content feedback) in
    match findMatch (content feedback) embedding (clusters st) with
    | Some (i, matchedCluster) =>
        let c := addToCluster feedback embedding matchedCluster in
        let db1 :=
          if member_exists (cluster_id c) (id feedback) (db st) then db st
          else insert_member (cluster_id c) (id feedback) (db st) in
        {| clusters := set_nth i c (clusters st);
           db := update_cluster_row (cluster_id c) (store_matched c) db1;
           processed := Str.set_add (id feedback) (processed st);
           uuids := uuids st |}
    | None =>
        let classification := classifyFeedback env (content feedback) in
        let clusterId := randomUUID env (uuids st) in
        let title := issue_title (cr_category classification) in
        let db1 :=
          insert_cluster_row
            (newClusterRow clusterId title classification feedback embedding)
            (db st) in
        {| clusters :=
             clusters st ++ [newCluster clusterId classification feedback embedding];
           db :=
             if member_exists clusterId (id feedback) db1 then db1
             else insert_member clusterId (id feedback) db1;
           processed := Str.set_add (id feedback) (processed st);
           uuids := S (uuids st) |}
    end.

(** [clusterFeedbacksWithEmbeddings(env, feedbacks)]: the working set it
    returns, with the database and the number of identifiers drawn. *)
Definition clusterFeedbacksWithEmbeddings (db0 : DB num) (uuids0 : nat)
    (feedbacks : list (Feedback num)) : PassState :=
  let alreadyClustered := map snd (cluster_members db0) in
  fold_left (cluster_step alreadyClustered) feedbacks
    {| clusters := load_clusters db0; db := db0; processed := [];
       uuids := uuids0 |}.
End Clustering.

(* ================================================================== *)
(** * Priority score *)
(* ================================================================== *)

(** [Math.log10] is kept apart from the arithmetic of [JsNumber]: the
    primitive floats have no logarithm, and ECMAScript leaves the precision
    of [Math.log10] to the implementation. *)
Class JsMath (num : Type) {N : JsNumber num} := {
  jlog10 : num -> num
}.
Arguments JsMath num {N}.

#[export] Instance exact_math : JsMath R := {
  jlog10 := fun x => (ln x / ln 10)%R
}.

Section Priority.
Context {num : Type} `{JsMath num}.
Variable env : Env num.
Variable config : Config num.

Local Open Scope string_scope.

Definition effectiveSeverity (cluster : Cluster num) : string :=
  if status_is (fix_status cluster) fix_deployed
     && str_truthy (current_severity cluster)
  then str_or (current_severity cluster) ""
  else if status_is (fix_status cluster) failed
  then str_or (original_severity cluster) (severity cluster)
  else severity cluster.

(** [severityMap[effectiveSeverity] || 50], for a severity label that is
    not the name of a property of [Object.prototype] (the program writes
    P0, P1, P2 and P3 only). *)
Definition severityScore (sev : string) : num :=
  if String.eqb sev "P0" then jofZ 100
  else if String.eqb sev "P1" then jofZ 75
  else if String.eqb sev "P2" then jofZ 50
  else if String.eqb sev "P3" then jofZ 25
  else jofZ 50.

Definition frequencyScore (cluster : Cluster num) : num :=
  jmin (jofZ 100) (jlog10 (count cluster + jofZ 1) * jofZ 50)%js.

Definition recencyScore (cluster : Cluster num) : num :=
  let hoursSinceLastSeen := ((now env - last_seen cluster) / jofZ 3600000)%js in
  jmax (jofZ 0) (jofZ 100 - hoursSinceLastSeen * jofZ 2)%js.

Definition negativityScore (cluster : Cluster num) : num :=
  (jofZ 100 - sentiment_score cluster * jofZ 100)%js.

Definition calculatePriorityScore (cluster : Cluster num) : num :=
  (severityScore (effectiveSeverity cluster) * severityWeight config
   + frequencyScore cluster * frequencyWeight config
   + recencyScore cluster * recencyWeight config
   + negativityScore cluster * sentimentWeight config)%js.
End Priority.

(* ================================================================== *)
(** * The digest: fix lifecycle and assembly *)
(* ================================================================== *)

Section Digest.
Context {num : Type} `{JsNumber num}.
Variable env : Env num.
Variable config : Config num.

Local Open Scope string_scope.

Definition getPriorityLevel (score : num) : string :=
  if (score >=? threshold_p0 config)%js then "P0"
  else if (score >=? threshold_p1 config)%js then "P1"
  else if (score >=? threshold_p2 config)%js then "P2"
  else "P3".

(** ** Writes to the table [clusters] *)

Definition set_row_fix (st : option FixStatus) (cur : option string)
    (after : option num) (r : ClusterRow num) : ClusterRow num :=
  {| row_cluster_id := row_cluster_id r;
     row_title := row_title r;
     row_representative_feedback_id := row_representative_feedback_id r;
     row_representative_feedback := row_representative_feedback r;
     row_count := row_count r;
     row_top_sources := row_top_sources r;
     row_category := row_category r;
     row_severity := row_severity r;
     row_centroid := row_centroid r;
     row_first_seen := row_first_seen r;
     row_last_seen := row_last_seen r;
     row_summary := row_summary r;
     row_suggested_action := row_suggested_action r;
     row_user_impact := row_user_impact r;
     row_priority_score := row_priority_score r;
     row_sentiment_score := row_sentiment_score r;
     row_fix_status := st;
     row_fix_deployed_date := row_fix_deployed_date r;
     row_fix_deployed_version := row_fix_deployed_version r;
     row_rollout_period_days := row_rollout_period_days r;
     row_original_severity := row_original_severity r;
     row_current_severity := cur;
     row_reports_before_fix := row_reports_before_fix r;
     row_reports_after_fix := after;
     row_fix_notes := row_fix_notes r |}.

Definition set_row_digest (score : option num) (sm su ui : option string)
    (r : ClusterRow num) : ClusterRow num :=
  {| row_cluster_id := row_cluster_id r;
     row_title := row_title r;
     row_representative_feedback_id := row_representative_feedback_id r;
     row_representative_feedback := row_representative_feedback r;
     row_count := row_count r;
     row_top_sources := row_top_sources r;
     row_category := row_category r;
     row_severity := row_severity r;
     row_centroid := row_centroid r;
     row_first_seen := row_first_seen r;
     row_last_seen := row_last_seen r;
     row_summary := sm;
     row_suggested_action := su;
     row_user_impact := ui;
     row_priority_score := score;
     row_sentiment_score := row_sentiment_score r;
     row_fix_status := row_fix_status r;
     row_fix_deployed_date := row_fix_deployed_date r;
     row_fix_deployed_version := row_fix_deployed_version r;
     row_rollout_period_days := row_rollout_period_days r;
     row_original_severity := row_original_severity r;
     row_current_severity := row_current_severity r;
     row_reports_before_fix := row_reports_before_fix r;
     row_reports_after_fix := row_reports_after_fix r;
     row_fix_notes := row_fix_notes r |}.

(** ** Fix lifecycle *)

(** [cluster.fix_status === 'fix_deployed' && cluster.fix_deployed_date] *)
Definition under_rollout (cluster : Cluster num) : bool :=
  status_is (fix_status cluster) fix_deployed
  && match fix_deployed_date cluster with
     | Some d => truthy d
     | None => false
     end.

Definition daysSinceFix (cluster : Cluster num) : num :=
  ((now env - num_or (fix_deployed_date cluster) (jofZ 0)) / jofZ 86400000)%js.

Definition rolloutDays (cluster : Cluster num) : num :=
  num_or (rollout_period_days cluster) (jofZ 7).

Definition avgBeforeFix (cluster : Cluster num) : num :=
  (num_or (reports_before_fix cluster) (count cluster) / jofZ 7)%js.

Definition avgAfterFix (cluster : Cluster num) : num :=
  (num_or (reports_after_fix cluster) (jofZ 0) / rolloutDays cluster)%js.

(** The body of the loop "Evaluate fix status for clusters with deployed
    fixes": the cluster after the iteration, and the database. *)
Definition evaluateFix (cluster : Cluster num) (d : DB num)
  : Cluster num * DB num :=
  if under_rollout cluster then
    if (daysSinceFix cluster >? rolloutDays cluster)%js then
      if (avgAfterFix cluster <? avgBeforeFix cluster * jdec 2 10)%js then
        (set_fix cluster (Some resolved) (current_severity cluster)
                 (reports_after_fix cluster),
         update_cluster_row (cluster_id cluster)
           (fun r => set_row_fix (Some resolved) (row_current_severity r)
                                 (row_reports_after_fix r) r) d)
      else
        let cur := Some (str_or (original_severity cluster) (severity cluster)) in
        (set_fix cluster (Some failed) cur (reports_after_fix cluster),
         update_cluster_row (cluster_id cluster)
           (fun r => set_row_fix (Some failed) cur (row_reports_after_fix r) r) d)
    else
      let newReportsAfter :=
        (num_or (reports_after_fix cluster) (jofZ 0) + jofZ 1)%js in
      (set_fix cluster (fix_status cluster) (current_severity cluster)
               (Some newReportsAfter),
       update_cluster_row (cluster_id cluster)
         (fun r => set_row_fix (row_fix_status r) (row_current_severity r)
                               (Some newReportsAfter) r) d)
  else (cluster, d).

(** [for (const cluster of clusters) { ... }] for a body that mutates the
    cluster and writes to the database. *)
Fixpoint for_each (body : Cluster num -> DB num -> Cluster num * DB num)
    (l : list (Cluster num)) (d : DB num) : list (Cluster num) * DB num :=
  match l with
  | [] => ([], d)
  | c :: l' =>
      let (c', d') := body c d in
      let (l'', d'') := for_each body l' d' in
      (c' :: l'', d'')
  end.

Definition evaluateFixes := for_each evaluateFix.

(** ** Assembly *)

Record PriorityIssue := {
  pi_priority_score : num;
  pi_priority_level : string;
  pi_cluster : Cluster num
}.

Definition toIssue (cluster : Cluster num) : PriorityIssue :=
  {| pi_priority_score := priority_score cluster;
     pi_priority_level := getPriorityLevel (priority_score cluster);
     pi_cluster := cluster |}.

Definition isPositiveFeedback (cluster : Cluster num) : bool :=
  let feedback := Str.toLowerCase (representative_feedback cluster) in
  Str.includes feedback "great" || Str.includes feedback "love"
  || Str.includes feedback "thanks" || Str.includes feedback "appreciated"
  || Str.includes feedback "good work" || Str.includes feedback "excellent"
  || Str.includes feedback "improved significantly".

Definition by_priority (l : list (Cluster num)) : list (Cluster num) :=
  sort_desc (priority_score (num := num)) l.

(** The five lists built from the scored clusters. *)
Record Buckets := {
  newTopIssues : list PriorityIssue;
  monitoringIssues : list PriorityIssue;
  failedFixes : list PriorityIssue;
  individualSupport : list PriorityIssue;
  positiveSupport : list PriorityIssue
}.

Definition assembleBuckets (scored : list (Cluster num)) : Buckets :=
  let clusters := by_priority scored in
  let generalClusters := filter (fun c => (count c >? jofZ 1)%js) clusters in
  let allSingleItemClusters := filter (fun c => (count c === jofZ 1)%js) clusters in
  let individualSupportClusters :=
    filter (fun c => negb (isPositiveFeedback c)) allSingleItemClusters in
  let positiveFeedbackClusters :=
    filter (fun c => isPositiveFeedback c) allSingleItemClusters in
  let newIssues :=
    filter (fun c => match fix_status c with
                     | None => true
                     | Some s => FixStatus_eqb s open
                     end) generalClusters in
  let fixDeployed :=
    filter (fun c => status_is (fix_status c) fix_deployed) generalClusters in
  let fixFailed :=
    filter (fun c => status_is (fix_status c) failed) generalClusters in
  {| newTopIssues := map toIssue (firstn (maxIssues config) (by_priority newIssues));
     monitoringIssues := map toIssue (by_priority fixDeployed);
     failedFixes := map toIssue (by_priority fixFailed);
     individualSupport :=
       map toIssue (firstn 10 (by_priority individualSupportClusters));
     positiveSupport := map toIssue (by_priority positiveFeedbackClusters) |}.

Record Digest := {
  top_issues : list PriorityIssue;
  individual_support : list PriorityIssue;
  positive_feedback : list PriorityIssue
}.

Definition in_issues (cid : string) (l : list PriorityIssue) : bool :=
  existsb (fun t => String.eqb (cluster_id (pi_cluster t)) cid) l.

Definition assembleDigest (scored : list (Cluster num)) : Digest :=
  let bk := assembleBuckets scored in
  let topIssues := newTopIssues bk in
  {| top_issues :=
       topIssues
       ++ filter (fun m => negb (in_issues (cluster_id (pi_cluster m)) topIssues))
                 (monitoringIssues bk)
       ++ filter (fun f => negb (in_issues (cluster_id (pi_cluster f)) topIssues))
                 (failedFixes bk);
     individual_support := individualSupport bk;
     positive_feedback := positiveSupport bk |}.
End Digest.

Arguments PriorityIssue num : clear implicits.
Arguments Buckets num : clear implicits.
Arguments Digest num : clear implicits.

Section MorningDigest.
Context {num : Type} `{JsMath num}.
Variable env : Env num.
Variable config : Config num.

(** "Calculate priority scores for clusters" *)
Definition scoreCluster (cluster : Cluster num) (d : DB num)
  : Cluster num * DB num :=
  let p := calculatePriorityScore env config cluster in
  (set_priority_score cluster p,
   update_cluster_row (cluster_id cluster)
     (fun r => set_row_digest (Some p) (row_summary r)
                 (row_suggested_action r) (row_user_impact r) r) d).

(** "Summarize clusters" *)
Definition summarize (cluster : Cluster num) (d : DB num)
  : Cluster num * DB num :=
  let s := summarizeCluster env cluster in
  (set_summary cluster s,
   update_cluster_row (cluster_id cluster)
     (fun r => set_row_digest (row_priority_score r) (Some (sm_summary s))
                 (Some (sm_suggested_action s)) (Some (sm_user_impact s)) r) d).

(** [SELECT * FROM feedback WHERE processed = 0 AND instant_alert_sent = 0
    ORDER BY timestamp DESC] *)
Definition select_unprocessed (d : DB num) : list (Feedback num) :=
  sort_desc (timestamp (num := num))
    (map (fb (num := num))
       (filter (fun r => negb (fb_processed r) && negb (fb_instant_alert_sent r))
               (feedback_tbl d))).

(** [UPDATE feedback SET processed = 1 WHERE processed = 0 AND
    instant_alert_sent = 0] *)
Definition mark_processed (d : DB num) : DB num :=
  {| feedback_tbl :=
       map (fun r =>
              if negb (fb_processed r) && negb (fb_instant_alert_sent r)
              then {| fb := fb r; fb_processed := true;
                      fb_instant_alert_sent := fb_instant_alert_sent r |}
              else r) (feedback_tbl d);
     clusters_tbl := clusters_tbl d;
     cluster_members := cluster_members d |}.

Record DigestRun := {
  run_digest : option (Digest num);   (* [None]: nothing to process *)
  run_clusters : list (Cluster num);  (* the working set, scored *)
  run_db : DB num;
  run_uuids : nat
}.

(** [generateMorningDigest(env)], without the formatting of the message
    and the row written to [digests]. *)
Definition generateMorningDigest (d0 : DB num) (uuids0 : nat) : DigestRun :=
  match select_unprocessed d0 with
  | [] =>
      {| run_digest := None; run_clusters := []; run_db := d0;
         run_uuids := uuids0 |}
  | feedbacks =>
      let st := clusterFeedbacksWithEmbeddings env config d0 uuids0 feedbacks in
      let (cs1, d1) := evaluateFixes env (clusters st) (db st) in
      let (cs2, d2) := for_each scoreCluster cs1 d1 in
      let (cs3, d3) := for_each summarize cs2 d2 in
      {| run_digest := Some (assembleDigest config cs3);
         run_clusters := cs3;
         run_db := if sendTelegramMessage env then mark_processed d3 else d3;
         run_uuids := uuids st |}
  end.
End MorningDigest.

(* ================================================================== *)
(** * Vocabulary of the specification, and sample data *)
(* ================================================================== *)

(** The mathematical notions the specification compares the program with,
    over the real numbers. *)
Module Spec.
(** dot(a, b) *)
Fixpoint dot (a b : list R) : R :=
  match a, b with
  | x :: a', y :: b' => (x * y + dot a' b')%R
  | _, _ => 0%R
  end.

(** The Euclidean norm. *)
Definition norm (a : list R) : R := R_sqrt.sqrt (dot a a).
End Spec.

(** A one-dimensional embedding whose only component is [2^-600]: not zero,
    but with a square below the smallest positive binary64 value. *)
Definition tiny_embedding : list float := [0x1p-600%float].

Module SpecMean.
(** The sum of the [i]-th components of the vectors [es]. *)
Definition sum_at (i : nat) (es : list (list R)) : R :=
  fold_right Rplus 0%R (map (fun e => nth i e 0%R) es).

(** The arithmetic mean of the vectors [es], all of dimension [d]. *)
Definition mean (d : nat) (es : list (list R)) : list R :=
  map (fun i => (sum_at i es / INR (List.length es))%R) (seq 0 d).
End SpecMean.

Section FoldMembers.
Context {num : Type} `{JsNumber num}.

(** The cluster that the pass builds from a first member and the members
    merged into it afterwards, each with its embedding: [newCluster] for
    the first, [addToCluster] for each of the others in turn. *)
Definition foldMembers (clusterId : string) (classification : ClassificationResult)
    (first : Feedback num * list num) (rest : list (Feedback num * list num))
  : Cluster num :=
  fold_left (fun c fe => addToCluster (fst fe) (snd fe) c) rest
    (newCluster clusterId classification (fst first) (snd first)).
End FoldMembers.

(** ** Sample data *)

Section SampleData.
Local Open Scope string_scope.

Definition sample_classification : ClassificationResult :=
  {| cr_severity := "P2"; cr_category := "bug" |}.

Definition sample_feedback : Feedback R :=
  {| id := "f1"; content := "export fails"; source := "email";
     timestamp := 0%R |}.

(** The three patterns of rule 1 that start with [\bI]. *)
Definition first_person_pattern : Regex.regex :=
  nth 1 UserSpecific.userSpecificPatterns Regex.Empty.
Definition first_person_access_pattern : Regex.regex :=
  nth 6 UserSpecific.userSpecificPatterns Regex.Empty.
Definition first_person_billed_pattern : Regex.regex :=
  nth 10 UserSpecific.userSpecificPatterns Regex.Empty.

(** The [n]-th identifier of the sample generator: [u], [u1], [u11], ... *)
Definition sample_uuid (n : nat) : string :=
  String "u" (string_of_list_ascii (repeat "1"%char n)).

(** A binary64 environment: the clock reads day 100, every text is classified
    as a P2 bug and embedded as (1, 0). *)
Definition sample_env64 : Env float :=
  {| now := jofZ 8640000000;
     classifyFeedback := fun _ => sample_classification;
     generateEmbedding := fun _ => [1%float; 0%float];
     summarizeCluster :=
       fun _ => {| sm_summary := ""; sm_suggested_action := "";
                   sm_user_impact := "" |};
     randomUUID := sample_uuid;
     parse_numbers :=
       fun s => if String.eqb s "[1,0]" then ParsedArray [1%float; 0%float]
                else if String.eqb s "{}" then NotAnArray
                else SyntaxError;
     parse_strings := fun s => if String.eqb s "oops" then None else Some ["email"];
     stringify_numbers := fun _ => "[1,0]";
     stringify_strings := fun _ => "[]";
     sendTelegramMessage := true |}.

Definition feedback64 (fid text : string) (day : Z) : Feedback float :=
  {| id := fid; content := text; source := "email";
     timestamp := jofZ (day * 86400000) |}.

(** A singleton cluster whose text is user-specific, and a cluster of two
    crash reports. *)
Definition user_cluster : Cluster float :=
  newCluster "c-user" sample_classification
    (feedback64 "f-user" "My account shows the wrong plan" 99) [1%float; 0%float].

Definition crash_cluster : Cluster float :=
  addToCluster (feedback64 "f3" "crash when opening settings" 99) [1%float; 0%float]
    (newCluster "c-crash" sample_classification
       (feedback64 "f2" "App crashes on resume" 98) [1%float; 0%float]).
End SampleData.

(** ** The criterion of the specification for a fix that worked *)

Section SpecLifecycle.
Context {num : Type} `{JsNumber num}.

(** "resolved iff reports_after_fix / rollout_period_days <
    0.2 * (reports_before_fix / 7)", read on the three fields themselves; a
    missing field makes the quotient undefined and the comparison false. *)
Definition spec_fix_worked (cluster : Cluster num) : bool :=
  match reports_after_fix cluster, rollout_period_days cluster,
        reports_before_fix cluster with
  | Some after, Some rollout, Some before =>
      (after / rollout <? jdec 2 10 * (before / jofZ 7))%js
  | _, _, _ => false
  end.
End SpecLifecycle.

Section SampleLifecycle.
Local Open Scope string_scope.

(** A cluster of 50 reports whose fix was deployed on day 90 (rollout: 7
    days), with 2 reports since, seen from [sample_env64] on day 100;
    [before] is the column [reports_before_fix]. *)
Definition deployed_cluster (before : option float) : Cluster float :=
  {| cluster_id := "c-fix"; category := "crash"; severity := "P2";
     centroid := [1%float; 0%float]; count := jofZ 50;
     first_seen := jofZ (80 * 86400000); last_seen := jofZ (99 * 86400000);
     representative_feedback_id := "f9";
     representative_feedback := "App crashes on resume";
     summary := ""; suggested_action := ""; user_impact := "";
     priority_score := jofZ 0; sentiment_score := jdec 5 10;
     top_sources := ["email"];
     fix_status := Some fix_deployed;
     fix_deployed_date := Some (jofZ (90 * 86400000));
     fix_deployed_version := None;
     rollout_period_days := Some (jofZ 7);
     original_severity := Some "P0";
     current_severity := Some "P2";
     reports_before_fix := before;
     reports_after_fix := Some (jofZ 2);
     fix_notes := None |}.

Definition empty_db64 : DB float :=
  {| feedback_tbl := []; clusters_tbl := []; cluster_members := [] |}.

End SampleLifecycle.

(** ** Memberships *)

Section Memberships.
Context {num : Type} `{JsNumber num}.

(** The column [feedback_id] of [cluster_members]. *)
Definition member_ids (d : DB num) : list string := map snd (cluster_members d).

(** What a step of the pass keeps true: the items seen so far, and those
    clustered before the pass, all have a membership. *)
Definition recorded (ac : list string) (st : PassState) : Prop :=
  (forall x, In x ac -> In x (member_ids (db st)))
  /\ (forall x, In x (processed st) -> In x (member_ids (db st))).
End Memberships.

Section SampleMembers.
Local Open Scope string_scope.

(** A database in which the item [f2] is a member of the cluster [c-crash]. *)
Definition recorded_db64 : DB float :=
  {| feedback_tbl := []; clusters_tbl := [];
     cluster_members := [("c-crash", "f2")] |}.
End SampleMembers.

(** ** Clusters that differ in one attribute *)

Section OneAttribute.
Context {num : Type} `{JsNumber num}.

Definition with_severity (c : Cluster num) (s : string) : Cluster num :=
  {| cluster_id := cluster_id c; category := category c;
     severity := s; centroid := centroid c; count := count c;
     first_seen := first_seen c; last_seen := last_seen c;
     representative_feedback_id := representative_feedback_id c;
     representative_feedback := representative_feedback c;
     summary := summary c; suggested_action := suggested_action c;
     user_impact := user_impact c; priority_score := priority_score c;
     sentiment_score := sentiment_score c; top_sources := top_sources c;
     fix_status := fix_status c; fix_deployed_date := fix_deployed_date c;
     fix_deployed_version := fix_deployed_version c;
     rollout_period_days := rollout_period_days c;
     original_severity := original_severity c;
     current_severity := current_severity c;
     reports_before_fix := reports_before_fix c;
     reports_after_fix := reports_after_fix c; fix_notes := fix_notes c |}.

Definition with_count (c : Cluster num) (n : num) : Cluster num :=
  set_matched c n (last_seen c) (top_sources c) (centroid c).
End OneAttribute.

Section SampleDigest.
Local Open Scope string_scope.

(** A cluster with a single member whose fix is resolved, and the same with
    a text of thanks. *)
Definition resolved_singleton (text : string) : Cluster float :=
  {| cluster_id := "c-done"; category := "bug"; severity := "P2";
     centroid := [1%float; 0%float]; count := jofZ 1;
     first_seen := jofZ (80 * 86400000); last_seen := jofZ (99 * 86400000);
     representative_feedback_id := "f7";
     representative_feedback := text;
     summary := ""; suggested_action := ""; user_impact := "";
     priority_score := jofZ 40; sentiment_score := jdec 5 10;
     top_sources := ["email"];
     fix_status := Some resolved;
     fix_deployed_date := Some (jofZ (90 * 86400000));
     fix_deployed_version := None;
     rollout_period_days := Some (jofZ 7);
     original_severity := Some "P2";
     current_severity := Some "P3";
     reports_before_fix := Some (jofZ 1);
     reports_after_fix := Some (jofZ 0);
     fix_notes := None |}.

(** A cluster with a single member whose fix was deployed on day 90, with no
    report since. *)
Definition deployed_singleton : Cluster float :=
  {| cluster_id := "c-one"; category := "bug"; severity := "P2";
     centroid := [1%float; 0%float]; count := jofZ 1;
     first_seen := jofZ (89 * 86400000); last_seen := jofZ (99 * 86400000);
     representative_feedback_id := "f8";
     representative_feedback := "Export button does nothing";
     summary := ""; suggested_action := ""; user_impact := "";
     priority_score := jofZ 40; sentiment_score := jdec 5 10;
     top_sources := ["email"];
     fix_status := Some fix_deployed;
     fix_deployed_date := Some (jofZ (90 * 86400000));
     fix_deployed_version := None;
     rollout_period_days := Some (jofZ 7);
     original_severity := Some "P2";
     current_severity := Some "P3";
     reports_before_fix := Some (jofZ 1);
     reports_after_fix := Some (jofZ 0);
     fix_notes := None |}.
End SampleDigest.

Section SampleExact.
Local Open Scope string_scope.

(** An environment and a cluster over the real numbers. *)
Definition sample_envR : Env R :=
  {| now := 8640000000%R;
     classifyFeedback := fun _ => sample_classification;
     generateEmbedding := fun _ => [1%R; 0%R];
     summarizeCluster :=
       fun _ => {| sm_summary := ""; sm_suggested_action := "";
                   sm_user_impact := "" |};
     randomUUID := sample_uuid;
     parse_numbers := fun _ => SyntaxError;
     parse_strings := fun _ => None;
     stringify_numbers := fun _ => "[1,0]";
     stringify_strings := fun _ => "[]";
     sendTelegramMessage := true |}.

Definition sample_clusterR : Cluster R :=
  newCluster "c1" sample_classification sample_feedback [1%R; 0%R].
End SampleExact.

(** ** A row left out of the working set *)

Section LeftOutVocabulary.
Context {num : Type} `{JsNumber num}.
Variable row : ClusterRow num.

(** The row is in the table, as it was, and is the only one with its key. *)
Definition untouched (d : DB num) : Prop :=
  In row (clusters_tbl d)
  /\ (forall r, In r (clusters_tbl d) ->
                row_cluster_id r = row_cluster_id row -> r = row).

(** No cluster of the working set has the key of the row. *)
Definition absent (cs : list (Cluster num)) : Prop :=
  forall c, In c cs -> cluster_id c <> row_cluster_id row.

(** The pass does not load the row: the body of the loading loop skips it,
    or the [SELECT] leaves it out as last seen before the lookback window. *)
Definition not_loaded (env : Env num) (config : Config num) : Prop :=
  parse_cluster_row env row = None
  \/ (row_last_seen row >? now env - lookbackMs config)%js = false.
End LeftOutVocabulary.

Section SampleLeftOut.
Local Open Scope string_scope.

(** A row whose centroid column is not JSON, in a table of its own, with one
    item waiting for the digest. *)
Definition bad_row : ClusterRow R :=
  {| row_cluster_id := "c-bad";
     row_title := "Bug Issue";
     row_representative_feedback_id := "f0";
     row_representative_feedback := "export fails";
     row_count := 3%R;
     row_top_sources := None;
     row_category := "bug";
     row_severity := "P2";
     row_centroid := Some "oops";
     row_first_seen := 0%R;
     row_last_seen := 8640000000%R;
     row_summary := None;
     row_suggested_action := None;
     row_user_impact := None;
     row_priority_score := None;
     row_sentiment_score := None;
     row_fix_status := Some fix_deployed;
     row_fix_deployed_date := Some 8600000000%R;
     row_fix_deployed_version := None;
     row_rollout_period_days := Some 7%R;
     row_original_severity := Some "P2";
     row_current_severity := Some "P3";
     row_reports_before_fix := Some 3%R;
     row_reports_after_fix := Some 0%R;
     row_fix_notes := None |}.

Definition bad_db : DB R :=
  {| feedback_tbl :=
       [{| fb := sample_feedback; fb_processed := false;
           fb_instant_alert_sent := false |}];
     clusters_tbl := [bad_row];
     cluster_members := [] |}.
End SampleLeftOut.

Section SampleBoundary.
Local Open Scope string_scope.

(** A cluster whose fix was deployed 10 days ago, with 5 reports in the week
    before the fix and 1 report in the 7 days of the rollout. *)
Definition boundary_cluster : Cluster float :=
  {| cluster_id := "c-edge"; category := "crash"; severity := "P2";
     centroid := [1%float; 0%float]; count := jofZ 5;
     first_seen := jofZ (80 * 86400000); last_seen := jofZ (99 * 86400000);
     representative_feedback_id := "f5";
     representative_feedback := "App crashes on resume";
     summary := ""; suggested_action := ""; user_impact := "";
     priority_score := jofZ 0; sentiment_score := jdec 5 10;
     top_sources := ["email"];
     fix_status := Some fix_deployed;
     fix_deployed_date := Some (jofZ (90 * 86400000));
     fix_deployed_version := None;
     rollout_period_days := Some (jofZ 7);
     original_severity := Some "P0";
     current_severity := Some "P2";
     reports_before_fix := Some (jofZ 5);
     reports_after_fix := Some (jofZ 1);
     fix_notes := None |}.
End SampleBoundary.

(* ================================================================== *)
(** * The rest of the program: messages, routes, triage, fix marking *)
(* ================================================================== *)

(** ** Escaping of the messages *)

Module Html.
(** [s.replace(/c/g, rep)] for a pattern of one character. *)
Fixpoint replace_char (c : ascii) (rep : string) (s : string) : string :=
  match s with
  | EmptyString => EmptyString
  | String x s' =>
      if Ascii.eqb x c then (rep ++ replace_char c rep s')%string
      else String x (replace_char c rep s')
  end.

Definition quote : ascii := "034"%char.        (* the double quote *)
Definition apostrophe : ascii := "039"%char.

(** [escapeHtml] of [formatInstantAlert] and [formatMorningDigest]: five
    replacements, the ampersand first. *)
Definition escapeHtml (text : string) : string :=
  replace_char apostrophe "&#39;"
    (replace_char quote "&quot;"
       (replace_char ">" "&gt;"
          (replace_char "<" "&lt;"
             (replace_char "&" "&amp;" text)))).
End Html.

(** ** Truncation of a message for Telegram *)

Module Telegram.
Definition MAX_MESSAGE_LENGTH : nat := 4096.

(** [s.lastIndexOf(pat)]: the last position at which [pat] starts, [-1] when
    there is none. *)
Fixpoint last_index (pat s : list ascii) (i found : Z) : Z :=
  let found' := if Str.starts_with pat s then i else found in
  match s with
  | [] => found'
  | _ :: s' => last_index pat s' (i + 1)%Z found'
  end.

Definition lastIndexOf (s pat : string) : Z :=
  last_index (Str.chars pat) (Str.chars s) 0%Z (-1)%Z.

(** [s.substring(start)]: a negative [start] counts as 0. *)
Definition substring_from (start : Z) (s : string) : string :=
  Str.of_chars (skipn (Z.to_nat (Z.max 0 start)) (Str.chars s)).

(** [s.substring(0, n)] *)
Definition substring_to (n : nat) (s : string) : string :=
  Str.of_chars (firstn n (Str.chars s)).

Definition truncation_note : string :=
  String "010" (String "010"
    ("... (message truncated due to length limit)"
       ++ String "010" (String "010" EmptyString)))%string.

(** [messageToSend] of [sendTelegramMessage]. *)
Definition messageToSend (message : string) : string :=
  if (MAX_MESSAGE_LENGTH <? String.length message)%nat then
    let truncatePoint := (MAX_MESSAGE_LENGTH - 200)%nat in
    (substring_to truncatePoint message ++ truncation_note
     ++ substring_from (lastIndexOf message "*Summary:*") message)%string
  else message.
End Telegram.

(** ** Routes *)

Module Router.
Inductive Route : Type :=
| Preflight          (* OPTIONS: the CORS headers *)
| PostFeedback
| Seed
| Run
| GetDigest
| TelegramTest
| TelegramDebug
| MarkFixed (clusterId : string)
| Reset
| ViewDigest
| Index
| NotFound.

(** [s.split('/')] *)
Fixpoint split_on (c : ascii) (s : list ascii) (cur : list ascii)
  : list (list ascii) :=
  match s with
  | [] => [rev cur]
  | x :: s' =>
      if Ascii.eqb x c then rev cur :: split_on c s' []
      else split_on c s' (x :: cur)
  end.

Definition split_slash (s : string) : list string :=
  map Str.of_chars (split_on "/" (Str.chars s) []).

Definition startsWith (s p : string) : bool :=
  Str.starts_with (Str.chars p) (Str.chars s).

Definition endsWith (s p : string) : bool :=
  Str.starts_with (rev (Str.chars p)) (rev (Str.chars s)).

(** The dispatch of [fetch] on the method and the path of the request. *)
Definition route (method path : string) : Route :=
  if String.eqb method "OPTIONS" then Preflight
  else if String.eqb path "/feedback" && String.eqb method "POST" then PostFeedback
  else if String.eqb path "/seed" && String.eqb method "POST" then Seed
  else if String.eqb path "/run" && String.eqb method "POST" then Run
  else if String.eqb path "/digest" && String.eqb method "GET" then GetDigest
  else if String.eqb path "/telegram/test" && String.eqb method "POST" then TelegramTest
  else if String.eqb path "/telegram/debug" && String.eqb method "GET" then TelegramDebug
  else if startsWith path "/clusters/" && endsWith path "/mark-fixed"
          && String.eqb method "POST"
  then MarkFixed (nth 2 (split_slash path) EmptyString)
  else if String.eqb path "/reset" && String.eqb method "POST" then Reset
  else if String.eqb path "/view" && String.eqb method "GET" then ViewDigest
  else if String.eqb path "/" && String.eqb method "GET" then Index
  else NotFound.
End Router.

(** ** Vocabulary for the escaping and the routes *)

Section MessageVocabulary.
Import Html.
Local Open Scope string_scope.

(** The entity that replaces a character, if any. *)
Definition entity (c : ascii) : option string :=
  if Ascii.eqb c "&" then Some "&amp;"
  else if Ascii.eqb c "<" then Some "&lt;"
  else if Ascii.eqb c ">" then Some "&gt;"
  else if Ascii.eqb c quote then Some "&quot;"
  else if Ascii.eqb c apostrophe then Some "&#39;"
  else None.

(** Escaping in one pass over the text. *)
Fixpoint escape_each (s : string) : string :=
  match s with
  | EmptyString => EmptyString
  | String c s' =>
      match entity c with
      | Some e => e ++ escape_each s'
      | None => String c (escape_each s')
      end
  end.

(** A decoder of the five entities. *)
Fixpoint unescape (s : string) : string :=
  match s with
  | String "&" (String "a" (String "m" (String "p" (String ";" r)))) =>
      String "&" (unescape r)
  | String "&" (String "l" (String "t" (String ";" r))) => String "<" (unescape r)
  | String "&" (String "g" (String "t" (String ";" r))) => String ">" (unescape r)
  | String "&" (String "q" (String "u" (String "o" (String "t" (String ";" r))))) =>
      String quote (unescape r)
  | String "&" (String "#" (String "3" (String "9" (String ";" r)))) =>
      String apostrophe (unescape r)
  | String c r => String c (unescape r)
  | EmptyString => EmptyString
  end.

(** The characters that open or close a tag or an attribute. *)
Definition special (c : ascii) : bool :=
  Ascii.eqb c "<" || Ascii.eqb c ">" || Ascii.eqb c quote || Ascii.eqb c apostrophe.

Definition no_slash (s : string) : Prop :=
  forallb (fun c => negb (Ascii.eqb c "/")) (Str.chars s) = true.

(** A message of 4097 letters. *)
Definition long_message : string := Str.of_chars (repeat "a"%char 4097).
End MessageVocabulary.

(** ** Triage *)

Module Triage.
Local Open Scope string_scope.

(** [config.p0Keywords] *)
Definition p0Keywords : list string := [
  "crash"; "won't open"; "stuck on launch"; "app broken"; "not working";
  "completely broken";
  "can't login"; "locked out"; "otp not working"; "account locked";
  "cannot access"; "login failed";
  "payment failed"; "charged twice"; "refund"; "subscription broken";
  "billing error"; "payment error";
  "can't pay"; "payment not working"; "transaction failed";
  "data loss"; "deleted"; "missing data"; "security breach"; "hacked";
  "pii leak"; "data breach";
  "privacy issue"; "unauthorized access";
  "production down"; "all users affected"; "complete outage"; "service down";
  "system down"
].

Definition checkP0Keywords (content : string) : bool :=
  let lowerContent := Str.toLowerCase content in
  let matchedKeywords :=
    filter (fun keyword => Str.includes lowerContent (Str.toLowerCase keyword))
           p0Keywords in
  (0 <? List.length matchedKeywords)%nat.

(** The rule-based pre-classification of [classifyFeedback]:
    ([quickCategory], [quickSeverity]). *)
Definition quickClassify (content : string) : string * string :=
  let lowerContent := Str.toLowerCase content in
  let has := Str.includes lowerContent in
  if has "crash" || has "won't open" || has "stuck" then ("crash", "P0")
  else if has "login" || has "sign in" || has "otp" then
    ("login", if has "critical" || has "urgent" then "P0" else "P1")
  else if has "payment" || has "billing" || has "charged" || has "subscription"
  then ("payment", "P1")
  else if has "slow" || has "lag" || has "performance" then ("performance", "P2")
  else if has "dark mode" || has "ui" || has "ux" || has "navigation" then ("ui", "P3")
  else if has "feature request" || has "would love" || has "add"
  then ("feature_request", "P3")
  else if has "error" || has "bug" || has "broken" then ("bug", "P2")
  else if has "rate limit" || has "429" then ("performance", "P2")
  else if has "docs" || has "documentation" then ("other", "P3")
  else ("other", "P2").

(** [s.substring(0, n)] *)
Definition prefix (n : nat) (s : string) : string :=
  Str.of_chars (firstn n (Str.chars s)).
End Triage.

Section Classification.
Context {num : Type} `{JsNumber num}.
Local Open Scope string_scope.

(** [ClassificationResult], with all its fields. *)
Record Classification := {
  cl_severity : string;
  cl_category : string;
  cl_confidence : num;
  cl_one_line_summary : string;
  cl_reasoning : string
}.

(** What the call of the model gives to [classifyFeedback]: nothing usable
    (the call or [JSON.parse] throws, or the reply holds no [{...}]), or a
    JSON object.  Of the object the program reads four fields: three
    strings, absent when the field is missing, [null] or empty, and
    [parseFloat] of the confidence, absent when that is NaN; it prints the
    category and the severity as they are in the reasoning. *)
Inductive AiReply : Type :=
| AiNothing
| AiJson (severity category : option string) (confidence : option num)
         (one_line_summary : option string)
         (printed_category printed_severity : string).

Definition classify (reply : AiReply) (content : string) : Classification :=
  let (quickCategory, quickSeverity) := Triage.quickClassify content in
  match reply with
  | AiJson severity category confidence one_line_summary pc ps =>
      {| cl_severity := str_or severity quickSeverity;
         cl_category := str_or category quickCategory;
         cl_confidence :=
           jmax (jofZ 0) (jmin (jofZ 1) (num_or confidence (jdec 8 10)));
         cl_one_line_summary := str_or one_line_summary (Triage.prefix 100 content);
         cl_reasoning := "AI: " ++ pc ++ " / " ++ ps |}
  | AiNothing =>
      {| cl_severity := quickSeverity;
         cl_category := quickCategory;
         cl_confidence := jdec 7 10;
         cl_one_line_summary := Triage.prefix 100 content;
         cl_reasoning := "Rule-based: " ++ quickCategory |}
  end.

(** What [triageFeedback] decides and writes to the row of the feedback:
    [classification_severity] and [classification_confidence]. *)
Record TriageResult := {
  instant_alert : bool;
  classification_severity : string;
  classification_confidence : num
}.

Definition triageFeedback (reply : AiReply) (content : string) : TriageResult :=
  if Triage.checkP0Keywords content then
    {| instant_alert := true; classification_severity := "P0";
       classification_confidence := jofZ 1 |}
  else
    let classification := classify reply content in
    {| instant_alert :=
         String.eqb (cl_severity classification) "P0"
         || (String.eqb (cl_severity classification) "P1"
             && (cl_confidence classification >=? jdec 7 10)%js);
       classification_severity := cl_severity classification;
       classification_confidence := cl_confidence classification |}.

(** ** Embeddings *)

Fixpoint zeros (n : nat) : list num :=
  match n with
  | O => []
  | S n' => jofZ 0 :: zeros n'
  end.

(** [generateEmbedding]: [reply] is [response.data] when the call of the
    model returns an array of arrays, [None] otherwise; [dimension] is
    [config.clustering.embeddingDimension]. *)
Definition embed (reply : option (list (list num))) (dimension : nat)
    (text : string) : list num :=
  if (String.length text =? 0)%nat
     || (List.length (Str.trim_chars (Str.chars text)) =? 0)%nat
  then zeros 1024
  else
    match reply with
    | Some ((x :: xs) :: _) => x :: xs
    | _ => zeros dimension
    end.
End Classification.

Arguments Classification num : clear implicits.
Arguments AiReply num : clear implicits.
Arguments TriageResult num : clear implicits.

(** ** Marking a cluster as fixed *)

Section MarkFixed.
Context {num : Type} `{JsNumber num}.
Local Open Scope string_scope.

(** The body of the request. *)
Record MarkFixedBody := {
  deployed_version : option string;
  rollout_days : option num;
  notes : option string
}.

(** [downgradeMap[severity] || 'P2'], for a severity label that is not the
    name of a property of [Object.prototype] (the program writes P0, P1, P2
    and P3 only, see [levels]). *)
Definition downgrade (sev : string) : string :=
  if String.eqb sev "P0" then "P2"
  else if String.eqb sev "P1" then "P3"
  else if String.eqb sev "P2" then "P3"
  else if String.eqb sev "P3" then "P3"
  else "P2".

(** [x || null] on optional strings. *)
Definition str_or_null (x : option string) : option string :=
  if str_truthy x then x else None.

(** The [UPDATE] of [handleMarkFixed] on one row. *)
Definition mark_row (now_ : num) (body : MarkFixedBody) (sev : string) (n : num)
    (r : ClusterRow num) : ClusterRow num :=
  {| row_cluster_id := row_cluster_id r;
     row_title := row_title r;
     row_representative_feedback_id := row_representative_feedback_id r;
     row_representative_feedback := row_representative_feedback r;
     row_count := row_count r;
     row_top_sources := row_top_sources r;
     row_category := row_category r;
     row_severity := row_severity r;
     row_centroid := row_centroid r;
     row_first_seen := row_first_seen r;
     row_last_seen := row_last_seen r;
     row_summary := row_summary r;
     row_suggested_action := row_suggested_action r;
     row_user_impact := row_user_impact r;
     row_priority_score := row_priority_score r;
     row_sentiment_score := row_sentiment_score r;
     row_fix_status := Some fix_deployed;
     row_fix_deployed_date := Some now_;
     row_fix_deployed_version := str_or_null (deployed_version body);
     row_rollout_period_days := Some (num_or (rollout_days body) (jofZ 7));
     row_original_severity := Some sev;
     row_current_severity := Some (downgrade sev);
     row_reports_before_fix := Some n;
     row_reports_after_fix := Some (jofZ 0);
     row_fix_notes := str_or_null (notes body) |}.

Inductive MarkFixedResponse : Type :=
| ClusterNotFound                                       (* status 404 *)
| MarkedAsFixed (original_sev current_sev : string).

(** [handleMarkFixed], for a request whose body parses. *)
Definition handleMarkFixed (env : Env num) (body : MarkFixedBody)
    (clusterId : string) (d : DB num) : MarkFixedResponse * DB num :=
  match find (fun r => String.eqb (row_cluster_id r) clusterId) (clusters_tbl d) with
  | None => (ClusterNotFound, d)
  | Some cluster =>
      (MarkedAsFixed (row_severity cluster) (downgrade (row_severity cluster)),
       update_cluster_row clusterId
         (mark_row (now env) body (row_severity cluster) (row_count cluster)) d)
  end.
End MarkFixed.

Arguments MarkFixedBody num : clear implicits.

(** ** Receiving a feedback item *)

Section PostFeedback.
Context {num : Type} `{JsNumber num}.

(** The response of [handlePostFeedback]: the identifier, and whether it
    says ['sent'] or ['queued for morning digest']. *)
Record PostResponse := {
  post_id : string;
  post_says_sent : bool
}.

(** [handlePostFeedback] with [triageFeedback] and [sendInstantAlert], on
    the table [feedback]: the row is inserted with an identifier drawn from
    [crypto.randomUUID] (a primary key: the identifier is that of no other
    row), the triage decides on the instant alert, and
    [instant_alert_sent] is set when the alert is due and
    [sendTelegramMessage] succeeds.  [reply] is the answer of the model to
    the classification of the triage. *)
Definition handlePostFeedback (env : Env num) (reply : AiReply num)
    (text src : string) (d : DB num) (uuids0 : nat) : PostResponse * DB num :=
  let fid := randomUUID env uuids0 in
  let shouldAlert := instant_alert (triageFeedback reply text) in
  let sent := shouldAlert && sendTelegramMessage env in
  ({| post_id := fid; post_says_sent := shouldAlert |},
   {| feedback_tbl :=
        feedback_tbl d
        ++ [{| fb := {| id := fid; content := text; source := src;
                        timestamp := now env |};
               fb_processed := false;
               fb_instant_alert_sent := sent |}];
      clusters_tbl := clusters_tbl d;
      cluster_members := cluster_members d |}).
End PostFeedback.

(* ================================================================== *)
(** * Vocabulary of the further properties, and sample data *)
(* ================================================================== *)

(** The four severity labels that the program writes. *)
Definition levels : list string := ["P0"; "P1"; "P2"; "P3"]%string.

Section PassVocabulary.
Context {num : Type} `{JsNumber num}.

(** The identifiers that [crypto.randomUUID] returns at the calls number
    [u0], ..., [u0 + k - 1]. *)
Definition drawn (env : Env num) (u0 k : nat) : list string :=
  map (randomUUID env) (seq u0 k).

(** The keys of the working set, and the primary keys of the table
    [clusters]. *)
Definition keys (st : PassState) : list string * list string :=
  (map (cluster_id (num := num)) (clusters st),
   map (row_cluster_id (num := num)) (clusters_tbl (db st))).

(** The columns of a row of [clusters] other than [fix_status],
    [current_severity] and [reports_after_fix]. *)
Definition fix_columns_apart (r : ClusterRow num) :=
  (row_cluster_id r, row_title r, row_representative_feedback_id r,
   row_representative_feedback r, row_count r, row_top_sources r,
   row_category r, row_severity r, row_centroid r, row_first_seen r,
   row_last_seen r, row_summary r, row_suggested_action r, row_user_impact r,
   row_priority_score r, row_sentiment_score r, row_fix_deployed_date r,
   row_fix_deployed_version r, row_rollout_period_days r,
   row_original_severity r, row_reports_before_fix r, row_fix_notes r).

(** The columns of a row of [clusters] that [handleMarkFixed] does not
    write and that clustering, scoring and loading read. *)
Definition mark_columns_apart (r : ClusterRow num) :=
  (row_cluster_id r, row_count r, row_severity r, row_centroid r,
   row_last_seen r, row_priority_score r).

(** The cluster that an entry of the digest shows. *)
Definition issue_key (t : PriorityIssue num) : string := cluster_id (pi_cluster t).
End PassVocabulary.

(** A list in descending order of [key]. *)
Fixpoint descending {A : Type} (key : A -> R) (l : list A) : Prop :=
  match l with
  | [] => True
  | x :: l' => (forall y, In y l' -> (key y <= key x)%R) /\ descending key l'
  end.

Section SampleMarkFixed.
Local Open Scope string_scope.

(** The environment [sample_envR] ten days later, reading every centroid
    as (1, 0). *)
Definition later_envR : Env R :=
  {| now := 9504000000%R;
     classifyFeedback := fun _ => sample_classification;
     generateEmbedding := fun _ => [1%R; 0%R];
     summarizeCluster :=
       fun _ => {| sm_summary := ""; sm_suggested_action := "";
                   sm_user_impact := "" |};
     randomUUID := sample_uuid;
     parse_numbers := fun _ => ParsedArray [1%R; 0%R];
     parse_strings := fun _ => Some ["email"];
     stringify_numbers := fun _ => "[1,0]";
     stringify_strings := fun _ => "[]";
     sendTelegramMessage := true |}.

(** An open issue of four reports, of severity P1. *)
Definition open_row : ClusterRow R :=
  {| row_cluster_id := "c-open";
     row_title := "Login Issue";
     row_representative_feedback_id := "f0";
     row_representative_feedback := "login page keeps loading";
     row_count := 4%R;
     row_top_sources := None;
     row_category := "login";
     row_severity := "P1";
     row_centroid := Some "[1,0]";
     row_first_seen := 0%R;
     row_last_seen := 8640000000%R;
     row_summary := None;
     row_suggested_action := None;
     row_user_impact := None;
     row_priority_score := None;
     row_sentiment_score := None;
     row_fix_status := Some open;
     row_fix_deployed_date := None;
     row_fix_deployed_version := None;
     row_rollout_period_days := None;
     row_original_severity := None;
     row_current_severity := None;
     row_reports_before_fix := None;
     row_reports_after_fix := None;
     row_fix_notes := None |}.

Definition open_db : DB R :=
  {| feedback_tbl := []; clusters_tbl := [open_row]; cluster_members := [] |}.

(** The body [{}] of a request. *)
Definition no_body : MarkFixedBody R :=
  {| deployed_version := None; rollout_days := None; notes := None |}.

(** The row after [POST /clusters/c-open/mark-fixed] at the time of
    [sample_envR], and the clusters that the two rows load as. *)
Definition marked_row : ClusterRow R :=
  mark_row (now sample_envR) no_body (row_severity open_row) (row_count open_row)
           open_row.

Definition loaded (r : ClusterRow R) : Cluster R :=
  match parse_cluster_row later_envR r with
  | Some c => c
  | None => sample_clusterR
  end.

Definition open_cluster : Cluster R := loaded open_row.
Definition marked_cluster : Cluster R := loaded marked_row.

(** A pass at its start, with the cluster of two crash reports as its
    working set. *)
Definition crash_state : PassState :=
  {| clusters := [crash_cluster]; db := empty_db64; processed := [];
     uuids := 0 |}.
End SampleMarkFixed.

(* ================================================================== *)
(** * Properties *)
(* ================================================================== *)

(** ** Comparisons of the exact arithmetic *)

Lemma exact_eqb_true (x y : R) : Exact.eqb x y = true <-> x = y.
Proof. unfold Exact.eqb; destruct (Req_dec_T x y); split; congruence. Qed.

Lemma exact_eqb_false (x y : R) : Exact.eqb x y = false <-> x <> y.
Proof. unfold Exact.eqb; destruct (Req_dec_T x y); split; congruence. Qed.

Lemma exact_ltb_true (x y : R) : Exact.ltb x y = true <-> (x < y)%R.
Proof. unfold Exact.ltb; destruct (Rlt_dec x y); split; congruence. Qed.

Lemma exact_ltb_false (x y : R) : Exact.ltb x y = false <-> (y <= x)%R.
Proof.
  unfold Exact.ltb; destruct (Rlt_dec x y); split; try congruence; intros; lra.
Qed.

(** ** Cosine similarity *)

Section CosineControlFlow.
Context {num : Type} `{JsNumber num}.

Lemma cosine_short (a b : list num) :
  a = [] \/ b = [] \/ List.length a <> List.length b ->
  cosineSimilarity a b = jofZ 0.
Proof.
  intros Hc. unfold cosineSimilarity.
  destruct a as [|x a]; [reflexivity|]. destruct b as [|y b]; [reflexivity|].
  destruct Hc as [Hc | [Hc | Hc]]; try discriminate.
  simpl orb. cbv iota.
  destruct (Nat.eqb_spec (List.length (x :: a)) (List.length (y :: b)));
    [contradiction | reflexivity].
Qed.

Lemma cosine_zero_norm (a b : list num) :
  jeqb (normA (cosine_sums a b)) (jofZ 0) = true
  \/ jeqb (normB (cosine_sums a b)) (jofZ 0) = true ->
  cosineSimilarity a b = jofZ 0.
Proof.
  intros Hz. unfold cosineSimilarity.
  destruct (_ || _); [reflexivity|]. destruct (negb _); [reflexivity|].
  cbv zeta. destruct Hz as [-> | ->]; [reflexivity | now rewrite orb_true_r].
Qed.

Lemma cosine_not_NaN (a b : list num) : jisNaN (cosineSimilarity a b) = false.
Proof.
  unfold cosineSimilarity.
  repeat match goal with
         | |- jisNaN (if ?c then _ else _) = false => destruct c eqn:?
         | |- jisNaN (let _ := _ in _) = false => cbv zeta
         end; try apply jisNaN_zero; assumption.
Qed.

Lemma cosine_quotient (a b : list num) :
  a <> [] -> List.length a = List.length b ->
  jeqb (normA (cosine_sums a b)) (jofZ 0) = false ->
  jeqb (normB (cosine_sums a b)) (jofZ 0) = false ->
  cosineSimilarity a b =
  let s := cosine_sums a b in
  let q := (dotProduct s / (jsqrt (normA s) * jsqrt (normB s)))%js in
  if jisNaN q then jofZ 0 else q.
Proof.
  intros Ha Hlen HA HB. unfold cosineSimilarity.
  destruct a as [|x a]; [contradiction|]. destruct b as [|y b]; [discriminate|].
  simpl orb. cbv iota. rewrite Hlen, Nat.eqb_refl. simpl negb. cbv iota zeta.
  rewrite HA, HB. reflexivity.
Qed.
End CosineControlFlow.

Section CosineExact.
Import Spec.
Local Open Scope R_scope.

Lemma cosine_loop_exact (a b : list R) : forall acc : Sums (num := R),
  List.length a = List.length b ->
  cosine_loop a b acc =
  {| dotProduct := dotProduct acc + dot a b;
     normA := normA acc + dot a a;
     normB := normB acc + dot b b |}.
Proof.
  revert b; induction a as [|x a IH]; intros [|y b] acc Hlen;
    simpl in Hlen; try discriminate.
  - destruct acc; simpl; f_equal; lra.
  - simpl. rewrite IH by lia. simpl. f_equal; lra.
Qed.

Lemma cosine_sums_exact (a b : list R) :
  List.length a = List.length b ->
  cosine_sums a b =
  {| dotProduct := dot a b; normA := dot a a; normB := dot b b |}.
Proof.
  intros Hlen. unfold cosine_sums. rewrite cosine_loop_exact by assumption.
  simpl. f_equal; lra.
Qed.

Lemma dot_self_nonneg (a : list R) : 0 <= dot a a.
Proof. induction a as [|x a IH]; simpl; [lra | nra]. Qed.

Lemma dot_self_pos (a : list R) : (exists x, In x a /\ x <> 0) -> 0 < dot a a.
Proof.
  intros [x [Hin Hx]]. induction a as [|y a IH]; simpl in *; [contradiction|].
  destruct Hin as [-> | Hin].
  - pose proof (dot_self_nonneg a). nra.
  - specialize (IH Hin). nra.
Qed.

Lemma norm_zero_dot (a : list R) : norm a = 0 -> dot a a = 0.
Proof.
  unfold norm. intros E.
  apply sqrt_eq_0 in E; [assumption | apply dot_self_nonneg].
Qed.

Lemma cosine_exact_quotient (a b : list R) :
  List.length a = List.length b -> a <> [] -> norm a <> 0 -> norm b <> 0 ->
  cosineSimilarity a b = dot a b / (norm a * norm b).
Proof.
  intros Hlen Ha Hna Hnb.
  rewrite cosine_quotient; try assumption;
    rewrite cosine_sums_exact by assumption; simpl.
  - reflexivity.
  - apply exact_eqb_false. intros E. apply Hna. unfold norm. rewrite E. apply sqrt_0.
  - apply exact_eqb_false. intros E. apply Hnb. unfold norm. rewrite E. apply sqrt_0.
Qed.

Lemma cosine_exact_zero_norm (a b : list R) :
  norm a = 0 \/ norm b = 0 -> cosineSimilarity a b = 0.
Proof.
  intros Hz.
  destruct (Nat.eq_dec (List.length a) (List.length b)) as [Hlen | Hlen].
  - change (cosineSimilarity a b = jofZ (num := R) 0).
    apply cosine_zero_norm. rewrite cosine_sums_exact by assumption. simpl.
    destruct Hz as [Hz | Hz]; [left | right];
      apply exact_eqb_true, norm_zero_dot, Hz.
  - change (cosineSimilarity a b = jofZ (num := R) 0).
    apply cosine_short. auto.
Qed.

Lemma cosine_exact_identical (a : list R) :
  (exists x, In x a /\ x <> 0) -> cosineSimilarity a a = 1.
Proof.
  intros Hnz. pose proof (dot_self_pos a Hnz) as Hpos.
  assert (Hn : norm a <> 0).
  { unfold norm. intros E. apply sqrt_eq_0 in E; lra. }
  rewrite cosine_exact_quotient; try reflexivity; try assumption.
  - unfold norm. rewrite sqrt_sqrt by lra. field. lra.
  - destruct Hnz as [x [Hin _]]. destruct a; [contradiction | discriminate].
Qed.

Lemma cosine_exact_orthogonal (a b : list R) :
  List.length a = List.length b -> dot a b = 0 -> cosineSimilarity a b = 0.
Proof.
  intros Hlen Hd.
  destruct (Req_dec_T (norm a) 0) as [Ea | Ea];
    [apply cosine_exact_zero_norm; auto|].
  destruct (Req_dec_T (norm b) 0) as [Eb | Eb];
    [apply cosine_exact_zero_norm; auto|].
  destruct a as [|x a]; [reflexivity|].
  rewrite cosine_exact_quotient; try assumption; try discriminate.
  rewrite Hd. unfold Rdiv. apply Rmult_0_l.
Qed.
End CosineExact.

(** C1, as the program has it.  In every arithmetic [cosineSimilarity]
    returns 0 when a vector is empty, when the lengths differ and when one of
    the two accumulated squared norms is zero; otherwise it returns the
    quotient of the accumulated dot product by the product of the two square
    roots, with NaN replaced by 0, so that its result is never NaN.  Under
    exact real arithmetic that quotient is dot(a,b) / (|a| |b|), the result
    is 0 when a norm is zero, 1 for two identical non-zero vectors and 0 for
    two orthogonal vectors. *)
Theorem cosineSimilarity_spec :
  (forall (num : Type) (N : JsNumber num) (a b : list num),
      (a = [] \/ b = [] \/ List.length a <> List.length b ->
       cosineSimilarity a b = jofZ 0)
      /\ (jeqb (normA (cosine_sums a b)) (jofZ 0) = true
          \/ jeqb (normB (cosine_sums a b)) (jofZ 0) = true ->
          cosineSimilarity a b = jofZ 0)
      /\ (a <> [] -> List.length a = List.length b ->
          jeqb (normA (cosine_sums a b)) (jofZ 0) = false ->
          jeqb (normB (cosine_sums a b)) (jofZ 0) = false ->
          cosineSimilarity a b =
          let s := cosine_sums a b in
          let q := (dotProduct s / (jsqrt (normA s) * jsqrt (normB s)))%js in
          if jisNaN q then jofZ 0 else q)
      /\ jisNaN (cosineSimilarity a b) = false)
  /\ (forall a b : list R,
        List.length a = List.length b -> a <> [] ->
        Spec.norm a <> 0%R -> Spec.norm b <> 0%R ->
        cosineSimilarity a b = (Spec.dot a b / (Spec.norm a * Spec.norm b))%R)
  /\ (forall a b : list R,
        Spec.norm a = 0%R \/ Spec.norm b = 0%R -> cosineSimilarity a b = 0%R)
  /\ (forall a : list R,
        (exists x, In x a /\ x <> 0%R) -> cosineSimilarity a a = 1%R)
  /\ (forall a b : list R,
        List.length a = List.length b -> Spec.dot a b = 0%R ->
        cosineSimilarity a b = 0%R).
Proof.
  split; [|repeat split].
  - intros num N a b. repeat split.
    + apply cosine_short.
    + apply cosine_zero_norm.
    + apply cosine_quotient.
    + apply cosine_not_NaN.
  - apply cosine_exact_quotient.
  - apply cosine_exact_zero_norm.
  - apply cosine_exact_identical.
  - apply cosine_exact_orthogonal.
Qed.

(** The statement of C1 at the vectors (3, 4) and (4, -3), and at (3, 4)
    twice. *)
Lemma cosineSimilarity_spec_witness :
  cosineSimilarity [3; 4]%R [3; 4]%R = 1%R
  /\ cosineSimilarity [3; 4]%R [4; -3]%R = 0%R
  /\ cosineSimilarity [3; 4]%R [] = 0%R.
Proof.
  destruct cosineSimilarity_spec as [Hg [_ [_ [Hid Hor]]]].
  split; [|split].
  - apply Hid. exists 3%R. split; [left; reflexivity | lra].
  - apply Hor; [reflexivity | simpl; lra].
  - destruct (Hg R exact [3; 4]%R []) as [Hs _]. apply Hs. auto.
Defined.

(** C1 as the specification has it fails in binary64: the two embeddings
    below are identical and not zero, their squared norm underflows to 0,
    and the zero-norm guard makes the similarity 0, not 1. *)
Lemma cosineSimilarity_identical_underflow :
  some_nonzero tiny_embedding = true
  /\ cosineSimilarity tiny_embedding tiny_embedding = 0%float
  /\ jeqb (cosineSimilarity tiny_embedding tiny_embedding) (jofZ 1) = false.
Proof. repeat split; vm_compute; reflexivity. Qed.

(** ** Running mean of the centroid *)

Section RunningMean.
Import SpecMean.
Local Open Scope R_scope.

Lemma sum_at_snoc (i : nat) (es : list (list R)) (e : list R) :
  sum_at i (es ++ [e]) = sum_at i es + nth i e 0.
Proof.
  unfold sum_at. induction es as [|x es IH]; simpl; [lra|]. rewrite IH. lra.
Qed.

Lemma sum_at_perm (i : nat) (es es' : list (list R)) :
  Permutation es es' -> sum_at i es = sum_at i es'.
Proof.
  unfold sum_at. induction 1; simpl; lra.
Qed.

Lemma mean_perm (d : nat) (es es' : list (list R)) :
  Permutation es es' -> mean d es = mean d es'.
Proof.
  intros Hp. unfold mean. rewrite (Permutation_length Hp).
  apply map_ext. intros i. now rewrite (@sum_at_perm i es es' Hp).
Qed.

Lemma vector_as_map (d : nat) (e : list R) :
  List.length e = d -> e = map (fun i => nth i e 0) (seq 0 d).
Proof.
  intros Hlen. apply (nth_ext _ _ 0 (nth 0%nat e 0)).
  - now rewrite List.length_map, List.length_seq.
  - intros n Hn.
    rewrite (map_nth (fun i => nth i e 0) (seq 0 d) 0%nat n).
    rewrite seq_nth by lia. reflexivity.
Qed.

Lemma running_mean_map (n : R) (f g : nat -> R) (l : list nat) :
  running_mean n (map f l) (map g l) = map (fun i => (f i * (n - 1) + g i) / n) l.
Proof. induction l as [|i l IH]; simpl; [reflexivity|]. now rewrite IH. Qed.

Lemma mean_single (d : nat) (e : list R) : List.length e = d -> mean d [e] = e.
Proof.
  intros Hlen. rewrite (@vector_as_map d e Hlen) at 2. unfold mean.
  apply map_ext. intros i. unfold sum_at. simpl. field.
Qed.

Lemma length_mean (d : nat) (es : list (list R)) : List.length (mean d es) = d.
Proof. unfold mean. now rewrite List.length_map, List.length_seq. Qed.

Lemma running_mean_step (d : nat) (es : list (list R)) (e : list R) :
  es <> [] -> List.length e = d ->
  running_mean (INR (List.length es) + 1) (mean d es) e = mean d (es ++ [e]).
Proof.
  intros Hne Hlen. rewrite (@vector_as_map d e Hlen) at 1. unfold mean at 1.
  rewrite running_mean_map. unfold mean. apply map_ext. intros i.
  rewrite sum_at_snoc, List.length_app. simpl List.length. rewrite Nat.add_1_r, S_INR.
  assert (0 < INR (List.length es)).
  { apply lt_0_INR. destruct es; [contradiction | simpl; lia]. }
  field. lra.
Qed.

Lemma addToCluster_mean (d : nat) (es : list (list R)) (f : Feedback R)
    (e : list R) (c : Cluster R) :
  es <> [] -> List.length e = d ->
  count c = INR (List.length es) -> centroid c = mean d es ->
  count (addToCluster f e c) = INR (List.length (es ++ [e]))
  /\ centroid (addToCluster f e c) = mean d (es ++ [e]).
Proof.
  intros Hne Hlen Hc Hm. unfold addToCluster. simpl. split.
  - rewrite Hc, List.length_app. simpl List.length. now rewrite Nat.add_1_r, S_INR.
  - rewrite Hm, length_mean, Hlen, Nat.eqb_refl, Hc.
    now apply running_mean_step.
Qed.

Lemma fold_mean (d : nat) (rest : list (Feedback R * list R)) :
  forall (es : list (list R)) (c : Cluster R),
    es <> [] -> Forall (fun fe => List.length (snd fe) = d) rest ->
    count c = INR (List.length es) -> centroid c = mean d es ->
    let c' := fold_left (fun c fe => addToCluster (fst fe) (snd fe) c) rest c in
    count c' = INR (List.length (es ++ map snd rest))
    /\ centroid c' = mean d (es ++ map snd rest).
Proof.
  induction rest as [|[f e] rest IH]; intros es c Hne Hall Hc Hm; simpl.
  - rewrite app_nil_r. auto.
  - apply Forall_cons_iff in Hall. destruct Hall as [He Hrest]. simpl in He.
    destruct (@addToCluster_mean d es f e c Hne He Hc Hm) as [Hc' Hm'].
    assert (Hne' : es ++ [e] <> []) by (destruct es; discriminate).
    specialize (IH (es ++ [e]) (addToCluster f e c) Hne' Hrest Hc' Hm').
    simpl in IH. rewrite <- app_assoc in IH. exact IH.
Qed.

Lemma foldMembers_mean (d : nat) cid cls (first : Feedback R * list R)
    (rest : list (Feedback R * list R)) :
  Forall (fun fe => List.length (snd fe) = d) (first :: rest) ->
  count (foldMembers cid cls first rest) = INR (List.length (first :: rest))
  /\ centroid (foldMembers cid cls first rest) = mean d (map snd (first :: rest)).
Proof.
  intros Hall. apply Forall_cons_iff in Hall. destruct Hall as [Hf Hrest].
  unfold foldMembers.
  destruct (@fold_mean d rest [snd first]
              (newCluster cid cls (fst first) (snd first))) as [Hc Hm];
    try assumption; try discriminate.
  - reflexivity.
  - simpl. symmetry. now apply mean_single.
  - split.
    + rewrite Hc. simpl. now rewrite List.length_map.
    + exact Hm.
Qed.
End RunningMean.

(** C2.  Under exact arithmetic, the cluster built from a first member and
    the members merged into it one at a time, all with embeddings of the
    same dimension [d], counts its members and has the arithmetic mean of
    their embeddings as centroid; the centroid is therefore the same for
    every order in which the same embeddings are merged. *)
Theorem running_mean_is_arithmetic_mean :
  forall (d : nat) (cid : string) (cls : ClassificationResult)
         (first : Feedback R * list R) (rest : list (Feedback R * list R)),
    Forall (fun fe => List.length (snd fe) = d) (first :: rest) ->
    count (foldMembers cid cls first rest) = INR (List.length (first :: rest))
    /\ centroid (foldMembers cid cls first rest)
       = SpecMean.mean d (map snd (first :: rest))
    /\ forall (cid' : string) (cls' : ClassificationResult)
              (first' : Feedback R * list R) (rest' : list (Feedback R * list R)),
        Permutation (map snd (first :: rest)) (map snd (first' :: rest')) ->
        centroid (foldMembers cid' cls' first' rest')
        = centroid (foldMembers cid cls first rest).
Proof.
  intros d cid cls first rest Hall.
  destruct (@foldMembers_mean d cid cls first rest Hall) as [Hc Hm].
  split; [exact Hc | split; [exact Hm|]].
  intros cid' cls' first' rest' Hp.
  assert (Hall' : Forall (fun fe => List.length (snd fe) = d) (first' :: rest')).
  { apply Forall_forall. intros fe Hin.
    assert (Hin' : In (snd fe) (map snd (first :: rest))).
    { apply (Permutation_in _ (Permutation_sym Hp)). now apply in_map. }
    apply in_map_iff in Hin'. destruct Hin' as [fe0 [E Hin0]].
    rewrite <- E. exact (proj1 (Forall_forall _ _) Hall fe0 Hin0). }
  destruct (@foldMembers_mean d cid' cls' first' rest' Hall') as [_ Hm'].
  rewrite Hm, Hm'. symmetry. now apply mean_perm.
Qed.

(** C2 at three embeddings of dimension 2. *)
Lemma running_mean_is_arithmetic_mean_witness :
  centroid (foldMembers "c1" sample_classification
              (sample_feedback, [1; 3]%R)
              [(sample_feedback, [3; 5]%R); (sample_feedback, [5; 1]%R)])
  = SpecMean.mean 2 [[1; 3]; [3; 5]; [5; 1]]%R.
Proof.
  apply (@running_mean_is_arithmetic_mean 2 "c1" sample_classification
           (sample_feedback, [1; 3]%R)
           [(sample_feedback, [3; 5]%R); (sample_feedback, [5; 1]%R)]).
  repeat constructor.
Defined.


(** ** Matching *)

Lemma find_first_spec (A : Type) (p : A -> bool) (l : list A) (i : nat) (x : A) :
  find_first p l = Some (i, x) -> nth_error l i = Some x /\ p x = true.
Proof.
revert i. induction l as [|y l IH]; intros i Hf; simpl in Hf; [discriminate|].
destruct (p y) eqn:Hp.
- injection Hf as <- <-. auto.
- destruct (find_first p l) as [[j z]|]; [|discriminate].
  injection Hf as <- <-. simpl. now apply IH.
Qed.

Lemma nth_error_set_nth_other (A : Type) (l : list A) (i j : nat) (x : A) :
  i <> j -> nth_error (set_nth j x l) i = nth_error l i.
Proof.
revert i j. induction l as [|y l IH]; intros [|i] [|j] Hij; simpl; auto; try congruence.
Qed.

Section Matching.
Context {num : Type} `{JsNumber num}.
Variable env : Env num.
Variable config : Config num.

Lemma embeddingMatch_not_user_specific embedding clusters i (c : Cluster num) :
  embeddingMatch config embedding clusters = Some (i, c) ->
  nth_error clusters i = Some c /\ is_user_specific_cluster c = false.
Proof.
unfold embeddingMatch. destruct (some_nonzero embedding); [|discriminate].
intros Hf. apply find_first_spec in Hf. destruct Hf as [Hn Hp]. split; [exact Hn|].
unfold embedding_hit in Hp. destruct (is_user_specific_cluster c); [discriminate | reflexivity].
Qed.

Lemma textMatch_not_user_specific content clusters i (c : Cluster num) :
  textMatch env content clusters = Some (i, c) ->
  nth_error clusters i = Some c /\ is_user_specific_cluster c = false.
Proof.
unfold textMatch. intros Hf. apply find_first_spec in Hf. destruct Hf as [Hn Hp].
split; [exact Hn|].
unfold text_hit in Hp. destruct (is_user_specific_cluster c); [discriminate | reflexivity].
Qed.

Lemma findMatch_not_user_specific content embedding clusters i (c : Cluster num) :
  findMatch env config content embedding clusters = Some (i, c) ->
  nth_error clusters i = Some c /\ is_user_specific_cluster c = false.
Proof.
unfold findMatch. destruct (embeddingMatch config embedding clusters) as [[j c']|] eqn:He.
- intros Hf. injection Hf as -> ->. now apply embeddingMatch_not_user_specific in He.
- apply textMatch_not_user_specific.
Qed.

Lemma cluster_step_keeps_user_specific ac (st : PassState) (f : Feedback num) i
    (c : Cluster num) :
  nth_error (clusters st) i = Some c -> is_user_specific_cluster c = true ->
  nth_error (clusters (cluster_step env config ac st f)) i = Some c.
Proof.
intros Hn Hu. unfold cluster_step.
assert (Happ : forall x, nth_error (clusters st ++ [x]) i = Some c).
{ intros x. rewrite nth_error_app1; [exact Hn|]. apply nth_error_Some. congruence. }
destruct (Str.mem (id f) (processed st)); [exact Hn|].
destruct (Str.mem (id f) ac); [exact Hn|].
destruct (UserSpecific.isUserSpecificFeedback (content f)); [apply Happ|].
destruct (findMatch env config (content f) (generateEmbedding env (content f)) (clusters st))
  as [[j m]|] eqn:Hm; [|apply Happ].
apply findMatch_not_user_specific in Hm. destruct Hm as [Hj Hnu].
simpl. rewrite nth_error_set_nth_other; [exact Hn|].
intros ->. congruence.
Qed.

Lemma pass_keeps_user_specific ac (fs : list (Feedback num)) : forall (st : PassState) i
    (c : Cluster num),
  nth_error (clusters st) i = Some c -> is_user_specific_cluster c = true ->
  nth_error (clusters (fold_left (cluster_step env config ac) fs st)) i = Some c.
Proof.
induction fs as [|f fs IH]; intros st i c Hn Hu; simpl; [exact Hn|].
apply IH; [|exact Hu]. now apply cluster_step_keeps_user_specific.
Qed.
End Matching.

(** C3.  A cluster with exactly one member whose representative text
    satisfies the user-specific predicate is not the cluster that the
    embedding tier selects, nor the one that the text tier selects (it fails
    the test of each tier, whatever the text and the embedding of the item),
    nor the one [findMatch] returns, whatever the list of candidates it
    stands in; and a whole pass over a batch leaves it as it is. *)
Theorem user_specific_singleton_never_matched :
  forall (num : Type) (N : JsNumber num) (env : Env num) (config : Config num)
         (candidates : list (Cluster num)) (i : nat) (c : Cluster num),
    jeqb (count c) (jofZ 1) = true ->
    UserSpecific.isUserSpecificFeedback (representative_feedback c) = true ->
    (forall (content : string) (embedding : list num),
        embeddingMatch config embedding candidates <> Some (i, c)
        /\ embedding_hit config embedding c = false
        /\ textMatch env content candidates <> Some (i, c)
        /\ text_hit (classifyFeedback env content) (Str.toLowerCase content) c = false
        /\ findMatch env config content embedding candidates <> Some (i, c))
    /\ (forall (alreadyClustered : list string) (feedbacks : list (Feedback num))
               (st : PassState),
          nth_error (clusters st) i = Some c ->
          nth_error
            (clusters
               (fold_left (cluster_step env config alreadyClustered) feedbacks st)) i
          = Some c).
Proof.
intros num N env config candidates i c Hcount Htext.
assert (Hu : is_user_specific_cluster c = true).
{ unfold is_user_specific_cluster. now rewrite Hcount, Htext. }
split.
- intros content embedding. repeat split.
  + intros Hm. apply embeddingMatch_not_user_specific in Hm. destruct Hm; congruence.
  + unfold embedding_hit. now rewrite Hu.
  + intros Hm. apply textMatch_not_user_specific in Hm. destruct Hm; congruence.
  + unfold text_hit. now rewrite Hu.
  + intros Hm. apply findMatch_not_user_specific in Hm. destruct Hm; congruence.
- intros ac fs st Hn. now apply pass_keeps_user_specific.
Qed.

(** C3 at a working set of two clusters, the first of which is the
    user-specific singleton [user_cluster]. *)
Lemma user_specific_singleton_never_matched_witness :
  findMatch sample_env64 defaultConfig "my account is locked" [1; 0]%float
            [user_cluster; crash_cluster]
  <> Some (0%nat, user_cluster).
Proof.
assert (Hc : jeqb (count user_cluster) (jofZ 1) = true) by (vm_compute; reflexivity).
assert (Ht : UserSpecific.isUserSpecificFeedback
               (representative_feedback user_cluster) = true)
  by (vm_compute; reflexivity).
exact (proj2 (proj2 (proj2 (proj2
         (proj1 (@user_specific_singleton_never_matched float binary64
                   sample_env64 defaultConfig [user_cluster; crash_cluster]
                   0%nat user_cluster Hc Ht)
                "my account is locked"%string [1; 0]%float))))).
Defined.

(** ** The user-specific predicate *)

Section UserSpecificFacts.
Import Regex UserSpecific.

Lemma lower_char_not_I (c : ascii) : Ascii.eqb "I" (Str.lower_char c) = false.
Proof. destruct c as [[] [] [] [] [] [] [] []]; reflexivity. Qed.

Lemma toLowerCase_no_I (s : string) :
  Forall (fun c => Ascii.eqb "I" c = false) (Str.chars (Str.toLowerCase s)).
Proof.
induction s as [|c s IH]; simpl; constructor; [apply lower_char_not_I | exact IH].
Qed.

(** A pattern that starts with [\bI] finds nothing in a text without a capital I. *)
Lemma search_capital_I (A : Type) (rest : regex) (k : option ascii -> list ascii -> option A)
    (s : list ascii) :
  Forall (fun c => Ascii.eqb "I" c = false) s ->
  forall prev, search (Seq Boundary (Seq (Char (Ascii.eqb "I")) rest)) prev s k = None.
Proof.
induction 1 as [|c s Hc Hs IH]; intros prev; cbn [search rmatch].
- destruct (xorb _ _); reflexivity.
- rewrite Hc, IH. destruct (xorb _ _); reflexivity.
Qed.

Lemma test_capital_I (rest : regex) (content : string) :
  test (Seq Boundary (Seq (Char (Ascii.eqb "I")) rest)) (Str.toLowerCase content) = false.
Proof.
unfold test. rewrite search_capital_I; [reflexivity | apply toLowerCase_no_I].
Qed.

(** C4.  The three patterns of rule 1 that start with a capital I are tested
    against the lower-cased text, in which there is no capital I: they match
    no text at all.  A first-person sentence about a subscription or an
    account is therefore not user-specific unless another pattern catches it,
    and it is classified as systemic when a pattern of rule 2 matches. *)
Theorem first_person_phrasing_not_detected :
  isUserSpecificFeedback "I was charged twice for the subscription" = false
  /\ isUserSpecificFeedback "I am seeing app crashes on the account page" = false
  /\ (forall content : string,
        test first_person_pattern (Str.toLowerCase content) = false
        /\ test first_person_access_pattern (Str.toLowerCase content) = false
        /\ test first_person_billed_pattern (Str.toLowerCase content) = false).
Proof.
split; [vm_compute; reflexivity|]. split; [vm_compute; reflexivity|].
intros content. repeat split; apply test_capital_I.
Qed.

(** Rule 1 does come first: a text that one of its patterns matches is
    user-specific, whatever rule 2 says. *)
Lemma rule1_precedence (content : string) :
  existsb (fun pattern => test pattern (Str.toLowerCase content)) userSpecificPatterns = true ->
  isUserSpecificFeedback content = true.
Proof. unfold isUserSpecificFeedback. now intros ->. Qed.
End UserSpecificFacts.

(** ** Fix lifecycle *)

Section Lifecycle.
Context {num : Type} `{JsNumber num}.
Variable env : Env num.

Lemma for_each_nth (body : Cluster num -> DB num -> Cluster num * DB num)
    (body_cluster : Cluster num -> Cluster num) :
  (forall c d, fst (body c d) = body_cluster c) ->
  forall (cs : list (Cluster num)) (d : DB num),
    fst (for_each body cs d) = map body_cluster cs.
Proof.
intros Hb. induction cs as [|c cs IH]; intros d; simpl; [reflexivity|].
specialize (Hb c d). destruct (body c d) as [c' d']. simpl in Hb. subst c'.
specialize (IH d'). destruct (for_each body cs d') as [l'' d'']. simpl in *.
now rewrite IH.
Qed.

Lemma evaluateFix_cluster (c : Cluster num) (d d' : DB num) :
  fst (evaluateFix env c d) = fst (evaluateFix env c d').
Proof.
unfold evaluateFix.
repeat match goal with |- context [if ?b then _ else _] => destruct b end; reflexivity.
Qed.

Lemma evaluateFixes_nth (cs : list (Cluster num)) (d : DB num) (i : nat) (c : Cluster num) :
  nth_error cs i = Some c ->
  nth_error (fst (evaluateFixes env cs d)) i = Some (fst (evaluateFix env c d)).
Proof.
intros Hn. unfold evaluateFixes.
rewrite (@for_each_nth (evaluateFix env) (fun c => fst (evaluateFix env c d))).
- exact (map_nth_error (fun c => fst (evaluateFix env c d)) i cs Hn).
- intros c0 d0. apply evaluateFix_cluster.
Qed.

Lemma under_rollout_intro (c : Cluster num) (date : num) :
  fix_status c = Some fix_deployed -> fix_deployed_date c = Some date ->
  truthy date = true ->
  under_rollout c = true /\ daysSinceFix env c = ((now env - date) / jofZ 86400000)%js.
Proof.
intros Hs Hd Ht. unfold under_rollout, daysSinceFix. rewrite Hs, Hd. simpl.
now rewrite Ht.
Qed.

Lemma update_cluster_row_In (cid : string) (f : ClusterRow num -> ClusterRow num)
    (d : DB num) (r : ClusterRow num) :
  In r (clusters_tbl (update_cluster_row cid f d)) ->
  row_cluster_id r = cid -> (forall r0, row_cluster_id (f r0) = row_cluster_id r0) ->
  exists r0, In r0 (clusters_tbl d) /\ r = f r0.
Proof.
unfold update_cluster_row. simpl. intros Hin Hid Hf.
apply in_map_iff in Hin. destruct Hin as [r0 [E Hin0]].
exists r0. split; [exact Hin0|].
destruct (String.eqb_spec (row_cluster_id r0) cid) as [_|Hne]; [now symmetry|].
subst r. contradiction.
Qed.

Lemma addToCluster_fix_fields (f : Feedback num) (e : list num) (c : Cluster num) :
  fix_status (addToCluster f e c) = fix_status c
  /\ fix_deployed_date (addToCluster f e c) = fix_deployed_date c
  /\ rollout_period_days (addToCluster f e c) = rollout_period_days c
  /\ reports_after_fix (addToCluster f e c) = reports_after_fix c.
Proof. repeat split. Qed.

End Lifecycle.

(** C5, as the program has it.  A cluster whose fix is deployed, whose
    deployment date is set and whose rollout window has elapsed leaves
    [fix_deployed] in one evaluation: it becomes [resolved] when
    after / rollout < before / 7 * 0.2, and [failed] otherwise, where
    [before] is [reports_before_fix] or, when that is unset or zero, the
    member count, [after] is [reports_after_fix] or 0, and [rollout] is
    [rollout_period_days] or 7.  A failed fix restores [current_severity]
    to [original_severity] (to [severity] when that is unset); a resolved
    one keeps it.  The row of the cluster records the new status, and the
    loop over the working set applies this to the cluster wherever it
    stands in it. *)
Theorem fix_evaluated_after_rollout :
  forall (num : Type) (N : JsNumber num) (env : Env num) (c : Cluster num)
         (d : DB num) (date : num),
    fix_status c = Some fix_deployed ->
    fix_deployed_date c = Some date -> truthy date = true ->
    ((now env - date) / jofZ 86400000
       >? num_or (rollout_period_days c) (jofZ 7))%js = true ->
    let c' := fst (evaluateFix env c d) in
    let worked :=
      (num_or (reports_after_fix c) (jofZ 0) / num_or (rollout_period_days c) (jofZ 7)
       <? num_or (reports_before_fix c) (count c) / jofZ 7 * jdec 2 10)%js in
    (fix_status c' = Some resolved \/ fix_status c' = Some failed)
    /\ (fix_status c' = Some resolved <-> worked = true)
    /\ (fix_status c' = Some failed <-> worked = false)
    /\ (fix_status c' = Some failed ->
        current_severity c' = Some (str_or (original_severity c) (severity c)))
    /\ (fix_status c' = Some resolved -> current_severity c' = current_severity c)
    /\ (forall r, In r (clusters_tbl (snd (evaluateFix env c d))) ->
                  row_cluster_id r = cluster_id c ->
                  row_fix_status r = fix_status c')
    /\ (forall cs i d0, nth_error cs i = Some c ->
          exists c1, nth_error (fst (evaluateFixes env cs d0)) i = Some c1
                     /\ fix_status c1 = fix_status c').
Proof.
intros num N env c d date Hs Hd Ht Hdays c' worked.
destruct (under_rollout_intro env c Hs Hd Ht) as [Hu Hday].
assert (Hc' : c' = if worked
                   then set_fix c (Some resolved) (current_severity c) (reports_after_fix c)
                   else set_fix c (Some failed)
                          (Some (str_or (original_severity c) (severity c)))
                          (reports_after_fix c)).
{ subst c' worked. unfold evaluateFix. rewrite Hu, Hday.
  unfold rolloutDays, avgAfterFix, avgBeforeFix, rolloutDays. rewrite Hdays.
  match goal with |- fst (if ?b then _ else _) = _ => destruct b end; reflexivity. }
assert (Hdb : forall r, In r (clusters_tbl (snd (evaluateFix env c d))) ->
                        row_cluster_id r = cluster_id c ->
                        row_fix_status r = fix_status c').
{ intros r Hin Hid. rewrite Hc'. revert Hin. unfold evaluateFix. rewrite Hu, Hday.
  unfold rolloutDays at 1. rewrite Hdays.
  unfold rolloutDays, avgAfterFix, avgBeforeFix, rolloutDays. fold worked.
  destruct worked; simpl snd; intros Hin;
    apply update_cluster_row_In in Hin; try assumption; try reflexivity;
    destruct Hin as [r0 [_ ->]]; reflexivity. }
split; [|split; [|split; [|split; [|split; [|split]]]]].
- rewrite Hc'. destruct worked; simpl; auto.
- rewrite Hc'. destruct worked; simpl; split; congruence.
- rewrite Hc'. destruct worked; simpl; split; congruence.
- rewrite Hc'. destruct worked; simpl; congruence.
- rewrite Hc'. destruct worked; simpl; congruence.
- exact Hdb.
- intros cs i d0 Hn. exists (fst (evaluateFix env c d0)). split.
  + now apply evaluateFixes_nth.
  + subst c'. now rewrite (evaluateFix_cluster env c d0 d).
Qed.


(** C5 on the scenario of the specification: 50 reports before the fix, 2
    after, the fix deployed 10 days ago with a rollout of 7 days. *)
Lemma fix_evaluated_after_rollout_witness :
  fix_status (fst (evaluateFix sample_env64 (deployed_cluster (Some 50%float))
                     empty_db64)) = Some resolved
  \/ fix_status (fst (evaluateFix sample_env64 (deployed_cluster (Some 50%float))
                        empty_db64)) = Some failed.
Proof.
apply (@fix_evaluated_after_rollout float binary64 sample_env64
         (deployed_cluster (Some 50%float)) empty_db64 (jofZ (90 * 86400000)));
  vm_compute; reflexivity.
Defined.

(** C5 as the specification has it fails when [reports_before_fix] is unset
    or zero: the criterion of the specification, on the three fields, says
    that the fix did not work, and the program, which falls back on the
    member count (50), resolves the cluster. *)
Lemma fix_outcome_uses_count_fallback :
  (fix_status (deployed_cluster None) = Some fix_deployed
   /\ (daysSinceFix sample_env64 (deployed_cluster None)
        >? rolloutDays (deployed_cluster None))%js = true
   /\ spec_fix_worked (deployed_cluster None) = false
   /\ fix_status (fst (evaluateFix sample_env64 (deployed_cluster None) empty_db64))
      = Some resolved)
  /\ (fix_status (deployed_cluster (Some 0%float)) = Some fix_deployed
      /\ (daysSinceFix sample_env64 (deployed_cluster (Some 0%float))
           >? rolloutDays (deployed_cluster (Some 0%float)))%js = true
      /\ spec_fix_worked (deployed_cluster (Some 0%float)) = false
      /\ fix_status (fst (evaluateFix sample_env64 (deployed_cluster (Some 0%float))
                            empty_db64))
         = Some resolved).
Proof. repeat split; vm_compute; reflexivity. Qed.


(** ** Idempotence of the clustering pass *)

Lemma mem_In (x : string) (l : list string) : Str.mem x l = true <-> In x l.
Proof.
unfold Str.mem. rewrite existsb_exists. split.
- intros [y [Hin E]]. apply String.eqb_eq in E. now subst.
- intros Hin. exists x. split; [exact Hin | apply String.eqb_refl].
Qed.

Lemma set_add_In (x y : string) (l : list string) :
  In y (Str.set_add x l) <-> y = x \/ In y l.
Proof.
unfold Str.set_add. destruct (Str.mem x l) eqn:Hm.
- apply mem_In in Hm. split; [auto | intros [-> | Hin]; assumption].
- rewrite in_app_iff. simpl. split; intros Hin; intuition congruence.
Qed.

Section Idempotence.
Context {num : Type} `{JsNumber num}.
Variable env : Env num.
Variable config : Config num.

Lemma member_exists_In (cid fid : string) (d : DB num) :
  member_exists cid fid d = true -> In fid (member_ids d).
Proof.
unfold member_exists, member_ids. rewrite existsb_exists.
intros [[c f] [Hin E]]. apply andb_prop in E. destruct E as [_ E].
apply String.eqb_eq in E. simpl in E. subst. now apply (in_map snd) in Hin.
Qed.

Lemma insert_member_In (cid fid x : string) (d : DB num) :
  In x (member_ids (insert_member cid fid d)) <-> In x (member_ids d) \/ x = fid.
Proof.
unfold member_ids, insert_member. simpl. rewrite map_app, in_app_iff. simpl.
intuition congruence.
Qed.

(** An item whose membership is recorded is skipped: the step changes
    nothing but the set [processed]. *)
Lemma cluster_step_skip (ac : list string) (st : PassState) (f : Feedback num) :
  In (id f) ac ->
  clusters (cluster_step env config ac st f) = clusters st
  /\ db (cluster_step env config ac st f) = db st
  /\ uuids (cluster_step env config ac st f) = uuids st.
Proof.
intros Hin. unfold cluster_step.
destruct (Str.mem (id f) (processed st)); [auto|].
apply mem_In in Hin. rewrite Hin. auto.
Qed.

Lemma pass_skip (ac : list string) (fs : list (Feedback num)) :
  (forall f, In f fs -> In (id f) ac) ->
  forall st : PassState,
    clusters (fold_left (cluster_step env config ac) fs st) = clusters st
    /\ db (fold_left (cluster_step env config ac) fs st) = db st
    /\ uuids (fold_left (cluster_step env config ac) fs st) = uuids st.
Proof.
induction fs as [|f fs IH]; intros Hall st; simpl; [auto|].
destruct (@cluster_step_skip ac st f (Hall f (or_introl eq_refl))) as [H1 [H2 H3]].
destruct (IH (fun g Hg => Hall g (or_intror Hg)) (cluster_step env config ac st f))
  as [H4 [H5 H6]].
repeat split; congruence.
Qed.

Lemma cluster_step_recorded (ac : list string) (st : PassState) (f : Feedback num) :
  recorded ac st ->
  recorded ac (cluster_step env config ac st f)
  /\ In (id f) (processed (cluster_step env config ac st f)).
Proof.
intros [Hac Hpr]. unfold cluster_step.
destruct (Str.mem (id f) (processed st)) eqn:Hp.
{ apply mem_In in Hp. split; [split; assumption | assumption]. }
destruct (Str.mem (id f) ac) eqn:Ha.
{ apply mem_In in Ha. simpl. split; [split; [assumption|] | apply set_add_In; auto].
  intros x Hx. apply set_add_In in Hx. destruct Hx as [-> | Hx]; auto. }
assert (Hgrow : forall (d' : DB num),
           (forall x, In x (member_ids (db st)) -> In x (member_ids d')) ->
           In (id f) (member_ids d') ->
           forall cs u,
             recorded ac {| clusters := cs; db := d';
                            processed := Str.set_add (id f) (processed st);
                            uuids := u |}
             /\ In (id f) (Str.set_add (id f) (processed st))).
{ intros d' Hsub Hf cs u. split; [split; simpl|apply set_add_In; auto].
  - intros x Hx. auto.
  - intros x Hx. apply set_add_In in Hx. destruct Hx as [-> | Hx]; auto. }
destruct (UserSpecific.isUserSpecificFeedback (content f)).
{ apply Hgrow.
  - intros x Hx. apply insert_member_In. left. exact Hx.
  - apply insert_member_In. now right. }
destruct (findMatch env config (content f) (generateEmbedding env (content f))
            (clusters st)) as [[i m]|].
- apply Hgrow.
  + intros x Hx. unfold member_ids, update_cluster_row. simpl.
    destruct (member_exists _ _ _); [exact Hx|].
    apply insert_member_In. now left.
  + unfold member_ids, update_cluster_row. simpl.
    destruct (member_exists _ _ _) eqn:Hm.
    * now apply member_exists_In in Hm.
    * apply insert_member_In. now right.
- apply Hgrow.
  + intros x Hx. destruct (member_exists _ _ _).
    * exact Hx.
    * apply insert_member_In. now left.
  + destruct (member_exists _ _ _) eqn:Hm.
    * now apply member_exists_In in Hm.
    * apply insert_member_In. now right.
Qed.

Lemma cluster_step_processed_mono (ac : list string) (st : PassState)
    (f : Feedback num) (x : string) :
  In x (processed st) -> In x (processed (cluster_step env config ac st f)).
Proof.
intros Hx. unfold cluster_step.
repeat match goal with
       | |- context [if ?b then _ else _] => destruct b
       | |- context [match ?o with Some _ => _ | None => _ end] => destruct o as [[? ?]|]
       end; simpl; try assumption; apply set_add_In; auto.
Qed.

Lemma pass_recorded (ac : list string) (fs : list (Feedback num)) :
  forall st : PassState,
    recorded ac st ->
    let st' := fold_left (cluster_step env config ac) fs st in
    recorded ac st'
    /\ (forall x, In x (processed st) -> In x (processed st'))
    /\ (forall f, In f fs -> In (id f) (processed st')).
Proof.
induction fs as [|f fs IH]; intros st Hr; simpl.
- repeat split; try apply Hr; auto. intros f [].
- destruct (cluster_step_recorded f Hr) as [Hr' Hf].
  destruct (IH _ Hr') as [Hr'' [Hmono Hall]].
  split; [exact Hr''|]. split.
  + intros x Hx. apply Hmono. now apply cluster_step_processed_mono.
  + intros g [<- | Hg]; [now apply Hmono | now apply Hall].
Qed.

Lemma pass_records_batch (db0 : DB num) (u0 : nat) (fs : list (Feedback num)) :
  forall f, In f fs ->
    In (id f) (member_ids (db (clusterFeedbacksWithEmbeddings env config db0 u0 fs))).
Proof.
intros f Hf. unfold clusterFeedbacksWithEmbeddings.
destruct (@pass_recorded (map snd (cluster_members db0)) fs
            {| clusters := load_clusters env config db0; db := db0;
               processed := []; uuids := u0 |}) as [[_ Hpr] [_ Hall]].
- split; simpl; [auto | intros x []].
- apply Hpr. now apply Hall.
Qed.
End Idempotence.

(** C7.  A batch whose items all have a membership recorded goes through
    the clustering pass without any effect: the database is the one the
    pass started from, the working set is the set of clusters loaded from
    it, and no identifier is drawn.  This is the case of every second pass
    over a batch: after a first pass all the items of the batch have a
    membership, so that the second pass inserts no membership and changes no
    row of [clusters], counts and centroids included. *)
Theorem reprocessing_is_idempotent :
  forall (num : Type) (N : JsNumber num) (env : Env num) (config : Config num)
         (db0 : DB num) (uuids0 : nat) (feedbacks : list (Feedback num)),
    ((forall f, In f feedbacks -> In (id f) (map snd (cluster_members db0))) ->
     let st := clusterFeedbacksWithEmbeddings env config db0 uuids0 feedbacks in
     db st = db0
     /\ clusters st = load_clusters env config db0
     /\ uuids st = uuids0)
    /\ (let st1 := clusterFeedbacksWithEmbeddings env config db0 uuids0 feedbacks in
        let st2 := clusterFeedbacksWithEmbeddings env config (db st1) (uuids st1)
                     feedbacks in
        cluster_members (db st2) = cluster_members (db st1)
        /\ clusters_tbl (db st2) = clusters_tbl (db st1)
        /\ clusters st2 = load_clusters env config (db st1)
        /\ uuids st2 = uuids st1).
Proof.
intros num N env config db0 uuids0 feedbacks.
assert (Hskip : forall d u,
          (forall f, In f feedbacks -> In (id f) (map snd (cluster_members d))) ->
          let st := clusterFeedbacksWithEmbeddings env config d u feedbacks in
          db st = d /\ clusters st = load_clusters env config d /\ uuids st = u).
{ intros d u Hall. unfold clusterFeedbacksWithEmbeddings.
  destruct (@pass_skip _ _ env config (map snd (cluster_members d)) feedbacks Hall
              {| clusters := load_clusters env config d; db := d;
                 processed := []; uuids := u |}) as [H1 [H2 H3]].
  simpl in *. auto. }
split; [apply Hskip|].
intros st1 st2.
destruct (Hskip (db st1) (uuids st1)) as [H1 [H2 H3]].
{ intros f Hf. subst st1. now apply pass_records_batch. }
subst st2. rewrite H1. auto.
Qed.

(** C7 at a batch of one item whose membership is recorded. *)
Lemma reprocessing_is_idempotent_witness :
  db (clusterFeedbacksWithEmbeddings sample_env64 defaultConfig recorded_db64 0
        [feedback64 "f2" "App crashes on resume" 98])
  = recorded_db64.
Proof.
apply (proj1 (@reprocessing_is_idempotent float binary64 sample_env64 defaultConfig
                recorded_db64 0 [feedback64 "f2" "App crashes on resume" 98])).
intros f [<- | []]. left. reflexivity.
Defined.

(** ** Digest assembly *)

Section Assembly.
Context {num : Type} `{JsNumber num}.
Variable config : Config num.

Lemma insert_desc_In (A : Type) (key : A -> num) (x y : A) (l : list A) :
  In y (insert_desc key x l) <-> y = x \/ In y l.
Proof.
induction l as [|z l IH]; simpl.
- intuition congruence.
- destruct (jltb (key x) (key z)); simpl; [rewrite IH|]; intuition congruence.
Qed.

Lemma sort_desc_In (A : Type) (key : A -> num) (y : A) (l : list A) :
  In y (sort_desc key l) <-> In y l.
Proof.
unfold sort_desc. induction l as [|x l IH]; simpl; [tauto|].
rewrite insert_desc_In, IH. intuition congruence.
Qed.

Lemma firstn_In (A : Type) (n : nat) (l : list A) (x : A) :
  In x (firstn n l) -> In x l.
Proof.
revert l. induction n as [|n IH]; intros [|y l]; simpl; try tauto.
intros [-> | Hin]; auto.
Qed.

(** Where the clusters of each list come from: a list of the digest is the
    image by [toIssue] of a prefix of a sorted, filtered list. *)
Ltac bucket_origin Hin :=
  let c := fresh "c" in
  apply in_map_iff in Hin; destruct Hin as [c [<- Hin]]; simpl;
  repeat first
    [ apply firstn_In in Hin
    | apply sort_desc_In in Hin
    | let Hf := fresh "Hf" in apply filter_In in Hin; destruct Hin as [Hin Hf] ].

Lemma newTopIssues_In (scored : list (Cluster num)) (p : PriorityIssue num) :
  In p (newTopIssues (assembleBuckets config scored)) ->
  In (pi_cluster p) scored
  /\ (count (pi_cluster p) >? jofZ 1)%js = true
  /\ (fix_status (pi_cluster p) = None \/ fix_status (pi_cluster p) = Some open).
Proof.
unfold assembleBuckets. cbn [newTopIssues]. intros Hin. bucket_origin Hin.
repeat split; try assumption.
destruct (fix_status c) as [[]|]; try discriminate; auto.
Qed.

Lemma monitoringIssues_In (scored : list (Cluster num)) (p : PriorityIssue num) :
  In p (monitoringIssues (assembleBuckets config scored)) ->
  In (pi_cluster p) scored
  /\ (count (pi_cluster p) >? jofZ 1)%js = true
  /\ fix_status (pi_cluster p) = Some fix_deployed.
Proof.
unfold assembleBuckets. cbn [monitoringIssues]. intros Hin. bucket_origin Hin.
repeat split; try assumption.
destruct (fix_status c) as [[]|]; try discriminate; auto.
Qed.

Lemma failedFixes_In (scored : list (Cluster num)) (p : PriorityIssue num) :
  In p (failedFixes (assembleBuckets config scored)) ->
  In (pi_cluster p) scored
  /\ (count (pi_cluster p) >? jofZ 1)%js = true
  /\ fix_status (pi_cluster p) = Some failed.
Proof.
unfold assembleBuckets. cbn [failedFixes]. intros Hin. bucket_origin Hin.
repeat split; try assumption.
destruct (fix_status c) as [[]|]; try discriminate; auto.
Qed.

Lemma individualSupport_In (scored : list (Cluster num)) (p : PriorityIssue num) :
  In p (individualSupport (assembleBuckets config scored)) ->
  In (pi_cluster p) scored /\ (count (pi_cluster p) === jofZ 1)%js = true.
Proof.
unfold assembleBuckets. cbn [individualSupport]. intros Hin. bucket_origin Hin.
split; assumption.
Qed.

Lemma positiveSupport_In (scored : list (Cluster num)) (p : PriorityIssue num) :
  In p (positiveSupport (assembleBuckets config scored)) ->
  In (pi_cluster p) scored /\ (count (pi_cluster p) === jofZ 1)%js = true.
Proof.
unfold assembleBuckets. cbn [positiveSupport]. intros Hin. bucket_origin Hin.
split; assumption.
Qed.

Lemma top_issues_In (scored : list (Cluster num)) (p : PriorityIssue num) :
  In p (top_issues (assembleDigest config scored)) ->
  In p (newTopIssues (assembleBuckets config scored))
  \/ In p (monitoringIssues (assembleBuckets config scored))
  \/ In p (failedFixes (assembleBuckets config scored)).
Proof.
unfold assembleDigest. cbn [top_issues]. rewrite !in_app_iff.
intros [Hin | [Hin | Hin]]; auto; apply filter_In in Hin; tauto.
Qed.

(** Every cluster of the digest is a cluster of the scored working set. *)
Lemma digest_In (scored : list (Cluster num)) (p : PriorityIssue num) :
  In p (top_issues (assembleDigest config scored))
  \/ In p (individual_support (assembleDigest config scored))
  \/ In p (positive_feedback (assembleDigest config scored)) ->
  In (pi_cluster p) scored.
Proof.
intros [Hin | [Hin | Hin]].
- apply top_issues_In in Hin. destruct Hin as [Hin | [Hin | Hin]].
  + now apply newTopIssues_In in Hin.
  + now apply monitoringIssues_In in Hin.
  + now apply failedFixes_In in Hin.
- now apply individualSupport_In in Hin.
- now apply positiveSupport_In in Hin.
Qed.

(** The part of C8 that holds: no resolved cluster among the general issues. *)
Lemma resolved_not_in_top_issues (scored : list (Cluster num)) (p : PriorityIssue num) :
  In p (top_issues (assembleDigest config scored)) ->
  fix_status (pi_cluster p) <> Some resolved.
Proof.
intros Hin. apply top_issues_In in Hin. destruct Hin as [Hin | [Hin | Hin]].
- apply newTopIssues_In in Hin. destruct Hin as [_ [_ [E | E]]]; congruence.
- apply monitoringIssues_In in Hin. destruct Hin as [_ [_ E]]; congruence.
- apply failedFixes_In in Hin. destruct Hin as [_ [_ E]]; congruence.
Qed.
End Assembly.

(** C8.  A resolved cluster with a single member is placed in the digest:
    among the individual support cases, or in the positive feedback when its
    text is one of thanks.  The two lists are built from the clusters with
    one member without a look at [fix_status].  The third case is a cluster
    whose fix is deployed and which the evaluation of the same pass
    resolves. *)
Theorem resolved_singleton_in_digest :
  (let c := resolved_singleton "Export button does nothing" in
   fix_status c = Some resolved
   /\ map (@pi_cluster float) (individual_support (assembleDigest defaultConfig [c])) = [c])
  /\ (let c := resolved_singleton "Thanks, works great now" in
      fix_status c = Some resolved
      /\ map (@pi_cluster float) (positive_feedback (assembleDigest defaultConfig [c])) = [c])
  /\ (let c := fst (evaluateFix sample_env64 deployed_singleton empty_db64) in
      fix_status c = Some resolved
      /\ map (@pi_cluster float)
           (individual_support
              (assembleDigest defaultConfig
                 (fst (evaluateFixes sample_env64 [deployed_singleton] empty_db64))))
         = [c]).
Proof. repeat split; vm_compute; reflexivity. Qed.

(** ** Priority score *)

Section PriorityExact.
Variable env : Env R.
Local Open Scope R_scope.

(** The effective severity either follows the severity of the cluster or
    does not depend on it. *)
Lemma effectiveSeverity_with_severity (c : Cluster R) :
  (forall s, effectiveSeverity (with_severity c s) = s)
  \/ (exists k, forall s, effectiveSeverity (with_severity c s) = k).
Proof.
unfold effectiveSeverity, with_severity. simpl.
destruct (status_is (fix_status c) fix_deployed && str_truthy (current_severity c)).
- right. eexists. intros s. reflexivity.
- destruct (status_is (fix_status c) failed); [|left; reflexivity].
  destruct (original_severity c) as [[|a o]|]; simpl.
  + left. reflexivity.
  + right. eexists. intros s. reflexivity.
  + left. reflexivity.
Qed.

Lemma score_with_severity (config : Config R) (c : Cluster R) (s : string) :
  calculatePriorityScore env config (with_severity c s)
  = severityScore (effectiveSeverity (with_severity c s)) * severityWeight config
    + frequencyScore c * frequencyWeight config
    + recencyScore env c * recencyWeight config
    + negativityScore c * sentimentWeight config.
Proof. reflexivity. Qed.

Lemma score_severity_le (config : Config R) (c : Cluster R) (s1 s2 : string) :
  0 <= severityWeight config ->
  severityScore (num := R) s1 <= severityScore (num := R) s2 ->
  calculatePriorityScore env config (with_severity c s1)
  <= calculatePriorityScore env config (with_severity c s2).
Proof.
intros Hw Hs. rewrite !score_with_severity.
destruct (effectiveSeverity_with_severity c) as [Hid | [k Hk]].
- rewrite !Hid. nra.
- rewrite !Hk. lra.
Qed.

Lemma log10_le (x y : R) : 0 < x -> x <= y -> jlog10 x <= jlog10 y.
Proof.
intros Hx Hxy. simpl. unfold Rdiv.
assert (0 < ln 10) by (rewrite <- ln_1; apply ln_increasing; lra).
apply Rmult_le_compat_r; [left; now apply Rinv_0_lt_compat|].
destruct Hxy as [Hlt | ->]; [left; now apply ln_increasing | right; reflexivity].
Qed.

Lemma frequencyScore_le (c : Cluster R) (n1 n2 : R) :
  0 <= n1 -> n1 <= n2 ->
  frequencyScore (with_count c n1) <= frequencyScore (with_count c n2).
Proof.
intros H0 H12. unfold frequencyScore, with_count. cbn [count set_matched jmin exact].
assert (Hl : jlog10 (n1 + 1) <= jlog10 (n2 + 1)) by (apply log10_le; lra).
cbn [jadd jofZ jmul exact].
unfold Rmin. repeat destruct (Rle_dec _ _); lra.
Qed.

Lemma score_count_le (config : Config R) (c : Cluster R) (n1 n2 : R) :
  0 <= frequencyWeight config -> 0 <= n1 -> n1 <= n2 ->
  calculatePriorityScore env config (with_count c n1)
  <= calculatePriorityScore env config (with_count c n2).
Proof.
intros Hw H0 H12. pose proof (frequencyScore_le c H0 H12) as Hf.
unfold calculatePriorityScore.
change (effectiveSeverity (with_count c n1)) with (effectiveSeverity c).
change (effectiveSeverity (with_count c n2)) with (effectiveSeverity c).
change (recencyScore env (with_count c n1)) with (recencyScore env c).
change (recencyScore env (with_count c n2)) with (recencyScore env c).
change (negativityScore (with_count c n1)) with (negativityScore c).
change (negativityScore (with_count c n2)) with (negativityScore c).
cbn [jadd jmul exact]. nra.
Qed.

Lemma severityScore_order :
  severityScore (num := R) "P1" <= severityScore (num := R) "P0"
  /\ severityScore (num := R) "P2" <= severityScore (num := R) "P1"
  /\ severityScore (num := R) "P3" <= severityScore (num := R) "P2".
Proof.
unfold severityScore. cbn [String.eqb Ascii.eqb Bool.eqb andb jofZ exact].
repeat split; lra.
Qed.

Lemma default_weights_nonneg :
  0 <= severityWeight (defaultConfig (num := R))
  /\ 0 <= frequencyWeight (defaultConfig (num := R))
  /\ 0 <= recencyWeight (defaultConfig (num := R))
  /\ 0 <= sentimentWeight (defaultConfig (num := R)).
Proof. unfold defaultConfig, jdec; simpl. repeat split; lra. Qed.
End PriorityExact.

(** C9.  Under exact arithmetic and with the default weights, of two
    clusters that differ in severity only the one with the more urgent
    severity has a score at least as large (P0, P1, P2, P3 in this order),
    and of two clusters that differ in member count only the one with more
    members has a score at least as large. *)
Theorem priority_score_monotone :
  forall (env : Env R) (c : Cluster R),
    let score := calculatePriorityScore env defaultConfig in
    (score (with_severity c "P1") <= score (with_severity c "P0")
     /\ score (with_severity c "P2") <= score (with_severity c "P1")
     /\ score (with_severity c "P3") <= score (with_severity c "P2"))%R
    /\ (forall n1 n2 : R,
          (0 <= n1)%R -> (n1 <= n2)%R ->
          (score (with_count c n1) <= score (with_count c n2))%R).
Proof.
intros env c score. destruct default_weights_nonneg as [Hs [Hf _]].
split; [repeat split|].
- apply score_severity_le; [exact Hs | apply severityScore_order].
- apply score_severity_le; [exact Hs | apply severityScore_order].
- apply score_severity_le; [exact Hs | apply severityScore_order].
- intros n1 n2 H0 H12. now apply score_count_le.
Qed.

(** C9 at a cluster with one and with two members. *)
Lemma priority_score_monotone_witness :
  (calculatePriorityScore sample_envR defaultConfig (with_count sample_clusterR 1)
   <= calculatePriorityScore sample_envR defaultConfig (with_count sample_clusterR 2))%R.
Proof.
apply (proj2 (priority_score_monotone sample_envR sample_clusterR)); lra.
Defined.

(** ** Clusters left out of the working set *)

Lemma set_nth_In (A : Type) (i : nat) (x y : A) (l : list A) :
  In y (set_nth i x l) -> y = x \/ In y l.
Proof.
revert i. induction l as [|z l IH]; intros [|i]; simpl; try tauto.
- intuition congruence.
- intros [-> | Hin]; auto. destruct (IH i Hin); auto.
Qed.

Lemma filter_map_In (A B : Type) (f : A -> option B) (l : list A) (y : B) :
  In y (filter_map f l) -> exists x, In x l /\ f x = Some y.
Proof.
induction l as [|x l IH]; simpl; [tauto|].
destruct (f x) as [z|] eqn:E.
- intros [<- | Hin]; [exists x; auto|].
  destruct (IH Hin) as [x0 [H0 E0]]. exists x0; auto.
- intros Hin. destruct (IH Hin) as [x0 [H0 E0]]. exists x0; auto.
Qed.

Section LeftOut.
Context {num : Type} `{JsNumber num}.
Variable env : Env num.
Variable config : Config num.
Variable row : ClusterRow num.

Lemma parse_cluster_row_Some (r : ClusterRow num) (c : Cluster num) :
  parse_cluster_row env r = Some c ->
  cluster_id c = row_cluster_id r
  /\ exists x xs, centroid_json env (row_centroid r) = ParsedArray (x :: xs).
Proof.
unfold parse_cluster_row.
destruct (centroid_json env (row_centroid r)) as [| |[|x xs]];
  try discriminate;
  destruct (top_sources_json env (row_top_sources r)); try discriminate.
intros E. injection E as <-. split; [reflexivity | eauto].
Qed.

Lemma parse_cluster_row_bad_centroid (r : ClusterRow num) :
  (forall x xs, centroid_json env (row_centroid r) <> ParsedArray (x :: xs)) ->
  parse_cluster_row env r = None.
Proof.
intros Hbad. destruct (parse_cluster_row env r) as [c|] eqn:E; [|reflexivity].
apply parse_cluster_row_Some in E. destruct E as [_ [x [xs Hc]]].
elim (Hbad x xs Hc).
Qed.

Lemma load_clusters_absent (d : DB num) :
  untouched row d -> not_loaded row env config ->
  absent row (load_clusters env config d).
Proof.
intros [_ Huniq] Hnot c Hin Hid. unfold load_clusters in Hin.
apply filter_map_In in Hin. destruct Hin as [r [Hr Hp]].
unfold select_active_clusters in Hr. apply sort_desc_In, filter_In in Hr.
destruct Hr as [Hr Hactive].
pose proof (parse_cluster_row_Some _ Hp) as [E _].
assert (r = row) by (apply Huniq; [exact Hr | congruence]).
subst r. destruct Hnot as [Hnone | Hstale]; congruence.
Qed.

Lemma update_untouched (cid : string) (f : ClusterRow num -> ClusterRow num)
    (d : DB num) :
  cid <> row_cluster_id row ->
  (forall r, row_cluster_id (f r) = row_cluster_id r) ->
  untouched row d -> untouched row (update_cluster_row cid f d).
Proof.
intros Hne Hf [Hin Huniq]. unfold untouched, update_cluster_row. simpl. split.
- apply in_map_iff. exists row. split; [|exact Hin].
  destruct (String.eqb_spec (row_cluster_id row) cid); [congruence | reflexivity].
- intros r Hr Hid. apply in_map_iff in Hr. destruct Hr as [r0 [E Hr0]].
  destruct (String.eqb_spec (row_cluster_id r0) cid) as [Heq | Hneq].
  + subst r. rewrite Hf in Hid. congruence.
  + subst r. now apply Huniq.
Qed.

Lemma insert_row_untouched (r : ClusterRow num) (d : DB num) :
  row_cluster_id r <> row_cluster_id row ->
  untouched row d -> untouched row (insert_cluster_row r d).
Proof.
intros Hne [Hin Huniq]. unfold untouched, insert_cluster_row. simpl. split.
- apply in_app_iff. now left.
- intros r0 Hr0 Hid. apply in_app_iff in Hr0. destruct Hr0 as [Hr0 | [<- | []]].
  + now apply Huniq.
  + contradiction.
Qed.

Lemma insert_member_untouched (cid fid : string) (d : DB num) :
  untouched row d -> untouched row (insert_member cid fid d).
Proof. intros Hu. exact Hu. Qed.

Hypothesis fresh : forall n, randomUUID env n <> row_cluster_id row.

Lemma cluster_step_left_out (ac : list string) (st : PassState) (f : Feedback num) :
  absent row (clusters st) -> untouched row (db st) ->
  absent row (clusters (cluster_step env config ac st f))
  /\ untouched row (db (cluster_step env config ac st f)).
Proof.
intros Ha Hu. unfold cluster_step.
destruct (Str.mem (id f) (processed st)); [auto|].
destruct (Str.mem (id f) ac); [auto|].
assert (Hnew : forall cls emb, absent row (clusters st ++
                 [newCluster (randomUUID env (uuids st)) cls f emb])).
{ intros cls emb c Hin. apply in_app_iff in Hin. destruct Hin as [Hin | [<- | []]].
  - now apply Ha.
  - apply fresh. }
destruct (UserSpecific.isUserSpecificFeedback (content f)).
{ simpl. split; [apply Hnew|].
  apply insert_member_untouched, insert_row_untouched; [apply fresh | exact Hu]. }
destruct (findMatch env config (content f) (generateEmbedding env (content f))
            (clusters st)) as [[i m]|] eqn:Hm.
- apply findMatch_not_user_specific in Hm. destruct Hm as [Hn _].
  apply nth_error_In in Hn. pose proof (Ha m Hn) as Hmid.
  simpl. split.
  + intros c Hin. apply set_nth_In in Hin. destruct Hin as [-> | Hin].
    * exact Hmid.
    * now apply Ha.
  + apply update_untouched; [exact Hmid | reflexivity|].
    destruct (member_exists _ _ _); [exact Hu | now apply insert_member_untouched].
- simpl. split; [apply Hnew|].
  assert (Hu' : untouched row
            (insert_cluster_row
               (newClusterRow env (randomUUID env (uuids st))
                  (issue_title (cr_category (classifyFeedback env (content f))))
                  (classifyFeedback env (content f)) f
                  (generateEmbedding env (content f))) (db st)))
    by (apply insert_row_untouched; [apply fresh | exact Hu]).
  destruct (member_exists _ _ _); [exact Hu' | now apply insert_member_untouched].
Qed.

Lemma pass_left_out (ac : list string) (fs : list (Feedback num)) :
  forall st : PassState,
    absent row (clusters st) -> untouched row (db st) ->
    absent row (clusters (fold_left (cluster_step env config ac) fs st))
    /\ untouched row (db (fold_left (cluster_step env config ac) fs st)).
Proof.
induction fs as [|f fs IH]; intros st Ha Hu; simpl; [auto|].
destruct (@cluster_step_left_out ac st f Ha Hu) as [Ha' Hu']. now apply IH.
Qed.

Lemma for_each_left_out (body : Cluster num -> DB num -> Cluster num * DB num) :
  (forall c d, cluster_id c <> row_cluster_id row -> untouched row d ->
               cluster_id (fst (body c d)) = cluster_id c
               /\ untouched row (snd (body c d))) ->
  forall (cs : list (Cluster num)) (d : DB num),
    absent row cs -> untouched row d ->
    absent row (fst (for_each body cs d)) /\ untouched row (snd (for_each body cs d)).
Proof.
intros Hb. induction cs as [|c cs IH]; intros d Ha Hu; simpl.
- split; [intros c [] | exact Hu].
- destruct (Hb c d (Ha c (or_introl eq_refl)) Hu) as [Hid Hu'].
  destruct (body c d) as [c' d']. simpl in Hid, Hu'.
  destruct (IH d' (fun x Hx => Ha x (or_intror Hx)) Hu') as [Ha'' Hu''].
  destruct (for_each body cs d') as [l'' d'']. simpl in *. split; [|exact Hu''].
  intros x [<- | Hx]; [rewrite Hid; apply Ha; now left | now apply Ha''].
Qed.

Lemma evaluateFix_left_out (c : Cluster num) (d : DB num) :
  cluster_id c <> row_cluster_id row -> untouched row d ->
  cluster_id (fst (evaluateFix env c d)) = cluster_id c
  /\ untouched row (snd (evaluateFix env c d)).
Proof.
intros Hne Hu. unfold evaluateFix.
repeat match goal with |- context [if ?b then _ else _] => destruct b end;
  simpl; (split; [reflexivity|]); try exact Hu;
  apply update_untouched; auto.
Qed.
End LeftOut.

Section LeftOutDigest.
Context {num : Type} `{JsMath num}.
Variable env : Env num.
Variable config : Config num.
Variable row : ClusterRow num.

Lemma scoreCluster_left_out (c : Cluster num) (d : DB num) :
  cluster_id c <> row_cluster_id row -> untouched row d ->
  cluster_id (fst (scoreCluster env config c d)) = cluster_id c
  /\ untouched row (snd (scoreCluster env config c d)).
Proof.
intros Hne Hu. unfold scoreCluster. simpl. split; [reflexivity|].
apply update_untouched; auto.
Qed.

Lemma summarize_left_out (c : Cluster num) (d : DB num) :
  cluster_id c <> row_cluster_id row -> untouched row d ->
  cluster_id (fst (summarize env c d)) = cluster_id c
  /\ untouched row (snd (summarize env c d)).
Proof.
intros Hne Hu. unfold summarize. simpl. split; [reflexivity|].
apply update_untouched; auto.
Qed.

Lemma mark_processed_untouched (d : DB num) :
  untouched row d -> untouched row (mark_processed d).
Proof. intros Hu. exact Hu. Qed.
End LeftOutDigest.

(** A row that the pass does not load, because [parse_cluster_row] rejects
    it or because it was last seen before the lookback window, is left out
    of everything the pass and the digest do. *)
Lemma not_loaded_row_left_out :
  forall (num : Type) (N : JsNumber num) (M : JsMath num) (env : Env num)
         (config : Config num) (d0 : DB num) (uuids0 : nat) (row : ClusterRow num),
    In row (clusters_tbl d0) ->
    (forall r, In r (clusters_tbl d0) ->
               row_cluster_id r = row_cluster_id row -> r = row) ->
    not_loaded row env config ->
    (forall n, randomUUID env n <> row_cluster_id row) ->
    (forall c, In c (load_clusters env config d0) ->
               cluster_id c <> row_cluster_id row)
    /\ (forall feedbacks,
          let st := clusterFeedbacksWithEmbeddings env config d0 uuids0 feedbacks in
          (forall c, In c (clusters st) -> cluster_id c <> row_cluster_id row)
          /\ In row (clusters_tbl (db st)))
    /\ (let run := generateMorningDigest env config d0 uuids0 in
        (forall c, In c (run_clusters run) -> cluster_id c <> row_cluster_id row)
        /\ In row (clusters_tbl (run_db run))
        /\ (forall r, In r (clusters_tbl (run_db run)) ->
                      row_cluster_id r = row_cluster_id row -> r = row)
        /\ (forall dg p, run_digest run = Some dg ->
              In p (top_issues dg) \/ In p (individual_support dg)
              \/ In p (positive_feedback dg) ->
              cluster_id (pi_cluster p) <> row_cluster_id row)).
Proof.
intros num N M env config d0 uuids0 row Hin Huniq Hnot Hfresh.
assert (Hu0 : untouched row d0) by (split; assumption).
pose proof (load_clusters_absent Hu0 Hnot) as Ha0.
assert (Hpass : forall feedbacks,
          let st := clusterFeedbacksWithEmbeddings env config d0 uuids0 feedbacks in
          absent row (clusters st) /\ untouched row (db st)).
{ intros feedbacks. unfold clusterFeedbacksWithEmbeddings.
  apply pass_left_out; assumption. }
split; [exact Ha0|]. split.
{ intros feedbacks st. destruct (Hpass feedbacks) as [Ha [Hi _]]. split; assumption. }
unfold generateMorningDigest.
destruct (select_unprocessed d0) as [|f fs] eqn:Hsel.
{ simpl. split; [intros c []|]. split; [exact Hin|]. split; [exact Huniq|].
  intros dg p E. discriminate. }
destruct (Hpass (f :: fs)) as [Ha Hu].
set (st := clusterFeedbacksWithEmbeddings env config d0 uuids0 (f :: fs)) in *.
assert (H1 : absent row (fst (for_each (evaluateFix env) (clusters st) (db st)))
             /\ untouched row (snd (for_each (evaluateFix env) (clusters st) (db st)))).
{ apply for_each_left_out; try assumption.
  intros c d Hc Hd. now apply evaluateFix_left_out. }
unfold evaluateFixes.
destruct (for_each (evaluateFix env) (clusters st) (db st)) as [cs1 d1].
destruct H1 as [Ha1 Hu1]. simpl in Ha1, Hu1.
assert (H2 : absent row (fst (for_each (scoreCluster env config) cs1 d1))
             /\ untouched row (snd (for_each (scoreCluster env config) cs1 d1))).
{ apply for_each_left_out; try assumption.
  intros c d Hc Hd. now apply scoreCluster_left_out. }
destruct (for_each (scoreCluster env config) cs1 d1) as [cs2 d2].
destruct H2 as [Ha2 Hu2]. simpl in Ha2, Hu2.
assert (H3 : absent row (fst (for_each (summarize env) cs2 d2))
             /\ untouched row (snd (for_each (summarize env) cs2 d2))).
{ apply for_each_left_out; try assumption.
  intros c d Hc Hd. now apply summarize_left_out. }
destruct (for_each (summarize env) cs2 d2) as [cs3 d3].
destruct H3 as [Ha3 Hu3]. simpl in Ha3, Hu3. simpl.
assert (Hu4 : untouched row (if sendTelegramMessage env then mark_processed d3 else d3)).
{ destruct (sendTelegramMessage env); [now apply mark_processed_untouched | exact Hu3]. }
split; [exact Ha3|]. split; [apply Hu4|]. split; [apply Hu4|].
intros dg p E Hp. injection E as <-. apply Ha3. now apply (digest_In config).
Qed.

(** C10.  Let a row of [clusters], the only one with its key, have a
    centroid column that does not parse to a non-empty array, and let the
    identifier generator never return its key.  Then no cluster loaded from
    the table has this key, no cluster of the working set of the clustering
    pass has it, whatever the batch, and the row stays in the table as it
    was; and a run of the digest has no cluster with this key in its scored
    working set, to which the fix evaluation, the scoring and the summaries
    apply, nor in any list of the digest, and leaves the row in the table as
    it was. *)
Theorem invalid_centroid_cluster_left_out :
  forall (num : Type) (N : JsNumber num) (M : JsMath num) (env : Env num)
         (config : Config num) (d0 : DB num) (uuids0 : nat) (row : ClusterRow num),
    In row (clusters_tbl d0) ->
    (forall r, In r (clusters_tbl d0) ->
               row_cluster_id r = row_cluster_id row -> r = row) ->
    (forall x xs, centroid_json env (row_centroid row) <> ParsedArray (x :: xs)) ->
    (forall n, randomUUID env n <> row_cluster_id row) ->
    (forall c, In c (load_clusters env config d0) ->
               cluster_id c <> row_cluster_id row)
    /\ (forall feedbacks,
          let st := clusterFeedbacksWithEmbeddings env config d0 uuids0 feedbacks in
          (forall c, In c (clusters st) -> cluster_id c <> row_cluster_id row)
          /\ In row (clusters_tbl (db st)))
    /\ (let run := generateMorningDigest env config d0 uuids0 in
        (forall c, In c (run_clusters run) -> cluster_id c <> row_cluster_id row)
        /\ In row (clusters_tbl (run_db run))
        /\ (forall r, In r (clusters_tbl (run_db run)) ->
                      row_cluster_id r = row_cluster_id row -> r = row)
        /\ (forall dg p, run_digest run = Some dg ->
              In p (top_issues dg) \/ In p (individual_support dg)
              \/ In p (positive_feedback dg) ->
              cluster_id (pi_cluster p) <> row_cluster_id row)).
Proof.
intros num N M env config d0 uuids0 row Hin Huniq Hbad Hfresh.
apply not_loaded_row_left_out; try assumption.
left. now apply parse_cluster_row_bad_centroid.
Qed.

(** The same holds for a cluster last seen before the lookback window: when
    its fix is deployed, a run of the digest neither evaluates the fix nor
    counts a report for it, whatever the time since the deployment. *)
Lemma stale_cluster_fix_not_evaluated :
  forall (num : Type) (N : JsNumber num) (M : JsMath num) (env : Env num)
         (config : Config num) (d0 : DB num) (uuids0 : nat) (row : ClusterRow num),
    In row (clusters_tbl d0) ->
    (forall r, In r (clusters_tbl d0) ->
               row_cluster_id r = row_cluster_id row -> r = row) ->
    (row_last_seen row >? now env - lookbackMs config)%js = false ->
    (forall n, randomUUID env n <> row_cluster_id row) ->
    let run := generateMorningDigest env config d0 uuids0 in
    (forall c, In c (run_clusters run) -> cluster_id c <> row_cluster_id row)
    /\ In row (clusters_tbl (run_db run))
    /\ (forall r, In r (clusters_tbl (run_db run)) ->
                  row_cluster_id r = row_cluster_id row ->
                  row_fix_status r = row_fix_status row
                  /\ row_reports_after_fix r = row_reports_after_fix row).
Proof.
intros num N M env config d0 uuids0 row Hin Huniq Hstale Hfresh run.
destruct (@not_loaded_row_left_out num N M env config d0 uuids0 row Hin Huniq
            (or_intror Hstale) Hfresh) as [_ [_ [Ha [Hi [Hu _]]]]].
fold run in Ha, Hi, Hu. split; [exact Ha|]. split; [exact Hi|].
intros r Hr Hid. rewrite (Hu r Hr Hid). auto.
Qed.


(** C10 at a table whose only row has the centroid column [oops], which is
    not JSON. *)
Lemma invalid_centroid_cluster_left_out_witness :
  In bad_row (clusters_tbl (run_db (generateMorningDigest sample_envR defaultConfig
                                      bad_db 0))).
Proof.
apply (@invalid_centroid_cluster_left_out R exact exact_math sample_envR
         defaultConfig bad_db 0 bad_row).
- left. reflexivity.
- intros r [<- | []] _. reflexivity.
- intros x xs. simpl. discriminate.
- intros n. unfold sample_uuid. simpl. discriminate.
Defined.

(** ** The program on sample inputs *)

(** The scenario of the specification: an item close to the crash cluster
    joins it, and the user-specific singleton that precedes it in the
    working set, with the same centroid, is passed over. *)
Example findMatch_skips_user_cluster :
  findMatch sample_env64 defaultConfig "my account is locked" [1; 0]%float
            [user_cluster; crash_cluster]
  = Some (1%nat, crash_cluster).
Proof. vm_compute. reflexivity. Qed.

Example isUserSpecificFeedback_samples :
  UserSpecific.isUserSpecificFeedback "My account shows the wrong plan" = true
  /\ UserSpecific.isUserSpecificFeedback "Order number: 12345 is missing" = true
  /\ UserSpecific.isUserSpecificFeedback "need help with my broken data" = true
  /\ UserSpecific.isUserSpecificFeedback "my app crashes when opening billing" = false
  /\ UserSpecific.isUserSpecificFeedback "App crashes on resume" = false.
Proof. repeat split; vm_compute; reflexivity. Qed.

Example extractKeyPhrases_sample :
  TextMatch.extractKeyPhrases
    "App crashes on resume, Login crash and dark mode  toggle broken; can't login"
  = ["login crash"; "crashes"; "crash"; "can't login"; "dark mode";
     "toggle broken"; "dark mode  toggle"; "theme_bug"; "resume_crash"]%string.
Proof. vm_compute. reflexivity. Qed.

Example significantWords_sample :
  TextMatch.significantWords "the app, crashes on resume!"
  = ["app"; "crashes"; "resume"]%string.
Proof. vm_compute. reflexivity. Qed.

(** In binary64 the quotient 1/7 is below the product (5/7) * 0.2, which
    exact arithmetic makes equal: the fix counts as one that worked. *)
Example fix_boundary_binary64 :
  fix_status (fst (evaluateFix sample_env64 boundary_cluster empty_db64))
  = Some resolved.
Proof. vm_compute. reflexivity. Qed.

(** A resolved cluster of 50 reports is in no list of the digest. *)
Example resolved_general_cluster_not_in_digest :
  assembleDigest defaultConfig
    (fst (evaluateFixes sample_env64 [deployed_cluster (Some 50%float)] empty_db64))
  = {| top_issues := []; individual_support := []; positive_feedback := [] |}.
Proof. vm_compute. reflexivity. Qed.
(* ================================================================== *)
(** * Further properties *)
(* ================================================================== *)

(** ** Strings *)

Lemma string_app_assoc (a b c : string) : ((a ++ b) ++ c = a ++ (b ++ c))%string.
Proof. induction a as [|x a IH]; simpl; [reflexivity | now rewrite IH]. Qed.

Lemma string_length_app (a b : string) :
  String.length (a ++ b) = (String.length a + String.length b)%nat.
Proof. induction a as [|x a IH]; simpl; [reflexivity | now rewrite IH]. Qed.

Lemma chars_app (a b : string) :
  Str.chars (a ++ b) = (Str.chars a ++ Str.chars b)%list.
Proof. induction a as [|x a IH]; simpl; [reflexivity | now rewrite IH]. Qed.

Lemma chars_length (s : string) : List.length (Str.chars s) = String.length s.
Proof. induction s as [|x s IH]; simpl; [reflexivity | now rewrite IH]. Qed.

(** ** Escaping *)

Section Escaping.
Import Html.
Local Open Scope string_scope.

Lemma replace_char_app (c : ascii) (rep a b : string) :
  replace_char c rep (a ++ b) = replace_char c rep a ++ replace_char c rep b.
Proof.
induction a as [|x a IH]; simpl; [reflexivity|].
destruct (Ascii.eqb x c); simpl; rewrite IH; [|reflexivity].
now rewrite string_app_assoc.
Qed.

Lemma escapeHtml_cons (c : ascii) (s : string) :
  escapeHtml (String c s)
  = match entity c with
    | Some e => e ++ escapeHtml s
    | None => String c (escapeHtml s)
    end.
Proof.
unfold escapeHtml, entity.
destruct (Ascii.eqb_spec c "&") as [-> | Hamp]; [reflexivity|].
destruct (Ascii.eqb_spec c "<") as [-> | Hlt]; [reflexivity|].
destruct (Ascii.eqb_spec c ">") as [-> | Hgt]; [reflexivity|].
destruct (Ascii.eqb_spec c quote) as [-> | Hq]; [reflexivity|].
destruct (Ascii.eqb_spec c apostrophe) as [-> | Ha]; [reflexivity|].
apply Ascii.eqb_neq in Hamp, Hlt, Hgt, Hq, Ha.
cbn [replace_char]. rewrite Hamp. cbn [replace_char].
rewrite Hlt. cbn [replace_char]. rewrite Hgt. cbn [replace_char].
rewrite Hq. cbn [replace_char]. rewrite Ha. reflexivity.
Qed.

Lemma escapeHtml_single_pass (s : string) : escapeHtml s = escape_each s.
Proof.
induction s as [|c s IH]; [reflexivity|].
rewrite escapeHtml_cons. simpl. now rewrite IH.
Qed.
Lemma unescape_plain (c : ascii) (r : string) :
  Ascii.eqb c "&" = false -> unescape (String c r) = String c (unescape r).
Proof.
intros Hc. destruct c as [[] [] [] [] [] [] [] []]; try reflexivity; discriminate.
Qed.

Lemma entity_None (c : ascii) :
  entity c = None ->
  Ascii.eqb c "&" = false /\ Ascii.eqb c "<" = false /\ Ascii.eqb c ">" = false
  /\ Ascii.eqb c quote = false /\ Ascii.eqb c apostrophe = false.
Proof.
unfold entity.
destruct (Ascii.eqb c "&"); [discriminate|].
destruct (Ascii.eqb c "<"); [discriminate|].
destruct (Ascii.eqb c ">"); [discriminate|].
destruct (Ascii.eqb c quote); [discriminate|].
destruct (Ascii.eqb c apostrophe); [discriminate|]. auto.
Qed.

Lemma entity_Some (c : ascii) (e : string) :
  entity c = Some e ->
  (c = "&"%char /\ e = "&amp;") \/ (c = "<"%char /\ e = "&lt;")
  \/ (c = ">"%char /\ e = "&gt;") \/ (c = quote /\ e = "&quot;")
  \/ (c = apostrophe /\ e = "&#39;").
Proof.
unfold entity.
destruct (Ascii.eqb_spec c "&"); [intros [= <-]; auto|].
destruct (Ascii.eqb_spec c "<"); [intros [= <-]; auto|].
destruct (Ascii.eqb_spec c ">"); [intros [= <-]; auto|].
destruct (Ascii.eqb_spec c quote); [intros [= <-]; auto 6|].
destruct (Ascii.eqb_spec c apostrophe); [intros [= <-]; auto 6|]. discriminate.
Qed.

Lemma unescape_escape_each (s : string) : unescape (escape_each s) = s.
Proof.
induction s as [|c s IH]; [reflexivity|]. simpl.
destruct (entity c) as [e|] eqn:E.
- apply entity_Some in E.
  destruct E as [[-> ->] | [[-> ->] | [[-> ->] | [[-> ->] | [-> ->]]]]];
    cbn; now rewrite IH.
- apply entity_None in E. destruct E as [E _].
  rewrite unescape_plain by exact E. now rewrite IH.
Qed.

Lemma escape_each_no_special (s : string) :
  forallb (fun c => negb (special c)) (Str.chars (escape_each s)) = true.
Proof.
induction s as [|c s IH]; [reflexivity|]. simpl.
destruct (entity c) as [e|] eqn:E.
- apply entity_Some in E.
  destruct E as [[-> ->] | [[-> ->] | [[-> ->] | [[-> ->] | [-> ->]]]]];
    cbn; exact IH.
- apply entity_None in E. destruct E as [_ [E1 [E2 [E3 E4]]]].
  cbn [Str.chars list_ascii_of_string forallb]. unfold special at 1.
  rewrite E1, E2, E3, E4. exact IH.
Qed.
End Escaping.

(** X1.  [escapeHtml] (the helper of [formatInstantAlert] and of
    [formatMorningDigest]) replaces each character once, in one pass: the
    five chained [replace] calls never escape the ampersand of an entity they
    produced.  Its result holds none of the characters that open or close a
    tag or an attribute, and is never shorter than the text. *)
Theorem escapeHtml_output_is_safe :
  forall text : string,
    Html.escapeHtml text = escape_each text
    /\ forallb (fun c => negb (special c)) (Str.chars (Html.escapeHtml text)) = true
    /\ (String.length text <= String.length (Html.escapeHtml text))%nat.
Proof.
intros text. rewrite escapeHtml_single_pass. split; [reflexivity|].
split; [apply escape_each_no_special|].
induction text as [|c s IH]; simpl; [lia|].
destruct (entity c) as [e|] eqn:E.
- apply entity_Some in E.
  destruct E as [[-> ->] | [[-> ->] | [[-> ->] | [[-> ->] | [-> ->]]]]];
    simpl; lia.
- simpl. lia.
Qed.

(** X2.  [escapeHtml] loses nothing: two texts with the same escaped form
    are the same text. *)
Theorem escapeHtml_injective :
  forall s1 s2 : string, Html.escapeHtml s1 = Html.escapeHtml s2 -> s1 = s2.
Proof.
intros s1 s2 E. rewrite !escapeHtml_single_pass in E.
rewrite <- (unescape_escape_each s1), <- (unescape_escape_each s2). now rewrite E.
Qed.

Lemma escapeHtml_injective_witness :
  Html.escapeHtml "a<b" = Html.escapeHtml "a<b" /\ "a<b"%string = "a<b"%string.
Proof.
split; [reflexivity|]. apply escapeHtml_injective. reflexivity.
Defined.


(** ** Truncation *)

Section Truncation.
Import Telegram.

Lemma of_chars_length (l : list ascii) : String.length (Str.of_chars l) = List.length l.
Proof. induction l as [|x l IH]; simpl; [reflexivity | now rewrite IH]. Qed.

Lemma last_index_absent (pat s : list ascii) :
  Str.includes_chars s pat = false ->
  forall i found, last_index pat s i found = found.
Proof.
induction s as [|x s IH]; simpl; intros Hinc i found.
- apply orb_false_elim in Hinc. destruct Hinc as [-> _]. reflexivity.
- apply orb_false_elim in Hinc. destruct Hinc as [-> Hinc]. now apply IH.
Qed.

Lemma lastIndexOf_absent (s pat : string) :
  Str.includes s pat = false -> lastIndexOf s pat = (-1)%Z.
Proof. intros Hinc. unfold lastIndexOf. now apply last_index_absent. Qed.

Lemma last_index_range (pat s : list ascii) :
  forall i found,
    (-1 <= found < i)%Z ->
    (-1 <= last_index pat s i found < i + Z.of_nat (List.length s) + 1)%Z.
Proof.
induction s as [|x s IH]; intros i found Hf.
- simpl. destruct (Str.starts_with pat []); lia.
- cbn [last_index]. cbn [List.length].
  destruct (Str.starts_with pat (x :: s)).
  + specialize (IH (i + 1)%Z i). lia.
  + specialize (IH (i + 1)%Z found). lia.
Qed.
End Truncation.

(** X3.  [sendTelegramMessage]: a message of at most 4096 characters is
    sent as it is.  A longer one whose text does not hold [*Summary:*] (the
    digest is formatted in HTML and writes [<b>Summary:</b>]) is replaced by
    its first 3896 characters, the note of truncation and, since
    [lastIndexOf] gives -1 and [substring(-1)] is the whole string, the whole
    message again: what is sent is 3943 characters longer than the message
    that was over the limit. *)
Theorem messageToSend_lengths :
  forall message : string,
    ((String.length message <= Telegram.MAX_MESSAGE_LENGTH)%nat ->
     Telegram.messageToSend message = message)
    /\ ((Telegram.MAX_MESSAGE_LENGTH < String.length message)%nat ->
        Str.includes message "*Summary:*" = false ->
        Telegram.messageToSend message
        = (Telegram.substring_to 3896 message ++ Telegram.truncation_note
           ++ message)%string
        /\ String.length (Telegram.messageToSend message)
           = (3896 + 47 + String.length message)%nat).
Proof.
intros message. unfold Telegram.messageToSend. split.
- intros Hle. destruct (Nat.ltb_spec Telegram.MAX_MESSAGE_LENGTH (String.length message));
    [lia | reflexivity].
- intros Hlt Hinc.
  destruct (Nat.ltb_spec Telegram.MAX_MESSAGE_LENGTH (String.length message)); [|lia].
  rewrite (lastIndexOf_absent _ _ Hinc).
  assert (Hall : Telegram.substring_from (-1) message = message).
  { unfold Telegram.substring_from. simpl. apply string_of_list_ascii_of_string. }
  rewrite Hall. split; [reflexivity|].
  rewrite !string_length_app. unfold Telegram.substring_to.
  rewrite of_chars_length, length_firstn, chars_length.
  assert (Hnote : String.length Telegram.truncation_note = 47%nat) by reflexivity.
  rewrite Hnote. unfold Telegram.MAX_MESSAGE_LENGTH in *. lia.
Qed.

Lemma messageToSend_lengths_witness :
  (Telegram.MAX_MESSAGE_LENGTH < String.length long_message)%nat
  /\ String.length (Telegram.messageToSend long_message) = (3896 + 47 + 4097)%nat.
Proof.
assert (Hlong : (Telegram.MAX_MESSAGE_LENGTH < String.length long_message)%nat).
{ apply Nat.ltb_lt. vm_compute. reflexivity. }
split; [exact Hlong|].
destruct (messageToSend_lengths long_message) as [_ Htrunc].
destruct (Htrunc Hlong) as [_ Hlen]; [vm_compute; reflexivity|].
rewrite Hlen. vm_compute. reflexivity.
Defined.


(** ** Routes *)

Section Routes.
Import Router.
Local Open Scope string_scope.

Lemma split_on_segment (seg rest cur : list ascii) :
  forallb (fun c => negb (Ascii.eqb c "/")) seg = true ->
  split_on "/" (seg ++ "/"%char :: rest) cur
  = rev (rev seg ++ cur) :: split_on "/" rest [].
Proof.
revert cur. induction seg as [|x seg IH]; intros cur Hs; simpl in *.
- reflexivity.
- apply andb_prop in Hs. destruct Hs as [Hx Hs].
  apply negb_true_iff in Hx. rewrite Hx. rewrite IH by exact Hs.
  now rewrite <- app_assoc.
Qed.

Lemma starts_with_app (p s : list ascii) : Str.starts_with p (p ++ s) = true.
Proof.
induction p as [|x p IH]; simpl; [reflexivity|]. now rewrite Ascii.eqb_refl.
Qed.

(** X4.  The router of [fetch]: a [POST] to [/clusters/<id>/mark-fixed], or
    to a longer path that starts with [/clusters/<id>/] and ends with
    [/mark-fixed], is dispatched to [handleMarkFixed] with the segment after
    [/clusters/] as the cluster, for every [<id>] without a slash; the same
    path with [GET] is not found. *)
Theorem route_mark_fixed_reads_first_segment :
  forall seg middle : string,
    no_slash seg ->
    (middle = "" \/ exists m, middle = String "/" m) ->
    route "POST" ("/clusters/" ++ seg ++ middle ++ "/mark-fixed") = MarkFixed seg
    /\ route "GET" ("/clusters/" ++ seg ++ middle ++ "/mark-fixed") = NotFound.
Proof.
intros seg middle Hns Hmid.
set (path := "/clusters/" ++ seg ++ middle ++ "/mark-fixed").
assert (Hstart : startsWith path "/clusters/" = true).
{ unfold startsWith, path. rewrite chars_app. apply starts_with_app. }
assert (Hend : endsWith path "/mark-fixed" = true).
{ unfold endsWith, path. rewrite !chars_app, !rev_app_distr, <- !app_assoc.
  apply starts_with_app. }
assert (Hsplit : nth 2 (split_slash path) "" = seg).
{ unfold split_slash, path. rewrite !chars_app.
  assert (Hrest : exists rest,
            (Str.chars middle ++ Str.chars "/mark-fixed")%list = "/"%char :: rest).
  { destruct Hmid as [-> | [m ->]]; simpl; eauto. }
  destruct Hrest as [rest ->]. simpl.
  rewrite split_on_segment by exact Hns.
  cbn [map nth]. rewrite app_nil_r, rev_involutive.
  apply string_of_list_ascii_of_string. }
split.
- unfold route. fold path. rewrite Hstart, Hend, Hsplit. reflexivity.
- unfold route. fold path. rewrite Hstart, Hend. reflexivity.
Qed.

Lemma route_mark_fixed_reads_first_segment_witness :
  Router.route "POST" "/clusters/c42/extra/mark-fixed" = Router.MarkFixed "c42".
Proof.
apply (proj1 (@route_mark_fixed_reads_first_segment "c42" "/extra" eq_refl
                (or_intror (ex_intro _ "extra"%string eq_refl)))).
Defined.
End Routes.


(** ** Triage *)

Section TriageFacts.
Local Open Scope string_scope.

Lemma toLowerCase_app (a b : string) :
  Str.toLowerCase (a ++ b) = Str.toLowerCase a ++ Str.toLowerCase b.
Proof. induction a as [|x a IH]; simpl; [reflexivity | now rewrite IH]. Qed.

Lemma includes_chars_infix (a k b : list ascii) :
  Str.includes_chars (a ++ k ++ b) k = true.
Proof.
induction a as [|x a IH].
- simpl app. destruct (k ++ b)%list eqn:E; simpl.
  + destruct k; [reflexivity | discriminate].
  + rewrite <- E, starts_with_app. reflexivity.
- simpl. rewrite IH. apply orb_true_r.
Qed.

Lemma includes_infix (a k b : string) : Str.includes (a ++ k ++ b) k = true.
Proof. unfold Str.includes. rewrite !chars_app. apply includes_chars_infix. Qed.

Lemma p0Keywords_lower :
  forallb (fun k => String.eqb (Str.toLowerCase k) k) Triage.p0Keywords = true.
Proof. vm_compute. reflexivity. Qed.

Lemma checkP0Keywords_includes (content keyword : string) :
  In keyword Triage.p0Keywords ->
  Str.includes (Str.toLowerCase content) keyword = true ->
  Triage.checkP0Keywords content = true.
Proof.
intros Hin Hinc. unfold Triage.checkP0Keywords.
assert (Hk : Str.toLowerCase keyword = keyword).
{ pose proof p0Keywords_lower as Hall. rewrite forallb_forall in Hall.
  apply String.eqb_eq. now apply Hall. }
assert (Hf : In keyword
               (filter (fun keyword => Str.includes (Str.toLowerCase content)
                                         (Str.toLowerCase keyword))
                       Triage.p0Keywords)).
{ apply filter_In. split; [exact Hin | now rewrite Hk]. }
destruct (filter _ _); [contradiction | reflexivity].
Qed.

Lemma quickClassify_range (content : string) :
  In (fst (Triage.quickClassify content))
     ["crash"; "login"; "payment"; "performance"; "ui"; "feature_request"; "bug";
      "other"]
  /\ In (snd (Triage.quickClassify content)) ["P0"; "P1"; "P2"; "P3"].
Proof.
unfold Triage.quickClassify.
repeat match goal with
       | |- context [if ?b then _ else _] => destruct b
       end; simpl; intuition.
Qed.

Lemma prefix_length (n : nat) (s : string) :
  (String.length (Triage.prefix n s) <= n)%nat.
Proof.
unfold Triage.prefix. rewrite of_chars_length, length_firstn. lia.
Qed.
End TriageFacts.

(** X5.  [triageFeedback]: a text that holds a P0 keyword of the
    configuration, in any letter case and anywhere in the text, is sent as an
    instant alert with severity P0 and confidence 1, whatever the model
    answers (the model is not consulted). *)
Theorem p0_keyword_always_alerts :
  forall (num : Type) (N : JsNumber num) (reply : AiReply num)
         (before keyword after : string),
    In (Str.toLowerCase keyword) Triage.p0Keywords ->
    triageFeedback reply (before ++ keyword ++ after)
    = {| instant_alert := true; classification_severity := "P0";
         classification_confidence := jofZ 1 |}.
Proof.
intros num N reply before keyword after Hin. unfold triageFeedback.
rewrite (@checkP0Keywords_includes _ (Str.toLowerCase keyword)); [reflexivity | exact Hin|].
rewrite !toLowerCase_app. apply includes_infix.
Qed.

Lemma p0_keyword_always_alerts_witness :
  instant_alert
    (triageFeedback (@AiNothing float) "Since the update we see DATA LOSS daily")
  = true.
Proof.
change "Since the update we see DATA LOSS daily"%string
  with ("Since the update we see " ++ "DATA LOSS" ++ " daily")%string.
rewrite (@p0_keyword_always_alerts float binary64 (@AiNothing float)
           "Since the update we see " "DATA LOSS" " daily");
  [reflexivity | vm_compute; tauto].
Defined.

(** X6.  [classifyFeedback] without a usable answer of the model: the
    severity is one of P0..P3, the category one of the eight categories, the
    confidence 0.7 and the summary at most 100 characters long; and when the
    answer of the model lacks the severity (or the category), the rule-based
    one is used in its place. *)
Theorem rule_based_classification_range :
  forall (num : Type) (N : JsNumber num) (content : string),
    let c := classify (@AiNothing num) content in
    In (cl_severity c) levels
    /\ In (cl_category c)
          ["crash"; "login"; "payment"; "performance"; "ui"; "feature_request";
           "bug"; "other"]%string
    /\ cl_confidence c = jdec 7 10
    /\ (String.length (cl_one_line_summary c) <= 100)%nat
    /\ (forall sev cat conf sm pc ps,
          let c' := classify (AiJson sev cat conf sm pc ps) content in
          (str_truthy sev = false -> cl_severity c' = cl_severity c)
          /\ (str_truthy cat = false -> cl_category c' = cl_category c)).
Proof.
intros num N content c. subst c. unfold classify.
pose proof (quickClassify_range content) as [Hc Hs].
destruct (Triage.quickClassify content) as [qc qs]. simpl in *.
split; [exact Hs|]. split; [exact Hc|]. split; [reflexivity|].
split; [apply prefix_length|].
intros sev cat conf sm pc ps. split.
- destruct sev as [[|]|]; try discriminate; reflexivity.
- destruct cat as [[|]|]; try discriminate; reflexivity.
Qed.

Lemma rule_based_classification_range_witness :
  cl_severity
    (classify (AiJson (num := float) None (Some "other"%string) None None
                 "other" "undefined") "checkout is slow")
  = "P2"%string.
Proof.
destruct (@rule_based_classification_range float binary64 "checkout is slow")
  as [_ [_ [_ [_ Hai]]]].
destruct (Hai None (Some "other"%string) None None "other"%string "undefined"%string)
  as [Hsev _].
rewrite Hsev; reflexivity.
Defined.

(** X7.  [triageFeedback] in binary64, when the model gives no usable
    answer: the item is sent as an instant alert exactly when it holds a P0
    keyword or the rules classify it as P0 or P1.  The confidence 0.7 of the
    rule-based classification meets the threshold [>= 0.7] of the P1 test,
    so every rule-based P1 alerts. *)
Theorem fallback_triage_alerts_on_P0_and_P1 :
  forall content : string,
    instant_alert (triageFeedback (@AiNothing float) content)
    = Triage.checkP0Keywords content
      || String.eqb (snd (Triage.quickClassify content)) "P0"
      || String.eqb (snd (Triage.quickClassify content)) "P1".
Proof.
intros content. unfold triageFeedback.
destruct (Triage.checkP0Keywords content); [reflexivity|].
unfold classify. destruct (Triage.quickClassify content) as [qc qs]. simpl.
assert (Hc : jleb (num := float) (jdec 7 10) (jdec 7 10) = true)
  by (vm_compute; reflexivity).
destruct (String.eqb qs "P0"); [reflexivity|].
destruct (String.eqb qs "P1"); [|reflexivity]. exact Hc.
Qed.


(** ** Confidence *)

Lemma exact_truthy (x : R) : truthy x = true <-> x <> 0%R.
Proof.
unfold truthy. simpl. rewrite andb_true_r, negb_true_iff. apply exact_eqb_false.
Qed.

Lemma exact_num_or (x : option R) (d : R) :
  num_or x d = match x with
               | Some v => if Req_dec_T v 0 then d else v
               | None => d
               end.
Proof.
destruct x as [v|]; [|reflexivity]. simpl.
destruct (Req_dec_T v 0) as [-> | Hv].
- assert (E : truthy 0%R = false).
  { destruct (truthy 0%R) eqn:E; [|reflexivity]. apply exact_truthy in E. lra. }
  now rewrite E.
- assert (E : truthy v = true) by now apply exact_truthy.
  now rewrite E.
Qed.

(** X8.  [classifyFeedback], exact arithmetic: the confidence it returns
    lies in [0, 1]; a missing or unreadable confidence and the confidence 0
    both become 0.8; a confidence in (0, 1] is returned as it is. *)
Theorem confidence_is_clamped :
  forall (reply : AiReply R) (content : string),
    (0 <= cl_confidence (classify reply content) <= 1)%R
    /\ (forall sev cat sm pc ps,
          cl_confidence (classify (AiJson sev cat None sm pc ps) content)
          = (8 / 10)%R
          /\ cl_confidence (classify (AiJson sev cat (Some 0%R) sm pc ps) content)
             = (8 / 10)%R)
    /\ (forall sev cat sm pc ps (x : R),
          (0 < x <= 1)%R ->
          cl_confidence (classify (AiJson sev cat (Some x) sm pc ps) content) = x).
Proof.
intros reply content.
assert (Hclamp : forall y : R, (0 <= Rmax 0 (Rmin 1 y) <= 1)%R).
{ intros y. unfold Rmax, Rmin. repeat destruct (Rle_dec _ _); lra. }
split; [|split].
- unfold classify. destruct (Triage.quickClassify content) as [qc qs].
  destruct reply as [|s c conf sm pc ps]; simpl.
  + unfold jdec. simpl. lra.
  + apply Hclamp.
- intros sev cat sm pc ps. unfold classify.
  destruct (Triage.quickClassify content) as [qc qs]. cbn [cl_confidence].
  rewrite !exact_num_or. destruct (Req_dec_T 0 0) as [_|Hn]; [|lra].
  unfold jdec. simpl. unfold Rmax, Rmin. repeat destruct (Rle_dec _ _); lra.
- intros sev cat sm pc ps x Hx. unfold classify.
  destruct (Triage.quickClassify content) as [qc qs]. cbn [cl_confidence].
  rewrite exact_num_or. destruct (Req_dec_T x 0) as [Hz|_]; [lra|].
  simpl. unfold Rmax, Rmin. repeat destruct (Rle_dec _ _); lra.
Qed.

Lemma confidence_is_clamped_witness :
  cl_confidence
    (classify (AiJson (num := R) None None (Some (1 / 2)%R) None
                 "other" "P2") "checkout is slow")
  = (1 / 2)%R.
Proof.
destruct (@confidence_is_clamped (@AiNothing R) "checkout is slow") as [_ [_ Hx]].
apply Hx. lra.
Defined.

(** ** Embeddings *)

Section EmbedFacts.
Context {num : Type} `{JsNumber num}.
Hypothesis zero_eq_zero : jeqb (jofZ 0) (jofZ 0) = true.

Lemma zeros_all_zero (n : nat) : some_nonzero (zeros n) = false.
Proof.
induction n as [|n IH]; [reflexivity|]. unfold some_nonzero in *. simpl.
now rewrite zero_eq_zero, IH.
Qed.

Lemma length_zeros (n : nat) : List.length (zeros (num := num) n) = n.
Proof. induction n as [|n IH]; simpl; [reflexivity | now rewrite IH]. Qed.
End EmbedFacts.

(** X9.  [generateEmbedding] followed by the matching: when the text is
    empty or the model gives no embedding, the embedding is a vector of
    zeros (of the configured dimension, or of 1024 for a blank text), the
    embedding tier matches no cluster and the match is the one of the text
    tier alone.  Stated for every arithmetic in which 0 === 0. *)
Theorem failed_embedding_skips_embedding_tier :
  forall (num : Type) (N : JsNumber num),
    jeqb (jofZ 0) (jofZ 0) = true ->
    forall (dimension : nat) (text : string) (reply : option (list (list num))),
      (reply = None \/ reply = Some [] \/ (exists rest, reply = Some ([] :: rest))
       \/ String.length text = 0%nat) ->
      (embed reply dimension text = zeros dimension
       \/ embed reply dimension text = zeros 1024)
      /\ some_nonzero (embed reply dimension text) = false
      /\ forall (env : Env num) (config : Config num) (content : string)
                (candidates : list (Cluster num)),
          embeddingMatch config (embed reply dimension text) candidates = None
          /\ findMatch env config content (embed reply dimension text) candidates
             = textMatch env content candidates.
Proof.
intros num N Hz dimension text reply Hfail.
assert (Hcases : embed reply dimension text = zeros dimension
                 \/ embed reply dimension text = zeros 1024).
{ unfold embed. destruct (_ || _) eqn:Hblank; [now right|].
  destruct Hfail as [-> | [-> | [[rest ->] | Hlen]]]; try (now left).
  rewrite Hlen in Hblank. discriminate. }
assert (Hnz : some_nonzero (embed reply dimension text) = false).
{ destruct Hcases as [-> | ->]; now apply zeros_all_zero. }
split; [exact Hcases|]. split; [exact Hnz|].
intros env config content candidates.
assert (He : embeddingMatch config (embed reply dimension text) candidates = None).
{ unfold embeddingMatch. now rewrite Hnz. }
split; [exact He|]. unfold findMatch. now rewrite He.
Qed.

Lemma failed_embedding_skips_embedding_tier_witness :
  embeddingMatch defaultConfig (embed (num := float) None 1024 "export fails")
    [crash_cluster] = None.
Proof.
destruct (@failed_embedding_skips_embedding_tier float binary64 eq_refl 1024
            "export fails" None (or_introl eq_refl)) as [_ [_ Hm]].
exact (proj1 (Hm sample_env64 defaultConfig "export fails"%string [crash_cluster])).
Defined.


(** ** Marking a cluster as fixed *)

Section MarkFixedFacts.
Context {num : Type} `{JsNumber num}.

Lemma find_map_preserving (A : Type) (p : A -> bool) (g : A -> A) (l : list A) :
  (forall x, p (g x) = p x) ->
  find p (map g l) = option_map g (find p l).
Proof.
intros Hp. induction l as [|x l IH]; [reflexivity|]. simpl.
rewrite Hp. destruct (p x); [reflexivity | exact IH].
Qed.

Lemma mark_row_id (t : num) (body : MarkFixedBody num) (sev : string) (n : num)
    (r : ClusterRow num) :
  row_cluster_id (mark_row t body sev n r) = row_cluster_id r.
Proof. reflexivity. Qed.

Lemma find_marked (cid cid' : string) (g : ClusterRow num -> ClusterRow num)
    (l : list (ClusterRow num)) :
  (forall r, row_cluster_id (g r) = row_cluster_id r) ->
  find (fun r => String.eqb (row_cluster_id r) cid)
       (map (fun r => if String.eqb (row_cluster_id r) cid' then g r else r) l)
  = option_map (fun r => if String.eqb (row_cluster_id r) cid' then g r else r)
      (find (fun r => String.eqb (row_cluster_id r) cid) l).
Proof.
intros Hg. apply find_map_preserving. intros r.
destruct (String.eqb (row_cluster_id r) cid'); [now rewrite Hg | reflexivity].
Qed.
End MarkFixedFacts.

(** X10.  [handleMarkFixed] twice on the same cluster: the second request
    has the response and leaves the database that it would without the first
    one.  The severity is not downgraded twice, since the handler reads the
    column [severity], which it does not write. *)
Theorem later_mark_fixed_overrides_earlier :
  forall (num : Type) (N : JsNumber num) (env1 env2 : Env num)
         (body1 body2 : MarkFixedBody num) (clusterId : string) (d : DB num),
    handleMarkFixed env2 body2 clusterId
      (snd (handleMarkFixed env1 body1 clusterId d))
    = handleMarkFixed env2 body2 clusterId d.
Proof.
intros num N env1 env2 body1 body2 clusterId d.
unfold handleMarkFixed at 2.
destruct (find _ (clusters_tbl d)) as [cluster|] eqn:Hfind; [|simpl].
- cbn [snd]. unfold handleMarkFixed. rewrite Hfind.
  unfold update_cluster_row at 1. cbn [clusters_tbl].
  rewrite (@find_marked num clusterId clusterId
             (mark_row (now env1) body1 (row_severity cluster) (row_count cluster))
             (clusters_tbl d)) by reflexivity. rewrite Hfind. cbn [option_map].
  apply find_some in Hfind. destruct Hfind as [_ Hid]. rewrite Hid.
  cbn [mark_row row_severity row_count]. f_equal.
  unfold update_cluster_row. cbn [clusters_tbl feedback_tbl cluster_members].
  f_equal. rewrite map_map. apply map_ext. intros r.
  destruct (String.eqb (row_cluster_id r) clusterId) eqn:E.
  + cbn [mark_row row_cluster_id]. rewrite E. reflexivity.
  + rewrite E. reflexivity.
- unfold handleMarkFixed. now rewrite Hfind.
Qed.

(** X11.  What [handleMarkFixed] leaves untouched: the tables [feedback]
    and [cluster_members], the rows of other clusters, and in every row the
    key, the count, the severity, the centroid, the time last seen and the
    priority score; when no row has the key, the response is 404 and the
    database is unchanged. *)
Theorem mark_fixed_frame :
  forall (num : Type) (N : JsNumber num) (env : Env num)
         (body : MarkFixedBody num) (clusterId : string) (d : DB num),
    let d' := snd (handleMarkFixed env body clusterId d) in
    feedback_tbl d' = feedback_tbl d
    /\ cluster_members d' = cluster_members d
    /\ map mark_columns_apart (clusters_tbl d')
       = map mark_columns_apart (clusters_tbl d)
    /\ (forall r, row_cluster_id r <> clusterId ->
          (In r (clusters_tbl d') <-> In r (clusters_tbl d)))
    /\ ((forall r, In r (clusters_tbl d) -> row_cluster_id r <> clusterId) ->
        handleMarkFixed env body clusterId d = (ClusterNotFound, d)).
Proof.
intros num N env body clusterId d d'. subst d'. unfold handleMarkFixed.
destruct (find _ (clusters_tbl d)) as [cluster|] eqn:Hfind.
- cbn [snd]. unfold update_cluster_row.
  cbn [clusters_tbl feedback_tbl cluster_members].
  split; [reflexivity|]. split; [reflexivity|]. split; [|split].
  + rewrite map_map. apply map_ext. intros r.
    now destruct (String.eqb (row_cluster_id r) clusterId).
  + intros r Hr. rewrite in_map_iff. split.
    * intros [r0 [E Hin]].
      destruct (String.eqb_spec (row_cluster_id r0) clusterId) as [Heq|Hne].
      -- subst r. now cbn [mark_row row_cluster_id] in Hr.
      -- now subst r.
    * intros Hin. exists r. split; [|exact Hin].
      destruct (String.eqb_spec (row_cluster_id r) clusterId); [contradiction|].
      reflexivity.
  + intros Hnone. apply find_some in Hfind. destruct Hfind as [Hin Hid].
    apply String.eqb_eq in Hid. now apply Hnone in Hin.
- cbn [snd]. repeat split; tauto.
Qed.

Lemma mark_fixed_frame_witness :
  handleMarkFixed sample_envR no_body "c-none" open_db = (ClusterNotFound, open_db).
Proof.
destruct (@mark_fixed_frame R exact sample_envR no_body "c-none" open_db)
  as [_ [_ [_ [_ Hnone]]]].
apply Hnone. intros r [<- | []]. discriminate.
Defined.




Lemma downgrade_levels (sev : string) :
  In (downgrade sev) ["P2"; "P3"]%string.
Proof.
unfold downgrade. repeat (destruct (String.eqb sev _)); simpl; tauto.
Qed.

Lemma downgrade_truthy (sev : string) :
  str_truthy (Some (downgrade sev)) = true
  /\ forall d, str_or (Some (downgrade sev)) d = downgrade sev.
Proof.
destruct (downgrade_levels sev) as [<- | [<- | []]]; split; reflexivity.
Qed.

Section MarkedRow.
Context {num : Type} `{JsNumber num}.

End MarkedRow.



Lemma severityScore_downgrade (sev : string) :
  (severityScore (downgrade sev) <= severityScore (num := R) sev)%R.
Proof.
unfold downgrade, severityScore.
destruct (String.eqb_spec sev "P0") as [-> | _]; [simpl; lra|].
destruct (String.eqb_spec sev "P1") as [-> | _]; [simpl; lra|].
destruct (String.eqb_spec sev "P2") as [-> | _]; [simpl; lra|].
destruct (String.eqb_spec sev "P3") as [-> | _]; simpl; lra.
Qed.

(** X13.  [handleMarkFixed] followed by [calculatePriorityScore], exact
    arithmetic: for an open cluster of severity P0..P3, the score after the
    cluster is marked as fixed is computed on the downgraded severity and is
    at most the score before, for every non-negative severity weight. *)
Theorem mark_fixed_never_raises_priority :
  forall (env env' : Env R) (config : Config R) (body : MarkFixedBody R)
         (r : ClusterRow R) (c c' : Cluster R),
    In (row_severity r) levels ->
    (row_fix_status r = None \/ row_fix_status r = Some open) ->
    row_current_severity r = None ->
    (0 <= severityWeight config)%R ->
    parse_cluster_row env' r = Some c ->
    parse_cluster_row env'
      (mark_row (now env) body (row_severity r) (row_count r) r) = Some c' ->
    effectiveSeverity c = row_severity r
    /\ effectiveSeverity c' = downgrade (row_severity r)
    /\ (calculatePriorityScore env' config c'
        <= calculatePriorityScore env' config c)%R.
Proof.
intros env env' config body r c c' _ Hopen Hcur Hw Hc Hc'.
destruct (downgrade_truthy (row_severity r)) as [Htruthy Hstr].
unfold parse_cluster_row in Hc, Hc'. cbn [mark_row row_centroid row_top_sources] in Hc'.
destruct (centroid_json env' (row_centroid r)) as [| |[|x xs]];
  try discriminate;
  destruct (top_sources_json env' (row_top_sources r)); try discriminate.
injection Hc as Ec. injection Hc' as Ec'.
cbn [mark_row row_cluster_id row_category row_current_severity row_severity
     row_count row_first_seen row_last_seen row_representative_feedback_id
     row_representative_feedback row_summary row_suggested_action row_user_impact
     row_priority_score row_sentiment_score row_fix_status row_fix_deployed_date
     row_fix_deployed_version row_rollout_period_days row_original_severity
     row_reports_before_fix row_reports_after_fix row_fix_notes] in Ec'.
assert (E1 : effectiveSeverity c = row_severity r).
{ subst c. unfold effectiveSeverity. cbn [fix_status current_severity
    original_severity severity]. rewrite Hcur.
  destruct Hopen as [-> | ->]; reflexivity. }
assert (E2 : effectiveSeverity c' = downgrade (row_severity r)).
{ pose proof (Hstr (row_severity r)) as Hm. unfold str_or in Hm.
  subst c'. unfold effectiveSeverity. cbn [fix_status current_severity].
  rewrite !Hm. cbn [status_is FixStatus_eqb andb]. rewrite Htruthy.
  cbn [andb]. now rewrite Hstr. }
split; [exact E1|]. split; [exact E2|].
unfold calculatePriorityScore. rewrite E1, E2.
assert (Ef : frequencyScore c' = frequencyScore c) by (now subst c c').
assert (Er : recencyScore env' c' = recencyScore env' c) by (now subst c c').
assert (En : negativityScore c' = negativityScore c) by (now subst c c').
rewrite Ef, Er, En. simpl.
pose proof (severityScore_downgrade (row_severity r)) as Hs.
apply Rplus_le_compat_r. apply Rplus_le_compat_r. apply Rplus_le_compat_r.
now apply Rmult_le_compat_r.
Qed.

Lemma mark_fixed_never_raises_priority_witness :
  (calculatePriorityScore later_envR defaultConfig marked_cluster
   <= calculatePriorityScore later_envR defaultConfig open_cluster)%R.
Proof.
assert (Hlev : In (row_severity open_row) levels) by (simpl; tauto).
assert (Hw : (0 <= severityWeight (defaultConfig (num := R)))%R)
  by (unfold defaultConfig, jdec; simpl; lra).
exact (proj2 (proj2 (@mark_fixed_never_raises_priority sample_envR later_envR
                       defaultConfig no_body open_row open_cluster marked_cluster
                       Hlev (or_intror eq_refl) eq_refl Hw eq_refl eq_refl))).
Defined.


Section ScoreBounds.
Local Open Scope R_scope.
Variable env : Env R.

Lemma severityScore_range (sev : string) :
  25 <= severityScore (num := R) sev <= 100.
Proof.
unfold severityScore. repeat destruct (String.eqb sev _); simpl; lra.
Qed.

Lemma log10_nonneg (x : R) : 1 <= x -> 0 <= jlog10 x.
Proof.
intros Hx. replace 0 with (jlog10 1).
- apply log10_le; lra.
- simpl. rewrite ln_1. unfold Rdiv. ring.
Qed.

Lemma frequencyScore_range (c : Cluster R) :
  0 <= count c -> 0 <= frequencyScore c <= 100.
Proof.
intros Hc. unfold frequencyScore. cbn [jmin jadd jmul jofZ exact].
assert (0 <= jlog10 (count c + 1)) by (apply log10_nonneg; lra).
unfold Rmin. destruct (Rle_dec _ _); lra.
Qed.

Lemma recencyScore_range (c : Cluster R) :
  last_seen c <= now env -> 0 <= recencyScore env c <= 100.
Proof.
intros Hl. unfold recencyScore. cbn [jmax jsub jmul jdiv jofZ exact].
assert (0 <= (now env - last_seen c) / 3600000).
{ unfold Rdiv. apply Rmult_le_pos; lra. }
unfold Rmax. destruct (Rle_dec _ _); lra.
Qed.

Lemma negativityScore_range (c : Cluster R) :
  0 <= sentiment_score c <= 1 -> 0 <= negativityScore c <= 100.
Proof. intros Hs. unfold negativityScore. simpl. lra. Qed.

Lemma default_score (c : Cluster R) :
  calculatePriorityScore env defaultConfig c
  = severityScore (effectiveSeverity c) * (55 / 100)
    + frequencyScore c * (25 / 100)
    + recencyScore env c * (10 / 100)
    + negativityScore c * (10 / 100).
Proof. reflexivity. Qed.

Lemma exact_leb_true (x y : R) : Exact.leb x y = true <-> x <= y.
Proof. unfold Exact.leb; destruct (Rle_dec x y); split; congruence. Qed.
Lemma exact_leb_false (x y : R) : Exact.leb x y = false <-> y < x.
Proof.
unfold Exact.leb; destruct (Rle_dec x y); split; try congruence; intros; lra.
Qed.

Lemma level_P0 (config : Config R) (score : R) :
  getPriorityLevel config score = "P0"%string <-> threshold_p0 config <= score.
Proof.
unfold getPriorityLevel. cbn [jleb exact].
destruct (Exact.leb (threshold_p0 config) score) eqn:E0.
- apply exact_leb_true in E0. tauto.
- apply exact_leb_false in E0.
  repeat destruct (Exact.leb _ _); split; try discriminate; intros; lra.
Qed.
End ScoreBounds.

(** X14.  [calculatePriorityScore] with the default weights, exact
    arithmetic: for a cluster with a non-negative count, last seen not in the
    future and a sentiment in [0, 1], the score lies in [13.75, 100]; a
    cluster of effective severity P0 has priority level P0 or P1, one of
    effective severity P3 never has level P0, and a cluster under rollout
    (downgraded to P2 or P3) scores at most 72.5. *)
Theorem priority_score_bounds :
  forall (env : Env R) (c : Cluster R),
    (0 <= count c)%R ->
    (last_seen c <= now env)%R ->
    (0 <= sentiment_score c <= 1)%R ->
    let score := calculatePriorityScore env defaultConfig c in
    let level := getPriorityLevel defaultConfig score in
    (1375 / 100 <= score <= 100)%R
    /\ (effectiveSeverity c = "P0"%string -> level = "P0"%string \/ level = "P1"%string)
    /\ (effectiveSeverity c = "P3"%string -> level <> "P0"%string)
    /\ (status_is (fix_status c) fix_deployed = true ->
        str_truthy (current_severity c) = true ->
        In (current_severity c) [Some "P2"%string; Some "P3"%string] ->
        (score <= 725 / 10)%R).
Proof.
intros env c Hcount Hseen Hsent score level.
pose proof (severityScore_range (effectiveSeverity c)) as Hs.
pose proof (frequencyScore_range c Hcount) as Hf.
pose proof (recencyScore_range env c Hseen) as Hr.
pose proof (negativityScore_range c Hsent) as Hn.
assert (Escore : score = (severityScore (effectiveSeverity c) * (55 / 100)
    + frequencyScore c * (25 / 100)
    + recencyScore env c * (10 / 100)
    + negativityScore c * (10 / 100))%R) by reflexivity.
split; [lra|]. split; [|split].
- intros E. rewrite E in Escore.
  assert (H100 : severityScore (num := R) "P0" = 100%R) by reflexivity.
  rewrite H100 in Escore.
  subst level. unfold getPriorityLevel. cbn [jleb exact defaultConfig threshold_p0
    threshold_p1 threshold_p2 jofZ].
  destruct (Exact.leb 70 score); [now left|].
  destruct (Exact.leb 50 score) eqn:E1; [now right|].
  apply exact_leb_false in E1. lra.
- intros E. rewrite E in Escore.
  assert (H25 : severityScore (num := R) "P3" = 25%R) by reflexivity.
  rewrite H25 in Escore.
  subst level. intros Hl. apply level_P0 in Hl.
  cbn [defaultConfig threshold_p0 jofZ exact] in Hl. lra.
- intros Hst Htr Hcur.
  assert (Heff : (severityScore (num := R) (effectiveSeverity c) <= 50)%R).
  { unfold effectiveSeverity. rewrite Hst, Htr. cbn [andb].
    destruct Hcur as [<- | [<- | []]]; cbn [str_or]; unfold severityScore; simpl; lra. }
  lra.
Qed.

Lemma priority_score_bounds_witness :
  (calculatePriorityScore sample_envR defaultConfig sample_clusterR <= 100)%R.
Proof.
assert (Hc : (0 <= count sample_clusterR)%R) by (simpl; lra).
assert (Hl : (last_seen sample_clusterR <= now sample_envR)%R) by (simpl; lra).
assert (Hs : (0 <= sentiment_score sample_clusterR <= 1)%R)
  by (unfold sample_clusterR, newCluster, jdec; simpl; lra).
exact (proj2 (proj1 (@priority_score_bounds sample_envR sample_clusterR Hc Hl Hs))).
Defined.


Section PassKeys.
Context {num : Type} `{JsNumber num}.
Variable env : Env num.
Variable config : Config num.

Lemma map_set_nth (A B : Type) (f : A -> B) (l : list A) (i : nat) (x m : A) :
  nth_error l i = Some m -> f x = f m -> map f (set_nth i x l) = map f l.
Proof.
revert i. induction l as [|y l IH]; intros [|i] Hn Hf; simpl in *; try discriminate.
- injection Hn as ->. now rewrite Hf.
- f_equal. now apply IH.
Qed.

Lemma findMatch_nth (content : string) (embedding : list num)
    (cs : list (Cluster num)) (i : nat) (m : Cluster num) :
  findMatch env config content embedding cs = Some (i, m) ->
  nth_error cs i = Some m.
Proof.
unfold findMatch, embeddingMatch, textMatch.
destruct (some_nonzero embedding).
- destruct (find_first (embedding_hit config embedding) cs) as [[j z]|] eqn:E.
  + intros E'. injection E' as <- <-. now apply find_first_spec in E.
  + intros E'. now apply find_first_spec in E'.
- intros E'. now apply find_first_spec in E'.
Qed.

Lemma update_keeps_keys (cid : string) (f : ClusterRow num -> ClusterRow num)
    (d : DB num) :
  (forall r, row_cluster_id (f r) = row_cluster_id r) ->
  map (row_cluster_id (num := num)) (clusters_tbl (update_cluster_row cid f d))
  = map (row_cluster_id (num := num)) (clusters_tbl d).
Proof.
intros Hf. unfold update_cluster_row. cbn [clusters_tbl]. rewrite map_map.
apply map_ext. intros r. destruct (String.eqb _ _); [apply Hf | reflexivity].
Qed.

Lemma cluster_step_keys (ac : list string) (st : PassState (num := num))
    (f : Feedback num) :
  let st' := cluster_step env config ac st f in
  feedback_tbl (db st') = feedback_tbl (db st)
  /\ ((uuids st' = uuids st /\ keys st' = keys st)
      \/ (uuids st' = S (uuids st)
          /\ keys st' = (fst (keys st) ++ [randomUUID env (uuids st)],
                         snd (keys st) ++ [randomUUID env (uuids st)]))).
Proof.
unfold cluster_step, keys.
destruct (Str.mem (id f) (processed st)); [split; [reflexivity | now left]|].
destruct (Str.mem (id f) ac); [split; [reflexivity | now left]|].
destruct (UserSpecific.isUserSpecificFeedback (content f)).
{ split; [reflexivity|]. right. cbn [uuids clusters db fst snd]. split; [reflexivity|].
  unfold insert_member, insert_cluster_row. cbn [clusters_tbl].
  rewrite !map_app. reflexivity. }
destruct (findMatch _ _ _ _ _) as [[i m]|] eqn:Hm.
- apply findMatch_nth in Hm. cbn [uuids clusters db].
  split.
  { unfold update_cluster_row. cbn [feedback_tbl].
    destruct (member_exists _ _ _); reflexivity. }
  left. split; [reflexivity|]. f_equal.
  + apply map_set_nth with (m := m); [exact Hm | reflexivity].
  + rewrite update_keeps_keys by reflexivity.
    destruct (member_exists _ _ _); reflexivity.
- cbn [uuids clusters db]. split.
  { destruct (member_exists _ _ _); reflexivity. }
  right. split; [reflexivity|].
  cbn [fst snd]. rewrite map_app. f_equal.
  destruct (member_exists _ _ _); unfold insert_member, insert_cluster_row;
    cbn [clusters_tbl]; rewrite map_app; reflexivity.
Qed.

Lemma drawn_S (u0 k : nat) :
  drawn env u0 (S k) = drawn env u0 k ++ [randomUUID env (u0 + k)].
Proof. unfold drawn. rewrite seq_S, map_app. reflexivity. Qed.

Lemma pass_keys_from (ac : list string) (fs : list (Feedback num)) :
  forall st : PassState (num := num),
    let st' := fold_left (cluster_step env config ac) fs st in
    feedback_tbl (db st') = feedback_tbl (db st)
    /\ uuids st <= uuids st' <= uuids st + List.length fs
    /\ keys st' = (fst (keys st) ++ drawn env (uuids st) (uuids st' - uuids st),
                   snd (keys st) ++ drawn env (uuids st) (uuids st' - uuids st)).
Proof.
induction fs as [|f fs IH]; intros st; cbn [fold_left].
- split; [reflexivity|]. split; [simpl; lia|].
  rewrite Nat.sub_diag. unfold drawn, keys. cbn [seq map fst snd].
  now rewrite !app_nil_r.
- specialize (IH (cluster_step env config ac st f)).
  destruct (cluster_step_keys ac st f) as [Hfb [[Hu Hk] | [Hu Hk]]];
    cbv zeta in *; destruct IH as [IHfb [IHu IHk]].
  + rewrite Hu, Hk in *. split; [congruence|]. split; [simpl; lia|]. exact IHk.
  + rewrite Hu in *. split; [congruence|]. split; [simpl; lia|].
    rewrite IHk, Hk. cbn [fst snd].
    set (st' := fold_left _ _ _) in *.
    replace (uuids st' - uuids st) with (S (uuids st' - S (uuids st))) by lia.
    assert (E : drawn env (uuids st) (S (uuids st' - S (uuids st)))
                = randomUUID env (uuids st)
                  :: drawn env (S (uuids st)) (uuids st' - S (uuids st))).
    { reflexivity. }
    rewrite E, <- !app_assoc. reflexivity.
Qed.
Lemma pass_keys (db0 : DB num) (uuids0 : nat) (feedbacks : list (Feedback num)) :
  let st := clusterFeedbacksWithEmbeddings env config db0 uuids0 feedbacks in
  let created := drawn env uuids0 (uuids st - uuids0) in
  (uuids0 <= uuids st <= uuids0 + List.length feedbacks)%nat
  /\ map (cluster_id (num := num)) (clusters st)
     = map (cluster_id (num := num)) (load_clusters env config db0) ++ created
  /\ map (row_cluster_id (num := num)) (clusters_tbl (db st))
     = map (row_cluster_id (num := num)) (clusters_tbl db0) ++ created
  /\ feedback_tbl (db st) = feedback_tbl db0.
Proof.
intros st created.
destruct (pass_keys_from (map snd (cluster_members db0)) feedbacks
            {| clusters := load_clusters env config db0; db := db0;
               processed := []; uuids := uuids0 |}) as [Hfb [Hu Hk]].
unfold keys in Hk. cbn [clusters db uuids fst snd] in *.
subst st created. unfold clusterFeedbacksWithEmbeddings.
injection Hk as Hk1 Hk2.
split; [lia|]. repeat split; assumption.
Qed.
End PassKeys.

(** X15.  [clusterFeedbacksWithEmbeddings] never drops or renames a
    cluster: the keys of the working set it returns are the keys of the
    loaded clusters, in order, followed by the identifiers drawn in the pass,
    and the keys of the table [clusters] are those it had followed by the
    same identifiers; at most one cluster is created per item of the batch,
    and the table [feedback] is not written. *)
Theorem pass_keeps_and_extends_keys :
  forall (num : Type) (N : JsNumber num) (env : Env num) (config : Config num)
         (db0 : DB num) (uuids0 : nat) (feedbacks : list (Feedback num)),
    let st := clusterFeedbacksWithEmbeddings env config db0 uuids0 feedbacks in
    let created := drawn env uuids0 (uuids st - uuids0) in
    (uuids0 <= uuids st <= uuids0 + List.length feedbacks)%nat
    /\ map (cluster_id (num := num)) (clusters st)
       = map (cluster_id (num := num)) (load_clusters env config db0) ++ created
    /\ map (row_cluster_id (num := num)) (clusters_tbl (db st))
       = map (row_cluster_id (num := num)) (clusters_tbl db0) ++ created
    /\ feedback_tbl (db st) = feedback_tbl db0.
Proof. intros num N. exact (@pass_keys num N). Qed.


Section SortFacts.
Context {num : Type} `{JsNumber num}.

Lemma insert_desc_perm (A : Type) (key : A -> num) (x : A) (l : list A) :
  Permutation (insert_desc key x l) (x :: l).
Proof.
induction l as [|y l IH]; simpl; [apply Permutation_refl|].
destruct (jltb (key x) (key y)).
- eapply perm_trans; [apply perm_skip, IH | apply perm_swap].
- apply Permutation_refl.
Qed.

Lemma sort_desc_perm (A : Type) (key : A -> num) (l : list A) :
  Permutation (sort_desc key l) l.
Proof.
unfold sort_desc. induction l as [|x l IH]; simpl; [apply perm_nil|].
eapply perm_trans; [apply insert_desc_perm | now apply perm_skip].
Qed.

Lemma NoDup_map_filter (A B : Type) (key : A -> B) (keep : A -> bool)
    (rows : list A) :
  NoDup (map key rows) -> NoDup (map key (filter keep rows)).
Proof.
induction rows as [|r rows IH]; simpl; [auto|]. intros Hnd.
inversion Hnd as [|? ? Hnot Hnd']; subst.
destruct (keep r); simpl; [|auto]. constructor; [|auto].
intros Hin. apply Hnot. apply in_map_iff in Hin. destruct Hin as [y [E Hy]].
apply filter_In in Hy. apply in_map_iff. exists y. tauto.
Qed.
End SortFacts.

Section PassIntegrity.
Context {num : Type} `{JsNumber num}.
Variable env : Env num.
Variable config : Config num.

Lemma loaded_key_in_table (db0 : DB num) (c : Cluster num) :
  In c (load_clusters env config db0) ->
  In (cluster_id c) (map (row_cluster_id (num := num)) (clusters_tbl db0)).
Proof.
unfold load_clusters, select_active_clusters. intros Hin.
apply filter_map_In in Hin. destruct Hin as [r [Hr Hp]].
apply sort_desc_In in Hr. apply filter_In in Hr. destruct Hr as [Hr _].
apply parse_cluster_row_Some in Hp. destruct Hp as [-> _].
now apply in_map.
Qed.

Lemma NoDup_filter_map_keys (l : list (ClusterRow num)) :
  NoDup (map (row_cluster_id (num := num)) l) ->
  NoDup (map (cluster_id (num := num)) (filter_map (parse_cluster_row env) l)).
Proof.
induction l as [|r l IH]; simpl; [auto|]. intros Hnd.
inversion Hnd as [|? ? Hnot Hnd']; subst.
destruct (parse_cluster_row env r) as [c|] eqn:E; [|auto].
simpl. constructor; [|auto]. intros Hin. apply Hnot.
apply in_map_iff in Hin. destruct Hin as [c' [Ec Hc']].
apply filter_map_In in Hc'. destruct Hc' as [r' [Hr' Hp']].
apply parse_cluster_row_Some in Hp'. destruct Hp' as [Hid' _].
apply parse_cluster_row_Some in E. destruct E as [Hid _].
apply in_map_iff. exists r'. split; [congruence | exact Hr'].
Qed.

Lemma loaded_keys_NoDup (db0 : DB num) :
  NoDup (map (row_cluster_id (num := num)) (clusters_tbl db0)) ->
  NoDup (map (cluster_id (num := num)) (load_clusters env config db0)).
Proof.
intros Hnd. unfold load_clusters, select_active_clusters.
apply NoDup_filter_map_keys.
eapply Permutation_NoDup.
- apply Permutation_map. apply Permutation_sym. apply sort_desc_perm.
- now apply NoDup_map_filter.
Qed.

Lemma cluster_step_members (ac : list string) (st : PassState (num := num))
    (f : Feedback num) (m : string * string) :
  let st' := cluster_step env config ac st f in
  (In m (cluster_members (db st)) -> In m (cluster_members (db st')))
  /\ (In m (cluster_members (db st')) ->
      In m (cluster_members (db st))
      \/ (In (fst m) (map (cluster_id (num := num)) (clusters st'))
          /\ snd m = id f)).
Proof.
unfold cluster_step.
destruct (Str.mem (id f) (processed st)); [tauto|].
destruct (Str.mem (id f) ac); [simpl; tauto|].
destruct (UserSpecific.isUserSpecificFeedback (content f)).
{ cbn [db clusters]. unfold insert_member, insert_cluster_row.
  cbn [cluster_members]. split.
  - intros Hin. apply in_or_app. now left.
  - intros Hin. apply in_app_or in Hin. destruct Hin as [Hin | [<- | []]]; [now left|].
    right. cbn [fst snd]. split; [|reflexivity].
    rewrite map_app. apply in_or_app. right. now left. }
destruct (findMatch _ _ _ _ _) as [[i c]|] eqn:Hm.
- apply findMatch_nth in Hm. cbn [db clusters].
  unfold update_cluster_row. cbn [cluster_members].
  destruct (member_exists _ _ _); [tauto|].
  unfold insert_member. cbn [cluster_members]. split.
  + intros Hin. apply in_or_app. now left.
  + intros Hin. apply in_app_or in Hin. destruct Hin as [Hin | [<- | []]]; [now left|].
    right. cbn [fst snd]. split; [|reflexivity].
    rewrite map_set_nth with (m := c) by (assumption || reflexivity).
    change (cluster_id (addToCluster f (generateEmbedding env (content f)) c))
      with (cluster_id c).
    apply in_map. now apply nth_error_In in Hm.
- cbn [db clusters].
  destruct (member_exists _ _ _); [unfold insert_cluster_row; simpl; tauto|].
  unfold insert_member, insert_cluster_row. cbn [cluster_members]. split.
  + intros Hin. apply in_or_app. now left.
  + intros Hin. apply in_app_or in Hin. destruct Hin as [Hin | [<- | []]]; [now left|].
    right. cbn [fst snd]. split; [|reflexivity].
    rewrite map_app. apply in_or_app. right. now left.
Qed.

Lemma pass_members_from (ac : list string) (fs : list (Feedback num))
    (m : string * string) :
  forall st : PassState (num := num),
    let st' := fold_left (cluster_step env config ac) fs st in
    (In m (cluster_members (db st)) -> In m (cluster_members (db st')))
    /\ (In m (cluster_members (db st')) ->
        In m (cluster_members (db st))
        \/ (In (fst m) (map (cluster_id (num := num)) (clusters st'))
            /\ In (snd m) (map (id (num := num)) fs))).
Proof.
induction fs as [|f fs IH]; intros st; cbn [fold_left].
- simpl. tauto.
- specialize (IH (cluster_step env config ac st f)). cbv zeta in IH.
  destruct IH as [IH1 IH2].
  destruct (cluster_step_members ac st f m) as [S1 S2]. cbv zeta in S1, S2.
  split; [auto|]. intros Hin. apply IH2 in Hin.
  destruct Hin as [Hin | [Hk Hf]].
  + apply S2 in Hin. destruct Hin as [Hin | [Hk Hf]]; [now left|].
    right. split; [|simpl; now left].
    destruct (pass_keys_from env config ac fs (cluster_step env config ac st f))
      as [_ [_ Hkeys]].
    unfold keys in Hkeys. cbn [fst snd] in Hkeys. injection Hkeys as Hk1 _.
    rewrite Hk1. apply in_or_app. now left.
  + right. split; [exact Hk | simpl; now right].
Qed.
End PassIntegrity.

(** X16.  [clusterFeedbacksWithEmbeddings] and the foreign keys of
    [cluster_members]: the pass removes no membership, and each membership it
    adds is that of an item of the batch in a cluster that is in the working
    set and has a row in the table [clusters]. *)
Theorem pass_keeps_referential_integrity :
  forall (num : Type) (N : JsNumber num) (env : Env num) (config : Config num)
         (db0 : DB num) (uuids0 : nat) (feedbacks : list (Feedback num))
         (m : string * string),
    let st := clusterFeedbacksWithEmbeddings env config db0 uuids0 feedbacks in
    (In m (cluster_members db0) -> In m (cluster_members (db st)))
    /\ (In m (cluster_members (db st)) ->
        In m (cluster_members db0)
        \/ (In (fst m) (map (cluster_id (num := num)) (clusters st))
            /\ In (fst m) (map (row_cluster_id (num := num)) (clusters_tbl (db st)))
            /\ In (snd m) (map (id (num := num)) feedbacks))).
Proof.
intros num N env config db0 uuids0 feedbacks m st.
destruct (pass_keys env config db0 uuids0 feedbacks)
  as [_ [Hws [Htbl _]]]. cbv zeta in Hws, Htbl.
subst st. unfold clusterFeedbacksWithEmbeddings in *.
destruct (pass_members_from env config (map snd (cluster_members db0)) feedbacks m
            {| clusters := load_clusters env config db0; db := db0;
               processed := []; uuids := uuids0 |}) as [H1 H2].
cbn [db] in H1, H2. split; [exact H1|]. intros Hin.
apply H2 in Hin. destruct Hin as [Hin | [Hk Hf]]; [now left|]. right.
split; [exact Hk|]. split; [|exact Hf].
rewrite Hws in Hk. rewrite Htbl.
apply in_app_or in Hk. apply in_or_app. destruct Hk as [Hk | Hk]; [left | now right].
apply in_map_iff in Hk. destruct Hk as [c [<- Hc]].
now apply loaded_key_in_table in Hc.
Qed.

Lemma pass_keeps_referential_integrity_witness :
  In ("c-crash", "f2")%string
     (cluster_members
        (db (clusterFeedbacksWithEmbeddings sample_env64 defaultConfig recorded_db64 0
               [feedback64 "f9" "export fails" 99]))).
Proof.
apply (proj1 (@pass_keeps_referential_integrity float binary64 sample_env64
                defaultConfig recorded_db64 0 [feedback64 "f9" "export fails" 99]
                ("c-crash", "f2")%string)).
simpl. left. reflexivity.
Defined.

Lemma drawn_prefix (num : Type) (env : Env num) (u0 k n : nat) :
  k <= n -> exists rest, drawn env u0 n = drawn env u0 k ++ rest.
Proof.
intros Hkn. exists (drawn env (u0 + k) (n - k)). unfold drawn.
rewrite <- map_app, <- seq_app. f_equal. f_equal. lia.
Qed.

Lemma NoDup_app_prefix (A : Type) (a b c : list A) :
  NoDup (a ++ b ++ c) -> NoDup (a ++ b).
Proof.
rewrite app_assoc. revert c. generalize (a ++ b). intros l c.
induction l as [|x l IH]; simpl; intros Hnd; [constructor|].
inversion Hnd as [|? ? Hnot Hnd']; subst. constructor; [|auto].
intros Hin. apply Hnot. apply in_or_app. now left.
Qed.

Lemma NoDup_app_incl (A : Type) (a a' b : list A) :
  NoDup a' -> incl a' a -> NoDup (a ++ b) -> NoDup (a' ++ b).
Proof.
intros Ha' Hincl Hnd. induction a' as [|x a' IH]; simpl.
- clear - Hnd. induction a as [|y a IH]; simpl in *; [exact Hnd|].
  inversion Hnd; auto.
- inversion Ha' as [|? ? Hnot Hnd']; subst. constructor.
  + intros Hin. apply in_app_or in Hin. destruct Hin as [Hin | Hin]; [contradiction|].
    assert (Hx : In x a) by (apply Hincl; now left).
    clear - Hnd Hx Hin. induction a as [|y a IH]; simpl in *; [contradiction|].
    inversion Hnd as [|? ? Hnot Hnd']; subst. destruct Hx as [-> | Hx].
    * apply Hnot. apply in_or_app. now right.
    * now apply IH.
  + apply IH; [exact Hnd'|]. intros y Hy. apply Hincl. now right.
Qed.

(** X17.  [clusterFeedbacksWithEmbeddings] and the primary key of
    [clusters]: if the keys of the table are distinct and the identifiers
    that [crypto.randomUUID] may return in the pass are fresh and distinct,
    then after the pass the keys of the table are distinct, so are the keys
    of the working set, and the working set holds the loaded clusters and one
    cluster per identifier drawn. *)
Theorem pass_keeps_primary_keys :
  forall (num : Type) (N : JsNumber num) (env : Env num) (config : Config num)
         (db0 : DB num) (uuids0 : nat) (feedbacks : list (Feedback num)),
    NoDup (map (row_cluster_id (num := num)) (clusters_tbl db0)
           ++ drawn env uuids0 (List.length feedbacks)) ->
    let st := clusterFeedbacksWithEmbeddings env config db0 uuids0 feedbacks in
    NoDup (map (row_cluster_id (num := num)) (clusters_tbl (db st)))
    /\ NoDup (map (cluster_id (num := num)) (clusters st))
    /\ List.length (clusters st)
       = (List.length (load_clusters env config db0) + (uuids st - uuids0))%nat.
Proof.
intros num N env config db0 uuids0 feedbacks Hnd st.
destruct (pass_keys env config db0 uuids0 feedbacks)
  as [Hu [Hws [Htbl _]]]. fold st in Hu, Hws, Htbl. cbv zeta in Hws, Htbl.
destruct (@drawn_prefix num env uuids0 (uuids st - uuids0) (List.length feedbacks))
  as [rest Hrest]; [lia|].
rewrite Hrest in Hnd. apply NoDup_app_prefix in Hnd.
split; [now rewrite Htbl|]. split.
- rewrite Hws. apply NoDup_app_incl with
    (a := map (row_cluster_id (num := num)) (clusters_tbl db0)).
  + apply loaded_keys_NoDup. clear - Hnd.
    induction (map _ (clusters_tbl db0)) as [|x l IH]; simpl in *; [constructor|].
    inversion Hnd as [|? ? Hnot Hnd']; subst. constructor; [|auto].
    intros Hin. apply Hnot. apply in_or_app. now left.
  + intros k Hk. apply in_map_iff in Hk. destruct Hk as [c [<- Hc]].
    now apply loaded_key_in_table in Hc.
  + exact Hnd.
- apply (f_equal (@List.length string)) in Hws.
  rewrite List.length_app, !List.length_map in Hws. rewrite Hws. f_equal.
  unfold drawn. now rewrite List.length_map, List.length_seq.
Qed.

Lemma pass_keeps_primary_keys_witness :
  NoDup (map (cluster_id (num := float))
           (clusters (clusterFeedbacksWithEmbeddings sample_env64 defaultConfig
                        empty_db64 0
                        [feedback64 "f9" "export fails" 99;
                         feedback64 "f10" "dark mode please" 99]))).
Proof.
apply (@pass_keeps_primary_keys float binary64 sample_env64 defaultConfig empty_db64 0
         [feedback64 "f9" "export fails" 99; feedback64 "f10" "dark mode please" 99]).
simpl. constructor; [|constructor; [intros [] | constructor]].
intros [E | []]. discriminate.
Defined.


Lemma find_first_exists (A : Type) (p : A -> bool) (l : list A) (x : A) :
  In x l -> p x = true -> find_first p l <> None.
Proof.
induction l as [|y l IH]; simpl; [tauto|]. intros [-> | Hin] Hp.
- now rewrite Hp.
- destruct (p y); [discriminate|]. specialize (IH Hin Hp).
  destruct (find_first p l) as [[i z]|]; [discriminate | contradiction].
Qed.

Lemma common_all (xs ys : list string) :
  (forall x, In x xs -> Str.mem x ys = true) -> TextMatch.common xs ys = xs.
Proof.
unfold TextMatch.common. induction xs as [|x xs IH]; simpl; intros Hall; [reflexivity|].
rewrite Hall by (now left). f_equal. apply IH. intros y Hy. apply Hall. now right.
Qed.

Lemma common_self (xs : list string) : TextMatch.common xs xs = xs.
Proof. apply common_all. intros x Hx. now apply mem_In. Qed.

Section SameText.
Context {num : Type} `{JsNumber num}.
Variable env : Env num.
Variable config : Config num.

Lemma same_text_hit (content : string) (c : Cluster num) :
  representative_feedback c = content ->
  category c = cr_category (classifyFeedback env content) ->
  severity c = cr_severity (classifyFeedback env content) ->
  UserSpecific.isUserSpecificFeedback content = false ->
  TextMatch.significantWords (Str.toLowerCase content) <> [] ->
  text_hit (classifyFeedback env content) (Str.toLowerCase content) c = true.
Proof.
intros Hrep Hcat Hsev Hus Hwords. unfold text_hit, is_user_specific_cluster.
rewrite Hrep, Hus, andb_false_r.
destruct (phrase_hit _ _); [reflexivity|].
unfold keyword_hit. rewrite Hrep, Hcat, Hsev, !String.eqb_refl. cbn [andb].
rewrite common_self.
destruct (TextMatch.significantWords (Str.toLowerCase content)); [contradiction|].
reflexivity.
Qed.

Lemma same_text_matches (content : string) (embedding : list num)
    (candidates : list (Cluster num)) (c : Cluster num) :
  In c candidates ->
  representative_feedback c = content ->
  category c = cr_category (classifyFeedback env content) ->
  severity c = cr_severity (classifyFeedback env content) ->
  UserSpecific.isUserSpecificFeedback content = false ->
  TextMatch.significantWords (Str.toLowerCase content) <> [] ->
  findMatch env config content embedding candidates <> None.
Proof.
intros Hin Hrep Hcat Hsev Hus Hwords. unfold findMatch.
destruct (embeddingMatch config embedding candidates); [discriminate|].
unfold textMatch. apply find_first_exists with (x := c); [exact Hin|].
now apply same_text_hit.
Qed.
End SameText.

(** X18.  A repeated report joins its cluster even without embeddings: if
    the working set holds a cluster whose representative text is the text of
    the item, with the category and severity that the item is classified as,
    and the text is not user-specific and has a significant word, then the
    item is matched (in the embedding tier or by the text tier) and the step
    creates no cluster. *)
Theorem same_text_joins_existing_cluster :
  forall (num : Type) (N : JsNumber num) (env : Env num) (config : Config num)
         (alreadyClustered : list string) (st : PassState (num := num))
         (feedback : Feedback num) (c : Cluster num),
    In c (clusters st) ->
    representative_feedback c = content feedback ->
    category c = cr_category (classifyFeedback env (content feedback)) ->
    severity c = cr_severity (classifyFeedback env (content feedback)) ->
    UserSpecific.isUserSpecificFeedback (content feedback) = false ->
    TextMatch.significantWords (Str.toLowerCase (content feedback)) <> [] ->
    let st' := cluster_step env config alreadyClustered st feedback in
    findMatch env config (content feedback)
      (generateEmbedding env (content feedback)) (clusters st) <> None
    /\ uuids st' = uuids st
    /\ map (cluster_id (num := num)) (clusters st')
       = map (cluster_id (num := num)) (clusters st)
    /\ map (row_cluster_id (num := num)) (clusters_tbl (db st'))
       = map (row_cluster_id (num := num)) (clusters_tbl (db st)).
Proof.
intros num N env config ac st f c Hin Hrep Hcat Hsev Hus Hwords st'.
pose proof (@same_text_matches num N env config (content f)
              (generateEmbedding env (content f)) (clusters st) c
              Hin Hrep Hcat Hsev Hus Hwords) as Hm.
split; [exact Hm|]. subst st'. unfold cluster_step.
destruct (Str.mem (id f) (processed st)); [auto|].
destruct (Str.mem (id f) ac); [auto|].
rewrite Hus.
destruct (findMatch _ _ _ _ _) as [[i m]|] eqn:E; [|contradiction].
apply findMatch_nth in E. cbn [uuids clusters db].
split; [reflexivity|]. split.
- apply map_set_nth with (m := m); [exact E | reflexivity].
- rewrite update_keeps_keys by reflexivity.
  destruct (member_exists _ _ _); reflexivity.
Qed.

Lemma same_text_joins_existing_cluster_witness :
  uuids (cluster_step sample_env64 defaultConfig [] crash_state
           (feedback64 "f9" "App crashes on resume" 99)) = 0%nat.
Proof.
apply (@same_text_joins_existing_cluster float binary64 sample_env64 defaultConfig []
         crash_state (feedback64 "f9" "App crashes on resume" 99) crash_cluster).
- simpl. left. reflexivity.
- reflexivity.
- reflexivity.
- reflexivity.
- vm_compute. reflexivity.
- vm_compute. discriminate.
Defined.


Section FixFrame.
Context {num : Type} `{JsNumber num}.

Lemma set_fix_same (c : Cluster num) :
  set_fix c (fix_status c) (current_severity c) (reports_after_fix c) = c.
Proof. now destruct c. Qed.

Lemma status_is_true (x : option FixStatus) (s : FixStatus) :
  status_is x s = true -> x = Some s.
Proof.
unfold status_is. destruct x as [y|]; [|discriminate].
destruct y, s; simpl; congruence.
Qed.

Lemma update_fix_columns (cid : string) (f : ClusterRow num -> ClusterRow num)
    (d : DB num) :
  (forall r, fix_columns_apart (f r) = fix_columns_apart r) ->
  map fix_columns_apart (clusters_tbl (update_cluster_row cid f d))
  = map fix_columns_apart (clusters_tbl d).
Proof.
intros Hf. unfold update_cluster_row. cbn [clusters_tbl]. rewrite map_map.
apply map_ext. intros r. destruct (String.eqb _ _); [apply Hf | reflexivity].
Qed.
End FixFrame.

(** X19.  The fix evaluation of [generateMorningDigest] on one cluster,
    for every arithmetic.  It writes only the status, the current severity
    and [reports_after_fix], in memory and in the row; it leaves a cluster
    that is not fix_deployed and the database as they are; the status is
    kept, or becomes resolved (severity kept), or becomes failed with the
    original severity restored; and once the status is no longer
    fix_deployed no later evaluation changes the cluster. *)
Theorem evaluateFix_transitions :
  forall (num : Type) (N : JsNumber num) (env : Env num) (c : Cluster num)
         (d : DB num),
    let c' := fst (evaluateFix env c d) in
    let d' := snd (evaluateFix env c d) in
    c' = set_fix c (fix_status c') (current_severity c') (reports_after_fix c')
    /\ (fix_status c <> Some fix_deployed -> c' = c /\ d' = d)
    /\ (fix_status c' = fix_status c
        \/ (fix_status c' = Some resolved /\ current_severity c' = current_severity c)
        \/ (fix_status c' = Some failed
            /\ current_severity c'
               = Some (str_or (original_severity c) (severity c))))
    /\ (fix_status c' <> Some fix_deployed ->
        forall (env2 : Env num) (d2 : DB num), evaluateFix env2 c' d2 = (c', d2))
    /\ feedback_tbl d' = feedback_tbl d
    /\ cluster_members d' = cluster_members d
    /\ map fix_columns_apart (clusters_tbl d') = map fix_columns_apart (clusters_tbl d).
Proof.
intros num N env c d c' d'. subst c' d'. unfold evaluateFix.
destruct (under_rollout c) eqn:Hu.
- assert (Hst : fix_status c = Some fix_deployed).
  { unfold under_rollout in Hu. apply andb_prop in Hu. destruct Hu as [Hu _].
    now apply status_is_true. }
  destruct (jltb (rolloutDays c) (daysSinceFix env c)).
  + destruct (jltb (avgAfterFix c) _); cbn [fst snd set_fix fix_status
      current_severity reports_after_fix].
    * split; [reflexivity|]. split; [congruence|]. split; [right; left; auto|].
      split.
      { intros _ env2 d2. unfold evaluateFix, under_rollout. reflexivity. }
      repeat split. now apply update_fix_columns.
    * split; [reflexivity|]. split; [congruence|]. split; [right; right; auto|].
      split.
      { intros _ env2 d2. unfold evaluateFix, under_rollout. reflexivity. }
      repeat split. now apply update_fix_columns.
  + cbn [fst snd set_fix fix_status current_severity reports_after_fix].
    split; [reflexivity|]. split; [congruence|]. split; [left; reflexivity|].
    split; [congruence|]. repeat split. now apply update_fix_columns.
- cbn [fst snd]. split; [symmetry; apply set_fix_same|].
  split; [auto|]. split; [left; reflexivity|]. split.
  + intros Hne env2 d2. unfold evaluateFix. now rewrite Hu.
  + repeat split.
Qed.

Lemma evaluateFix_transitions_witness :
  evaluateFix sample_env64 crash_cluster empty_db64 = (crash_cluster, empty_db64).
Proof.
destruct (@evaluateFix_transitions float binary64 sample_env64 crash_cluster empty_db64)
  as [_ [Hnot _]].
destruct Hnot as [Hc Hd]; [discriminate|].
rewrite (surjective_pairing (evaluateFix sample_env64 crash_cluster empty_db64)).
now rewrite Hc, Hd.
Defined.


Lemma NoDup_map_inj (A B : Type) (f : A -> B) (l : list A) (x y : A) :
  NoDup (map f l) -> In x l -> In y l -> f x = f y -> x = y.
Proof.
induction l as [|z l IH]; simpl; [tauto|]. intros Hnd Hx Hy E.
inversion Hnd as [|? ? Hnot Hnd']; subst.
destruct Hx as [-> | Hx], Hy as [-> | Hy]; try reflexivity.
- exfalso. apply Hnot. rewrite E. now apply in_map.
- exfalso. apply Hnot. rewrite <- E. now apply in_map.
- now apply IH.
Qed.

Lemma NoDup_map_firstn (A B : Type) (f : A -> B) (n : nat) (l : list A) :
  NoDup (map f l) -> NoDup (map f (firstn n l)).
Proof.
revert l. induction n as [|n IH]; intros [|x l]; simpl; try constructor.
- inversion H as [|? ? Hnot Hnd]; subst. intros Hin. apply Hnot.
  apply in_map_iff in Hin. destruct Hin as [y [E Hy]]. apply firstn_In in Hy.
  apply in_map_iff. exists y. tauto.
- inversion H; subst. now apply IH.
Qed.

Lemma NoDup_concat (A : Type) (l l' : list A) :
  NoDup l -> NoDup l' -> (forall a, In a l -> In a l' -> False) -> NoDup (l ++ l').
Proof.
intros Hl Hl' Hd. induction l as [|x l IH]; simpl; [exact Hl'|].
inversion Hl as [|? ? Hnot Hnd]; subst. constructor.
- intros Hin. apply in_app_or in Hin. destruct Hin as [Hin | Hin]; [contradiction|].
  apply (Hd x); [now left | exact Hin].
- apply IH; [exact Hnd|]. intros a Ha. apply Hd. now right.
Qed.

Lemma filter_all (A : Type) (p : A -> bool) (l : list A) :
  (forall x, In x l -> p x = true) -> filter p l = l.
Proof.
induction l as [|x l IH]; simpl; intros Hall; [reflexivity|].
rewrite Hall by (now left). f_equal. apply IH. intros y Hy. apply Hall. now right.
Qed.

Section DigestShape.
Context {num : Type} `{JsNumber num}.
Variable config : Config num.

Lemma issue_keys (l : list (Cluster num)) :
  map issue_key (map (toIssue config) l) = map (cluster_id (num := num)) l.
Proof. rewrite map_map. reflexivity. Qed.

Lemma NoDup_by_priority (l : list (Cluster num)) :
  NoDup (map (cluster_id (num := num)) l) ->
  NoDup (map (cluster_id (num := num)) (by_priority l)).
Proof.
intros Hnd. eapply Permutation_NoDup; [|exact Hnd].
apply Permutation_map, Permutation_sym, sort_desc_perm.
Qed.

Ltac keys_NoDup :=
  rewrite issue_keys;
  repeat first [ apply NoDup_map_firstn | apply NoDup_by_priority
               | apply NoDup_map_filter ].

Lemma in_issues_false (cid : string) (l : list (PriorityIssue num)) :
  (forall t, In t l -> issue_key t <> cid) -> in_issues cid l = false.
Proof.
intros Hall. unfold in_issues. destruct (existsb _ l) eqn:E; [|reflexivity].
apply existsb_exists in E. destruct E as [t [Ht Et]]. apply String.eqb_eq in Et.
now apply Hall in Ht.
Qed.

(** X20.  The lists of the digest, when the scored clusters have distinct
    keys: no cluster appears twice in [top_issues], nor twice in
    [individual_support] and [positive_feedback] together; the two filters
    on the monitoring and failed lists remove nothing, so [top_issues] is the
    new issues followed by all monitored and all failed fixes; only the new
    issues are capped at [maxIssues], and [individual_support] at 10. *)
Theorem digest_has_no_duplicates (scored : list (Cluster num)) :
  NoDup (map (cluster_id (num := num)) scored) ->
  let bk := assembleBuckets config scored in
  let dg := assembleDigest config scored in
  top_issues dg = newTopIssues bk ++ monitoringIssues bk ++ failedFixes bk
  /\ NoDup (map issue_key (top_issues dg))
  /\ NoDup (map issue_key (individual_support dg ++ positive_feedback dg))
  /\ List.length (newTopIssues bk) <= maxIssues config
  /\ List.length (individual_support dg) <= 10.
Proof.
intros Hnd bk dg.
assert (Hnew : forall t, In t (newTopIssues bk) ->
          In (pi_cluster t) scored
          /\ (fix_status (pi_cluster t) = None \/ fix_status (pi_cluster t) = Some open)).
{ intros t Ht. apply newTopIssues_In in Ht. tauto. }
assert (Hmon : forall t, In t (monitoringIssues bk) ->
          In (pi_cluster t) scored /\ fix_status (pi_cluster t) = Some fix_deployed).
{ intros t Ht. apply monitoringIssues_In in Ht. tauto. }
assert (Hfail : forall t, In t (failedFixes bk) ->
          In (pi_cluster t) scored /\ fix_status (pi_cluster t) = Some failed).
{ intros t Ht. apply failedFixes_In in Ht. tauto. }
assert (Hsame : forall t u, In (pi_cluster t) scored -> In (pi_cluster u) scored ->
          issue_key t = issue_key u -> pi_cluster t = pi_cluster u).
{ intros t u Ht Hu E. now apply (NoDup_map_inj (cluster_id (num := num)) scored). }
assert (Etop : top_issues dg
               = newTopIssues bk ++ monitoringIssues bk ++ failedFixes bk).
{ subst dg. unfold assembleDigest. cbn [top_issues]. fold bk. f_equal. f_equal.
  - apply filter_all. intros m Hm. apply negb_true_iff. apply in_issues_false.
    intros t Ht E. destruct (Hnew t Ht) as [Hts Hst]. destruct (Hmon m Hm) as [Hms Hsm].
    apply Hsame in E; try assumption. rewrite E in Hst. destruct Hst; congruence.
  - apply filter_all. intros m Hm. apply negb_true_iff. apply in_issues_false.
    intros t Ht E. destruct (Hnew t Ht) as [Hts Hst]. destruct (Hfail m Hm) as [Hms Hsm].
    apply Hsame in E; try assumption. rewrite E in Hst. destruct Hst; congruence. }
split; [exact Etop|]. split; [|split; [|split]].
- rewrite Etop, !map_app. apply NoDup_concat; [|apply NoDup_concat|].
  + subst bk. unfold assembleBuckets. cbn [newTopIssues]. keys_NoDup. exact Hnd.
  + subst bk. unfold assembleBuckets. cbn [monitoringIssues]. keys_NoDup. exact Hnd.
  + subst bk. unfold assembleBuckets. cbn [failedFixes]. keys_NoDup. exact Hnd.
  + intros k Hk1 Hk2. apply in_map_iff in Hk1, Hk2.
    destruct Hk1 as [t [Et Ht]], Hk2 as [u [Eu Hu]].
    destruct (Hmon t Ht) as [Hts Hst]. destruct (Hfail u Hu) as [Hus Hsu].
    assert (E : pi_cluster t = pi_cluster u) by (apply Hsame; congruence).
    rewrite E in Hst. congruence.
  + intros k Hk1 Hk2. apply in_map_iff in Hk1. destruct Hk1 as [t [Et Ht]].
    destruct (Hnew t Ht) as [Hts Hst].
    apply in_app_or in Hk2. destruct Hk2 as [Hk2 | Hk2];
      apply in_map_iff in Hk2; destruct Hk2 as [u [Eu Hu]].
    * destruct (Hmon u Hu) as [Hus Hsu].
      assert (E : pi_cluster t = pi_cluster u) by (apply Hsame; congruence).
      rewrite E in Hst. destruct Hst; congruence.
    * destruct (Hfail u Hu) as [Hus Hsu].
      assert (E : pi_cluster t = pi_cluster u) by (apply Hsame; congruence).
      rewrite E in Hst. destruct Hst; congruence.
- subst dg. unfold assembleDigest. cbn [individual_support positive_feedback].
  rewrite map_app. apply NoDup_concat.
  + unfold assembleBuckets. cbn [individualSupport]. keys_NoDup. exact Hnd.
  + unfold assembleBuckets. cbn [positiveSupport]. keys_NoDup. exact Hnd.
  + intros k Hk1 Hk2. apply in_map_iff in Hk1, Hk2.
    destruct Hk1 as [t [Et Ht]], Hk2 as [u [Eu Hu]].
    assert (Ht' : In (pi_cluster t) scored /\ isPositiveFeedback (pi_cluster t) = false).
    { pose proof (individualSupport_In _ _ _ Ht) as [Hin _]. split; [exact Hin|].
      unfold assembleBuckets in Ht. cbn [individualSupport] in Ht.
      apply in_map_iff in Ht. destruct Ht as [c [<- Hc]]. cbn [toIssue pi_cluster].
      apply firstn_In, sort_desc_In, filter_In in Hc. destruct Hc as [_ Hc].
      now apply negb_true_iff in Hc. }
    assert (Hu' : In (pi_cluster u) scored /\ isPositiveFeedback (pi_cluster u) = true).
    { pose proof (positiveSupport_In _ _ _ Hu) as [Hin _]. split; [exact Hin|].
      unfold assembleBuckets in Hu. cbn [positiveSupport] in Hu.
      apply in_map_iff in Hu. destruct Hu as [c [<- Hc]]. cbn [toIssue pi_cluster].
      apply sort_desc_In, filter_In in Hc. tauto. }
    destruct Ht' as [Hts Hpt], Hu' as [Hus Hpu].
    assert (E : pi_cluster t = pi_cluster u) by (apply Hsame; congruence).
    rewrite E in Hpt. congruence.
- subst bk. unfold assembleBuckets. cbn [newTopIssues].
  rewrite List.length_map. apply firstn_le_length.
- subst dg. unfold assembleDigest, assembleBuckets. cbn [individual_support individualSupport].
  rewrite List.length_map. apply firstn_le_length.
Qed.
End DigestShape.

Lemma digest_has_no_duplicates_witness :
  NoDup (map (issue_key (num := float))
           (top_issues (assembleDigest defaultConfig [crash_cluster; user_cluster]))).
Proof.
apply (@digest_has_no_duplicates float binary64 defaultConfig [crash_cluster; user_cluster]).
simpl. constructor; [|constructor; [intros [] | constructor]].
intros [E | []]. discriminate.
Defined.


Section SortedExact.
Local Open Scope R_scope.
Variable A : Type.
Variable key : A -> R.

Lemma insert_desc_sorted (x : A) (l : list A) :
  descending key l -> descending key (insert_desc key x l).
Proof.
induction l as [|y l IH]; intros Hs.
- simpl. split; [intros z [] | exact I].
- destruct Hs as [Hall Hs]. cbn [insert_desc].
  destruct (jltb (key x) (key y)) eqn:E.
  + apply exact_ltb_true in E. cbn [descending]. split; [|now apply IH].
    intros z Hz. apply insert_desc_In in Hz.
    destruct Hz as [-> | Hz]; [lra | now apply Hall].
  + apply exact_ltb_false in E. cbn [descending]. split; [|split; assumption].
    intros z [<- | Hz]; [exact E|]. specialize (Hall z Hz). lra.
Qed.

Lemma sort_desc_sorted (l : list A) : descending key (sort_desc key l).
Proof.
unfold sort_desc. induction l as [|x l IH]; simpl; [exact I|].
now apply insert_desc_sorted.
Qed.

Lemma firstn_sorted (n : nat) (l : list A) :
  descending key l -> descending key (firstn n l).
Proof.
revert l. induction n as [|n IH]; intros l Hs; simpl; [exact I|].
destruct l as [|x l]; [exact I|]. destruct Hs as [Hall Hs].
cbn [descending]. split; [|now apply IH].
intros z Hz. apply firstn_In in Hz. now apply Hall.
Qed.
End SortedExact.

Lemma map_sorted (A B : Type) (f : A -> B) (keyA : A -> R) (keyB : B -> R)
    (l : list A) :
  (forall a, keyB (f a) = keyA a) ->
  descending keyA l -> descending keyB (map f l).
Proof.
intros Hk. induction l as [|x l IH]; intros Hs; [exact I|].
destruct Hs as [Hall Hs]. cbn [map descending]. split; [|now apply IH].
intros z Hz. apply in_map_iff in Hz.
destruct Hz as [a [<- Ha]]. rewrite !Hk. now apply Hall.
Qed.

(** X21.  Exact arithmetic: each of the five lists from which the digest
    is assembled is in descending order of priority score, and the batch of
    [generateMorningDigest] is the unprocessed items without alert, each
    once, in descending order of timestamp. *)
Theorem digest_sections_in_priority_order :
  forall (config : Config R) (scored : list (Cluster R)),
    let bk := assembleBuckets config scored in
    let sorted := descending (pi_priority_score (num := R)) in
    sorted (newTopIssues bk) /\ sorted (monitoringIssues bk)
    /\ sorted (failedFixes bk) /\ sorted (individualSupport bk)
    /\ sorted (positiveSupport bk)
    /\ forall (d : DB R),
         descending (timestamp (num := R)) (select_unprocessed d)
         /\ Permutation (select_unprocessed d)
              (map (fb (num := R))
                 (filter (fun r => negb (fb_processed r)
                                   && negb (fb_instant_alert_sent r))
                         (feedback_tbl d))).
Proof.
intros config scored bk sorted. subst bk sorted. unfold assembleBuckets.
cbn [newTopIssues monitoringIssues failedFixes individualSupport positiveSupport].
assert (Hmap : forall l, descending (priority_score (num := R)) l ->
                 descending (pi_priority_score (num := R)) (map (toIssue config) l)).
{ intros l. apply map_sorted. reflexivity. }
repeat split; try (apply Hmap; try apply firstn_sorted; apply sort_desc_sorted).
- apply sort_desc_sorted.
- apply sort_desc_perm.
Qed.


Section CosineGeometry.
Import Spec.
Local Open Scope R_scope.

Lemma dot_comm (a b : list R) : dot a b = dot b a.
Proof.
revert b. induction a as [|x a IH]; intros [|y b]; simpl; try reflexivity.
rewrite IH. ring.
Qed.

Lemma dot_quadratic (a b : list R) (t : R) :
  0 <= dot a a + 2 * t * dot a b + t * t * dot b b.
Proof.
revert b. induction a as [|x a IH]; intros [|y b]; simpl.
- lra.
- pose proof (dot_self_nonneg b).
  assert (0 <= t * t * (y * y + dot b b)) by (apply Rmult_le_pos; nra). lra.
- pose proof (dot_self_nonneg a). nra.
- specialize (IH b).
  replace (x * x + dot a a + 2 * t * (x * y + dot a b) + t * t * (y * y + dot b b))
    with ((x + t * y) * (x + t * y)
          + (dot a a + 2 * t * dot a b + t * t * dot b b)) by ring.
  pose proof (Rle_0_sqr (x + t * y)) as Hsq. unfold Rsqr in Hsq. lra.
Qed.

Lemma cauchy_schwarz (a b : list R) :
  dot a b * dot a b <= dot a a * dot b b.
Proof.
pose proof (dot_self_nonneg a) as HA. pose proof (dot_self_nonneg b) as HB.
destruct (Req_dec_T (dot b b) 0) as [E | E].
- rewrite E. rewrite Rmult_0_r.
  destruct (Req_dec_T (dot a b) 0) as [-> | Hd]; [lra|]. exfalso.
  pose proof (dot_quadratic a b (- (dot a a + 1) / (2 * dot a b))) as Hq.
  rewrite E in Hq.
  replace (2 * (- (dot a a + 1) / (2 * dot a b)) * dot a b) with (- (dot a a + 1))
    in Hq by (field; exact Hd).
  lra.
- assert (HBpos : 0 < dot b b) by lra.
  pose proof (dot_quadratic a b (- dot a b / dot b b)) as Hq.
  replace (dot a a + 2 * (- dot a b / dot b b) * dot a b
           + - dot a b / dot b b * (- dot a b / dot b b) * dot b b)
    with ((dot a a * dot b b - dot a b * dot a b) / dot b b) in Hq
    by (field; exact E).
  assert (0 <= dot a a * dot b b - dot a b * dot a b); [|lra].
  apply Rmult_le_reg_r with (r := / dot b b); [now apply Rinv_0_lt_compat|].
  unfold Rdiv in Hq. lra.
Qed.

Lemma dot_bound (a b : list R) : Rabs (dot a b) <= norm a * norm b.
Proof.
unfold norm. rewrite <- sqrt_mult by apply dot_self_nonneg.
rewrite <- sqrt_Rsqr_abs. apply sqrt_le_1.
- apply Rle_0_sqr.
- apply Rmult_le_pos; apply dot_self_nonneg.
- unfold Rsqr. apply cauchy_schwarz.
Qed.

Lemma norm_nonneg (a : list R) : 0 <= norm a.
Proof. apply sqrt_pos. Qed.

Lemma cosine_exact_cases (a b : list R) :
  cosineSimilarity a b = 0
  \/ (List.length a = List.length b /\ a <> [] /\ norm a <> 0 /\ norm b <> 0
      /\ cosineSimilarity a b = dot a b / (norm a * norm b)).
Proof.
destruct (Nat.eq_dec (List.length a) (List.length b)) as [Hlen | Hlen];
  [|left; change (cosineSimilarity a b = jofZ (num := R) 0); apply cosine_short; auto].
destruct a as [|x a]; [now left|].
destruct (Req_dec_T (norm (x :: a)) 0) as [Ea | Ea];
  [left; apply cosine_exact_zero_norm; auto|].
destruct (Req_dec_T (norm b) 0) as [Eb | Eb];
  [left; apply cosine_exact_zero_norm; auto|].
right. repeat split; try assumption; try discriminate.
apply cosine_exact_quotient; try assumption. discriminate.
Qed.

Lemma cosine_exact_range (a b : list R) : -1 <= cosineSimilarity a b <= 1.
Proof.
destruct (cosine_exact_cases a b) as [-> | [_ [_ [Ha [Hb ->]]]]]; [lra|].
pose proof (norm_nonneg a). pose proof (norm_nonneg b).
assert (Hpos : 0 < norm a * norm b) by (apply Rmult_lt_0_compat; lra).
pose proof (dot_bound a b) as Hb'.
assert (Hd : - (norm a * norm b) <= dot a b <= norm a * norm b).
{ unfold Rabs in Hb'. destruct (Rcase_abs (dot a b)); lra. }
clear Hb'.
split.
- apply Rmult_le_reg_r with (r := norm a * norm b); [exact Hpos|].
  unfold Rdiv. rewrite Rmult_assoc, Rinv_l by lra. lra.
- apply Rmult_le_reg_r with (r := norm a * norm b); [exact Hpos|].
  unfold Rdiv. rewrite Rmult_assoc, Rinv_l by lra. lra.
Qed.

Lemma cosine_quotient_sym (a b : list R) :
  List.length a = List.length b -> a <> [] -> norm a <> 0 -> norm b <> 0 ->
  cosineSimilarity a b = cosineSimilarity b a.
Proof.
intros Hlen Ha Hna Hnb.
assert (Hb : b <> []) by (destruct a, b; simpl in *; congruence).
rewrite (@cosine_exact_quotient a b Hlen Ha Hna Hnb).
rewrite (@cosine_exact_quotient b a (eq_sym Hlen) Hb Hnb Hna).
rewrite dot_comm, (Rmult_comm (norm b)). reflexivity.
Qed.

Lemma cosine_exact_sym (a b : list R) : cosineSimilarity a b = cosineSimilarity b a.
Proof.
destruct (cosine_exact_cases a b) as [E | [Hlen [Ha [Hna [Hnb _]]]]].
- destruct (cosine_exact_cases b a) as [E' | [Hlen [Hb [Hnb [Hna _]]]]].
  + congruence.
  + symmetry. now apply cosine_quotient_sym.
- now apply cosine_quotient_sym.
Qed.
End CosineGeometry.

(** X22.  [cosineSimilarity], exact arithmetic: the result lies in
    [-1, 1] for all vectors (of any lengths, zero or not), and does not
    depend on the order of the two arguments. *)
Theorem cosine_exact_geometry :
  forall a b : list R,
    (-1 <= cosineSimilarity a b <= 1)%R
    /\ cosineSimilarity a b = cosineSimilarity b a.
Proof.
intros a b. split; [apply cosine_exact_range | apply cosine_exact_sym].
Qed.
